(** * A shallow embedding of [ingest.py], the CRM-to-Neo4j batch loader.

    The development follows the script top-down in the order the script
    needs its own helpers: Python strings, the exceptions the script can
    see, the slug of a case owner, the two readers of [cases.csv], the
    field value converter, and finally the stateful pipeline (queries,
    batches, phases, connection lifecycle).

    Strings are [string]s of Latin-1 code points (0..255): on that range
    [str.lower], [str.strip], [str.isdigit] and [float] are closed, and
    their tables are written out below. *)

From Stdlib Require Import ZArith Ascii String List Lia Bool.
From stdpp Require Import base gmap sets list strings pretty.

Local Open Scope Z_scope.

(** ** Python strings *)

Module PyStr.

Definition code (c : ascii) : N := N_of_ascii c.

(** [str.isspace] on one character: U+0009..U+000D, U+001C..U+0020,
    U+0085 and U+00A0. *)
Definition isspace (c : ascii) : bool :=
  let n := code c in
  ((9 <=? n) && (n <=? 13) || (28 <=? n) && (n <=? 32)
   || (n =? 133) || (n =? 160))%N.

(** [str.lower] on one character: A..Z and the Latin-1 capitals
    U+00C0..U+00DE (U+00D7, the multiplication sign, is not a letter). *)
Definition lower_char (c : ascii) : ascii :=
  let n := code c in
  if ((65 <=? n) && (n <=? 90)
      || (192 <=? n) && (n <=? 222) && negb (n =? 215))%N
  then ascii_of_N (n + 32) else c.

Fixpoint lower (s : string) : string :=
  match s with
  | EmptyString => EmptyString
  | String c s' => String (lower_char c) (lower s')
  end.

Fixpoint lstrip (s : string) : string :=
  match s with
  | EmptyString => EmptyString
  | String c s' => if isspace c then lstrip s' else s
  end.

Fixpoint rstrip (s : string) : string :=
  match s with
  | EmptyString => EmptyString
  | String c s' =>
      match rstrip s' with
      | EmptyString => if isspace c then EmptyString else String c EmptyString
      | r => String c r
      end
  end.

(** [s.strip()] *)
Definition strip (s : string) : string := rstrip (lstrip s).

(** [s.replace(old, new)] for a one-character [old]. *)
Fixpoint replace (old : ascii) (new : string) (s : string) : string :=
  match s with
  | EmptyString => EmptyString
  | String c s' =>
      if Ascii.eqb c old then new +:+ replace old new s'
      else String c (replace old new s')
  end.

Fixpoint startswith (p s : string) : bool :=
  match p, s with
  | EmptyString, _ => true
  | String a p', String b s' => Ascii.eqb a b && startswith p' s'
  | String _ _, EmptyString => false
  end.

(** [sub in s] *)
Fixpoint contains (sub s : string) : bool :=
  startswith sub s ||
  match s with
  | EmptyString => false
  | String _ s' => contains sub s'
  end.

(** Truthiness of a string: [bool(s)]. *)
Definition truthy (s : string) : bool :=
  match s with EmptyString => false | _ => true end.

Definition is_ascii_digit (c : ascii) : bool :=
  let n := code c in ((48 <=? n) && (n <=? 57))%N.

(** [str.isdigit] on one character: 0..9 and the superscripts
    U+00B2, U+00B3, U+00B9. *)
Definition isdigit_char (c : ascii) : bool :=
  let n := code c in
  is_ascii_digit c || (n =? 178)%N || (n =? 179)%N || (n =? 185)%N.

Fixpoint all_chars (p : ascii -> bool) (s : string) : bool :=
  match s with
  | EmptyString => true
  | String c s' => p c && all_chars p s'
  end.

(** [s.isdigit()]: non-empty and every character a digit. *)
Definition isdigit (s : string) : bool := truthy s && all_chars isdigit_char s.

End PyStr.

(** ** Values, records, exceptions *)

(** What a record field may hold: [None], an [int] or a [str]. *)
Inductive pyval : Type :=
| PNone
| PInt (z : Z)
| PStr (s : string).

(** A record is a [dict] from field name to value; insertion order is
    kept, as Python keeps it. *)
Definition record : Type := list (string * pyval).

Inductive exn_class : Type :=
| ValueError | TypeError | OverflowError | AttributeError | KeyError
| FileNotFoundError | ConnectionError | DriverError.

(** An exception: its class and [str(e)]. Every class above derives from
    [Exception]. *)
Record exn : Type := Exn { exn_cls : exn_class; exn_text : string }.

Inductive result (A : Type) : Type :=
| Ok (a : A)
| Raise (e : exn).
Arguments Ok {A} a.
Arguments Raise {A} e.

Definition rbind {A B} (r : result A) (k : A -> result B) : result B :=
  match r with
  | Ok a => k a
  | Raise e => Raise e
  end.

Definition is_ok {A} (r : result A) : bool :=
  match r with Ok _ => true | Raise _ => false end.

(** ** Rows of a CSV file *)

(** A row as [csv.DictReader] yields it: a [dict] keyed by the header;
    a row shorter than the header maps the remaining columns to [None]. *)
Abbreviation row := (gmap string (option string)).

(** [row.get(key, '')]: the default only when the key is absent. *)
Definition row_get (r : row) (key : string) : option string :=
  match r !! key with
  | None => Some EmptyString
  | Some v => v
  end.

(** [x.strip()] where [x] may be [None]. *)
Definition strip_attr (x : option string) : result string :=
  match x with
  | Some s => Ok (PyStr.strip s)
  | None => Raise (Exn AttributeError "'NoneType' object has no attribute 'strip'")
  end.

(** ** Case owners *)

(** [generate_case_owner_id]: [None] for an empty or blank name, else the
    name lowercased, spaces to underscores, periods dropped. *)
Definition generate_case_owner_id (name : string) : option string :=
  if negb (PyStr.truthy name) || String.eqb (PyStr.strip name) ""
  then None
  else Some (PyStr.replace "." "" (PyStr.replace " " "_" (PyStr.lower name))).

Definition opt_val (o : option string) : pyval :=
  match o with Some s => PStr s | None => PNone end.

(** The first loop of [load_case_owners]: the set of trimmed, non-empty
    owner names. *)
Fixpoint collect_case_owners (rows : list row) (case_owners : gset string)
  : result (gset string) :=
  match rows with
  | [] => Ok case_owners
  | r :: rows' =>
      rbind (strip_attr (row_get r "Case_Owner")) (fun owner =>
        collect_case_owners rows'
          (if PyStr.truthy owner then case_owners ∪ {[ owner ]} else case_owners))
  end.

Definition owner_record (owner_name : string) : record :=
  [ ("ownerId", opt_val (generate_case_owner_id owner_name));
    ("name", PStr owner_name) ].

(** The records [load_case_owners] binds to the [records] parameter. A
    Python set iterates in an unspecified order; [elements] fixes one. *)
Definition case_owner_records (rows : list row) : result (list record) :=
  rbind (collect_case_owners rows ∅) (fun case_owners =>
    Ok (owner_record <$> elements case_owners)).

(** [load_assigned_to_relationships], on the rows of [cases.csv]. *)
Fixpoint assigned_to_records (rows : list row) : result (list record) :=
  match rows with
  | [] => Ok []
  | r :: rows' =>
      rbind (strip_attr (row_get r "Case_ID")) (fun case_id =>
      rbind (strip_attr (row_get r "Case_Owner")) (fun case_owner =>
      rbind (assigned_to_records rows') (fun rest =>
        Ok (if PyStr.truthy case_id && PyStr.truthy case_owner
            then [ ("sourceId", PStr case_id);
                   ("targetId", opt_val (generate_case_owner_id case_owner)) ] :: rest
            else rest))))
  end.

(** [d[key]] on a record. *)
Fixpoint field (key : string) (r : record) : option pyval :=
  match r with
  | [] => None
  | (k, v) :: r' => if String.eqb k key then Some v else field key r'
  end.

Definition cases_row (case_id case_owner : string) : row :=
  {[ "Case_ID" := Some case_id; "Case_Owner" := Some case_owner ]}.


(** ** [int] and [float] of a string *)

Module PyNum.

(** Whitespace that [int] and [float] strip: the ASCII white space of
    C, plus the non-ASCII white space (which CPython first rewrites to a
    blank). U+001C..U+001F are not stripped. *)
Definition isspace_num (c : ascii) : bool :=
  let n := PyStr.code c in
  ((9 <=? n) && (n <=? 13) || (n =? 32) || (n =? 133) || (n =? 160))%N.

Fixpoint lstrip_num (s : string) : string :=
  match s with
  | EmptyString => EmptyString
  | String c s' => if isspace_num c then lstrip_num s' else s
  end.

Fixpoint rstrip_num (s : string) : string :=
  match s with
  | EmptyString => EmptyString
  | String c s' =>
      match rstrip_num s' with
      | EmptyString => if isspace_num c then EmptyString else String c EmptyString
      | r => String c r
      end
  end.

Definition strip_num (s : string) : string := rstrip_num (lstrip_num s).

Definition digit_val (c : ascii) : Z := Z.of_N (PyStr.code c) - 48.

(** The rest of a [digitpart] after its first digit: digits, each
    optionally preceded by one underscore. Returns the accumulated value,
    the number of digits read, and the unread text. *)
Fixpoint digitpart_tail (s : string) (acc cnt : Z) : Z * Z * string :=
  match s with
  | EmptyString => (acc, cnt, s)
  | String c s' =>
      if PyStr.is_ascii_digit c
      then digitpart_tail s' (10 * acc + digit_val c) (cnt + 1)
      else if Ascii.eqb c "_"
      then match s' with
           | String d s'' =>
               if PyStr.is_ascii_digit d
               then digitpart_tail s'' (10 * acc + digit_val d) (cnt + 1)
               else (acc, cnt, s)
           | EmptyString => (acc, cnt, s)
           end
      else (acc, cnt, s)
  end.

Definition digitpart (s : string) (acc cnt : Z) : option (Z * Z * string) :=
  match s with
  | String c s' =>
      if PyStr.is_ascii_digit c
      then Some (digitpart_tail s' (10 * acc + digit_val c) (cnt + 1))
      else None
  | EmptyString => None
  end.

(** An optional sign: [true] for a minus. *)
Definition take_sign (s : string) : bool * string :=
  match s with
  | String "+" s' => (false, s')
  | String "-" s' => (true, s')
  | _ => (false, s)
  end.

(** CPython's default limit on the digits of a decimal [int] literal. *)
Definition int_max_str_digits : Z := 4300.

Definition invalid_int : exn :=
  Exn ValueError "invalid literal for int() with base 10".

(** [int(s)] *)
Definition py_int (s : string) : result Z :=
  let '(neg, body) := take_sign (strip_num s) in
  match digitpart body 0 0 with
  | Some (v, cnt, EmptyString) =>
      if int_max_str_digits <? cnt
      then Raise (Exn ValueError "Exceeds the limit (4300 digits) for integer string conversion")
      else Ok (if neg then - v else v)
  | _ => Raise invalid_int
  end.

(** A binary64 value: not-a-number, an infinity, or [(-1)^neg * m * 2^e]. *)
Inductive pyfloat : Type :=
| FNan
| FInf (neg : bool)
| FFin (neg : bool) (m e : Z).

(** Is [d * 2^k <= n] ? *)
Definition pow2_le (n d k : Z) : bool :=
  if 0 <=? k then d * 2 ^ k <=? n else d <=? n * 2 ^ (- k).

(** The binary64 nearest to [n / d] (for [0 < n], [0 < d]), ties to
    even, overflowing to infinity. *)
Definition round_ratio (neg : bool) (n d : Z) : pyfloat :=
  let k := Z.log2 n - Z.log2 d in
  let fl := if pow2_le n d k then k else k - 1 in
  let e := Z.max (fl - 52) (-1074) in
  let num := if 0 <=? e then n else n * 2 ^ (- e) in
  let den := if 0 <=? e then d * 2 ^ e else d in
  let q := num / den in
  let r := num mod den in
  let m := if 2 * r <? den then q
           else if den <? 2 * r then q + 1
           else if Z.even q then q else q + 1 in
  if (971 <? e) || ((e =? 971) && (2 ^ 53 <=? m)) then FInf neg
  else FFin neg m e.

(** The binary64 nearest to [m * 10^x]. *)
Definition of_decimal (neg : bool) (m x : Z) : pyfloat :=
  if m =? 0 then FFin neg 0 0
  else if 0 <=? x then round_ratio neg (m * 10 ^ x) 1
  else round_ratio neg m (10 ^ (- x)).

(** [number]: [digitpart] with an optional fraction, or a fraction alone.
    Returns the digits read as one integer, the number of fraction
    digits, and the unread text. *)
Definition number (s : string) : option (Z * Z * string) :=
  match digitpart s 0 0 with
  | Some (ip, _, String "." rest) =>
      match digitpart rest ip 0 with
      | Some r => Some r
      | None => Some (ip, 0, rest)
      end
  | Some (ip, _, rest) => Some (ip, 0, rest)
  | None =>
      match s with
      | String "." rest => digitpart rest 0 0
      | _ => None
      end
  end.

(** An optional [exponent]; [None] when an exponent starts and is
    ill-formed. *)
Definition exponent (s : string) : option (Z * string) :=
  match s with
  | String c s' =>
      if Ascii.eqb c "e" || Ascii.eqb c "E"
      then let '(neg, body) := take_sign s' in
           match digitpart body 0 0 with
           | Some (v, _, rest) => Some (if neg then - v else v, rest)
           | None => None
           end
      else Some (0, s)
  | EmptyString => Some (0, s)
  end.

Definition invalid_float : exn :=
  Exn ValueError "could not convert string to float".

(** [float(s)] *)
Definition py_float (s : string) : result pyfloat :=
  let '(neg, body) := take_sign (strip_num s) in
  let low := PyStr.lower body in
  if String.eqb low "inf" || String.eqb low "infinity" then Ok (FInf neg)
  else if String.eqb low "nan" then Ok FNan
  else
    match number body with
    | Some (m, k, rest) =>
        match exponent rest with
        | Some (x, EmptyString) => Ok (of_decimal neg m (x - k))
        | _ => Raise invalid_float
        end
    | None => Raise invalid_float
    end.

(** [int(f)]: truncation toward zero. *)
Definition int_of_float (f : pyfloat) : result Z :=
  match f with
  | FNan => Raise (Exn ValueError "cannot convert float NaN to integer")
  | FInf _ => Raise (Exn OverflowError "cannot convert float infinity to integer")
  | FFin neg m e =>
      let a := if 0 <=? e then m * 2 ^ e else m / 2 ^ (- e) in
      Ok (if neg then - a else a)
  end.

End PyNum.

(** ** [datetime.strptime] and [strftime] for year, month and day *)

Module PyDate.

Inductive item : Type :=
| DirY            (* %Y : \d\d\d\d *)
| Dirm            (* %m : 1[0-2]|0[1-9]|[1-9] *)
| Dird            (* %d : 3[0-1]|[1-2]\d|0[1-9]|[1-9]| [1-9] *)
| Lit (c : ascii)
| Bad.            (* any other directive *)

(** The items of a format string. *)
Fixpoint compile (fmt : string) : list item :=
  match fmt with
  | EmptyString => []
  | String "%" (String "Y" fmt') => DirY :: compile fmt'
  | String "%" (String "m" fmt') => Dirm :: compile fmt'
  | String "%" (String "d" fmt') => Dird :: compile fmt'
  | String "%" _ => [Bad]
  | String c fmt' => Lit c :: compile fmt'
  end.

Record fields : Type := Fields { f_year : Z; f_month : Z; f_day : Z }.

Definition in_range (lo hi c : ascii) : bool :=
  ((PyStr.code lo <=? PyStr.code c) && (PyStr.code c <=? PyStr.code hi))%N.

Definition dv := PyNum.digit_val.

(** The first alternative that lets the rest of the pattern match. *)
Fixpoint first_some {A} (alts : list (option A)) : option A :=
  match alts with
  | [] => None
  | Some a :: _ => Some a
  | None :: alts' => first_some alts'
  end.

(** Two characters [a b] with [a] in [la..ha] and [b] in [lb..hb]. *)
Definition two {A} (la ha lb hb : ascii) (s : string)
    (k : Z -> string -> option A) : option A :=
  match s with
  | String a (String b s') =>
      if in_range la ha a && in_range lb hb b
      then k (10 * dv a + dv b) s' else None
  | _ => None
  end.

Definition one {A} (la ha : ascii) (s : string)
    (k : Z -> string -> option A) : option A :=
  match s with
  | String a s' => if in_range la ha a then k (dv a) s' else None
  | _ => None
  end.

(** [re.match] of the compiled format at the start of [s], with the
    alternatives of a group tried in order: the fields read and the
    unread text. *)
Fixpoint regex_match (items : list item) (s : string) (f : fields)
  : option (fields * string) :=
  match items with
  | [] => Some (f, s)
  | Lit c :: items' =>
      match s with
      | String c' s' => if Ascii.eqb c c' then regex_match items' s' f else None
      | EmptyString => None
      end
  | DirY :: items' =>
      match s with
      | String a (String b (String c (String d s'))) =>
          if PyStr.is_ascii_digit a && PyStr.is_ascii_digit b
             && PyStr.is_ascii_digit c && PyStr.is_ascii_digit d
          then regex_match items' s'
                 (Fields (1000 * dv a + 100 * dv b + 10 * dv c + dv d)
                         (f_month f) (f_day f))
          else None
      | _ => None
      end
  | Dirm :: items' =>
      let k v s' := regex_match items' s' (Fields (f_year f) v (f_day f)) in
      first_some [ two "1" "1" "0" "2" s k;
                   two "0" "0" "1" "9" s k;
                   one "1" "9" s k ]
  | Dird :: items' =>
      let k v s' := regex_match items' s' (Fields (f_year f) (f_month f) v) in
      first_some [ two "3" "3" "0" "1" s k;
                   two "1" "2" "0" "9" s k;
                   two "0" "0" "1" "9" s k;
                   one "1" "9" s k;
                   match s with
                   | String " " s' => one "1" "9" s' k
                   | _ => None
                   end ]
  | Bad :: _ => None
  end.

Definition is_leap (y : Z) : bool :=
  (y mod 4 =? 0) && (negb (y mod 100 =? 0) || (y mod 400 =? 0)).

Definition days_in_month (y m : Z) : Z :=
  if m =? 2 then (if is_leap y then 29 else 28)
  else if (m =? 4) || (m =? 6) || (m =? 9) || (m =? 11) then 30
  else 31.

(** A [datetime] at midnight: only the date matters here. *)
Record date : Type := Date { year : Z; month : Z; day : Z }.

Definition has_bad (items : list item) : bool :=
  existsb (fun i => match i with Bad => true | _ => false end) items.

(** [datetime.strptime(s, fmt)]; every failure is a [ValueError]. *)
Definition strptime (s fmt : string) : result date :=
  let items := compile fmt in
  if has_bad items then Raise (Exn ValueError "bad directive in format")
  else
    match regex_match items s (Fields 1900 1 1) with
    | None => Raise (Exn ValueError "time data does not match format")
    | Some (f, EmptyString) =>
        if f_year f =? 0 then Raise (Exn ValueError "year 0 is out of range")
        else if days_in_month (f_year f) (f_month f) <? f_day f
        then Raise (Exn ValueError "day is out of range for month")
        else Ok (Date (f_year f) (f_month f) (f_day f))
    | Some (_, String _ _) => Raise (Exn ValueError "unconverted data remains")
    end.

Definition two_digits (n : Z) : string :=
  if n <? 10 then "0" +:+ pretty n else pretty n.

(** [d.strftime('%Y-%m-%d')]. The C library prints the year without
    padding; month and day take two digits. *)
Definition strftime_ymd (d : date) : string :=
  pretty (year d) +:+ "-" +:+ two_digits (month d) +:+ "-" +:+ two_digits (day d).

End PyDate.

(** ** The field value converter *)

Definition numeric_keywords : list string :=
  ["revenue"; "amount"; "number"; "probability"].

Definition date_keywords : list string := ["date"; "created"; "closed"].

Definition date_formats : list string := ["%Y-%m-%d"; "%m/%d/%Y"; "%d/%m/%Y"].

(** [any(keyword in field_name.lower() for keyword in keywords)] *)
Definition any_keyword (keywords : list string) (field_name : string) : bool :=
  existsb (fun keyword => PyStr.contains keyword (PyStr.lower field_name)) keywords.

(** [try: r  except (classes): handler] *)
Definition try_except {A} (r : result A) (caught : exn_class -> bool)
    (handler : exn -> result A) : result A :=
  match r with
  | Ok a => Ok a
  | Raise e => if caught (exn_cls e) then handler e else Raise e
  end.

Definition value_or_type_error (c : exn_class) : bool :=
  match c with ValueError | TypeError => true | _ => false end.

Definition value_error (c : exn_class) : bool :=
  match c with ValueError => true | _ => false end.

Definition any_exception (c : exn_class) : bool := true.

(** The loop over the date formats: the first format that parses wins;
    when none does the original text is returned. *)
Fixpoint try_date_formats (formats : list string) (value : string) : result pyval :=
  match formats with
  | [] => Ok (PStr value)
  | date_format :: formats' =>
      try_except
        (rbind (PyDate.strptime value date_format) (fun d =>
           Ok (PStr (PyDate.strftime_ymd d))))
        value_error
        (fun _ => try_date_formats formats' value)
  end.

(** [convert_field_value(field_name, value)]; [value] is [None] or a
    string. *)
Definition convert_field_value (field_name : string) (value : option string)
  : result pyval :=
  match value with
  | None => Ok PNone
  | Some EmptyString => Ok PNone
  | Some value =>
      if any_keyword numeric_keywords field_name then
        try_except
          (rbind (if PyStr.isdigit value then PyNum.py_int value
                  else rbind (PyNum.py_float value) PyNum.int_of_float)
                 (fun n => Ok (PInt n)))
          value_or_type_error
          (fun _ => Ok PNone)
      else if any_keyword date_keywords field_name then
        if PyStr.truthy value && PyStr.truthy (PyStr.strip value) then
          try_except (try_date_formats date_formats value)
            any_exception (fun _ => Ok PNone)
        else Ok PNone
      else Ok (PStr value)
  end.

(** ** The outside world: configuration, files, database *)

(** A key of the YAML configuration: absent, present with no value
    ([null]), or present with a value. *)
Inductive yaml (A : Type) : Type :=
| Absent
| Null
| Present (a : A).
Arguments Absent {A}.
Arguments Null {A}.
Arguments Present {A} a.

(** One entry of [loading_queries.nodes] or [loading_queries.relationships];
    [None] is a missing key. [entry_source] is [source_file] for a node
    type and [source_data] for a relationship type. *)
Record entry : Type := Entry {
  entry_source : option string;
  entry_field_mappings : option (list (string * string));
  entry_query : option string
}.

Record InitializingQueries : Type := {
  constraints : yaml (list string);
  indexes : yaml (list string)
}.

Record LoadingQueries : Type := {
  nodes : yaml (list (string * entry));
  relationships : yaml (list (string * entry))
}.

Record Config : Type := {
  initializing_queries : yaml InitializingQueries;
  loading_queries : yaml LoadingQueries
}.

(** How one [run_query] call ends: the session cannot be acquired, the
    statement fails inside the session, or the summary is consumed. *)
Inductive outcome : Type :=
| SessionFails (e : exn)
| RunFails (e : exn)
| RunOk.

(** Everything the process reads from outside. The database answers are
    indexed by the number of earlier database interactions, so an answer
    may depend on all that happened before. *)
Record Env : Type := {
  NEO4J_URI : option string;
  NEO4J_USERNAME : option string;
  NEO4J_PASSWORD : option string;
  NEO4J_DATABASE : option string;
  config_file : option Config;               (* [None]: no such file *)
  data_dir : string -> option (list row);    (* the CSV files under data/ *)
  driver_ctor : option exn;                  (* [GraphDatabase.driver] raising *)
  connectivity : option exn;                 (* [verify_connectivity] raising *)
  db_write : nat -> string -> option (list record) -> outcome;
  verify_session : nat -> option exn;        (* acquiring the verifier's session *)
  db_count : nat -> string -> result Z       (* [session.run(q).single()["count"]] *)
}.

Inductive event : Type :=
| LogInfo (msg : string)
| LogError (msg : string)
| RootLogError (msg : string)
| DriverCreated
| DriverClosed
| SessionOpened (tick : nat)
| SessionClosed (tick : nat)
| Executed (tick : nat) (query : string) (parameters : option (list record))
| Rejected (tick : nat) (query : string) (parameters : option (list record))
| Counted (tick : nat) (query : string) (count : Z)
| CountFailed (tick : nat) (query : string).

(** The process state: the number of database interactions so far and the
    events so far, most recent first. *)
Record world : Type := World { clock : nat; trace : list event }.

Definition M (A : Type) : Type := world -> result A * world.

Definition ret {A} (a : A) : M A := fun w => (Ok a, w).
Definition raise {A} (e : exn) : M A := fun w => (Raise e, w).
Definition bind {A B} (m : M A) (k : A -> M B) : M B :=
  fun w => match m w with
           | (Ok a, w') => k a w'
           | (Raise e, w') => (Raise e, w')
           end.
Definition lift {A} (r : result A) : M A := fun w => (r, w).

(** [try: m  except Exception as e: handler e] *)
Definition catch {A} (m : M A) (handler : exn -> M A) : M A :=
  fun w => match m w with
           | (Ok a, w') => (Ok a, w')
           | (Raise e, w') => handler e w'
           end.

Definition emit (ev : event) : M unit :=
  fun w => (Ok tt, World (clock w) (ev :: trace w)).

(** The current tick; the clock advances. *)
Definition tick : M nat :=
  fun w => (Ok (clock w), World (S (clock w)) (trace w)).

Notation "x <- m ;; k" := (bind m (fun x => k))
  (at level 100, m at next level, right associativity, only parsing).
Notation "m ;;; k" := (bind m (fun _ => k))
  (at level 100, right associativity, only parsing).

Definition info (msg : string) : M unit := emit (LogInfo msg).
Definition error (msg : string) : M unit := emit (LogError msg).

(** [for x in xs: body x], stopping at the first exception. *)
Fixpoint for_each {A} (xs : list A) (body : A -> M unit) : M unit :=
  match xs with
  | [] => ret tt
  | x :: xs' => body x ;;; for_each xs' body
  end.

(** [d[key]] on a configuration entry. *)
Definition subscript {A} (key : string) (o : option A) : M A :=
  match o with
  | Some a => ret a
  | None => raise (Exn KeyError ("'" +:+ key +:+ "'"))
  end.

(** [d.get(key)] on a dictionary kept as its items in insertion order. *)
Fixpoint dict_get {A} (key : string) (d : list (string * A)) : option A :=
  match d with
  | [] => None
  | (k, v) :: d' => if String.eqb k key then Some v else dict_get key d'
  end.

Definition not_subscriptable : exn :=
  Exn TypeError "'NoneType' object is not subscriptable".
Definition no_attribute (name : string) : exn :=
  Exn AttributeError ("'NoneType' object has no attribute '" +:+ name +:+ "'").
Definition not_iterable : exn :=
  Exn TypeError "'NoneType' object is not iterable".

(** [d[key]] where the key may be absent or null: the value, or [None]. *)
Definition subscript_yaml {A} (key : string) (y : yaml A) : M (option A) :=
  match y with
  | Absent => raise (Exn KeyError ("'" +:+ key +:+ "'"))
  | Null => ret None
  | Present a => ret (Some a)
  end.

Definition batch_size : nat := 1000.

(** [range(0, stop, step)] *)
Definition range_step (stop step : nat) : list nat :=
  (fun j => (j * step)%nat) <$> seq 0 (Nat.div (stop + step - 1) step).

(** [records[i:i + size]] *)
Definition slice {A} (i size : nat) (records : list A) : list A :=
  take size (drop i records).

(** The batches the two loading loops go through. *)
Definition batches {A} (size : nat) (records : list A) : list (list A) :=
  (fun i => slice i size records) <$> range_step (length records) size.

Definition verification_queries : list (string * string) :=
  [ ("Total Accounts", "MATCH (n:Account) RETURN count(n) as count");
    ("Total Contacts", "MATCH (n:Contact) RETURN count(n) as count");
    ("Total Cases", "MATCH (n:Case) RETURN count(n) as count");
    ("Total Opportunities", "MATCH (n:Opportunity) RETURN count(n) as count");
    ("Total Leads", "MATCH (n:Lead) RETURN count(n) as count");
    ("Total Case Owners", "MATCH (n:CaseOwner) RETURN count(n) as count");
    ("Account-Contact relationships",
     "MATCH (:Contact)-[:BELONGS_TO_ACCOUNT]->(:Account) RETURN count(*) as count");
    ("Account-Case relationships",
     "MATCH (:Account)-[:HAS_CASE]->(:Case) RETURN count(*) as count");
    ("Case-Contact relationships",
     "MATCH (:Case)-[:REPORTED_BY]->(:Contact) RETURN count(*) as count");
    ("Account-Opportunity relationships",
     "MATCH (:Account)-[:HAS_OPPORTUNITY]->(:Opportunity) RETURN count(*) as count");
    ("Case-Owner relationships",
     "MATCH (:Case)-[:ASSIGNED_TO]->(:CaseOwner) RETURN count(*) as count") ].

Definition truthy_opt (o : option string) : bool :=
  match o with Some s => PyStr.truthy s | None => false end.

(** "already exists" in str(e).lower() *)
Definition already_exists (e : exn) : bool :=
  PyStr.contains "already exists" (PyStr.lower (exn_text e)).

(** ** The [Neo4jIngest] object and its methods *)

Record Neo4jIngest : Type := {
  neo4j_database : string;
  config : Config
}.

Section Pipeline.

Variable env : Env.

(** [load_environment] *)
Definition load_environment : M string :=
  if truthy_opt (NEO4J_URI env) && truthy_opt (NEO4J_USERNAME env)
     && truthy_opt (NEO4J_PASSWORD env)
  then ret (default "neo4j" (NEO4J_DATABASE env))
  else raise (Exn ValueError "Missing required Neo4j credentials in .env file").

(** [load_config] *)
Definition load_config (path : string) : M Config :=
  match config_file env with
  | Some c => info ("Loaded configuration from " +:+ path) ;;; ret c
  | None => raise (Exn FileNotFoundError ("Configuration file " +:+ path +:+ " not found"))
  end.

(** [connect_to_neo4j]: any failure is re-raised as a [ConnectionError]. *)
Definition connect_to_neo4j : M unit :=
  catch
    (match driver_ctor env with
     | Some e => raise e
     | None =>
         emit DriverCreated ;;;
         match connectivity env with
         | Some e => raise e
         | None => info "Successfully connected to Neo4j"
         end
     end)
    (fun e => raise (Exn ConnectionError ("Failed to connect to Neo4j: " +:+ exn_text e))).

(** [Neo4jIngest()] *)
Definition new_ingest : M Neo4jIngest :=
  database <- load_environment ;;
  c <- load_config "ingest_config.yaml" ;;
  connect_to_neo4j ;;;
  ret {| neo4j_database := database; config := c |}.

Variable self : Neo4jIngest.

(** [run_query] *)
Definition run_query (query : string) (parameters : option (list record)) : M unit :=
  t <- tick ;;
  match db_write env t query parameters with
  | SessionFails e => raise e
  | RunFails e =>
      emit (SessionOpened t) ;;;
      emit (Rejected t query parameters) ;;;
      error ("Query failed: " +:+ query) ;;;
      error ("Error: " +:+ exn_text e) ;;;
      emit (SessionClosed t) ;;;
      raise e
  | RunOk =>
      emit (SessionOpened t) ;;;
      emit (Executed t query parameters) ;;;
      emit (SessionClosed t)
  end.

(** [self.config.get('initializing_queries', {}).get(key, [])] *)
Definition initializing (key : string)
    (proj : InitializingQueries -> yaml (list string)) : M (option (list string)) :=
  match initializing_queries (config self) with
  | Absent => ret (Some [])
  | Null => raise (no_attribute "get")
  | Present iq =>
      match proj iq with
      | Absent => ret (Some [])
      | Null => ret None
      | Present l => ret (Some l)
      end
  end.

(** One turn of the loop of [create_constraints] or [create_indexes]. *)
Definition create_one (what What : string) (statement : string) : M unit :=
  catch
    (run_query statement None ;;;
     info ("Created " +:+ what +:+ ": " +:+ statement))
    (fun e =>
       if already_exists e
       then info (What +:+ " already exists: " +:+ statement)
       else error ("Failed to create " +:+ what +:+ ": " +:+ exn_text e) ;;; raise e).

(** [create_constraints] *)
Definition create_constraints : M unit :=
  info "Creating database constraints..." ;;;
  l <- initializing "constraints" constraints ;;
  match l with
  | None => raise not_iterable
  | Some l => for_each l (create_one "constraint" "Constraint")
  end.

(** [create_indexes] *)
Definition create_indexes : M unit :=
  info "Creating database indexes..." ;;;
  l <- initializing "indexes" indexes ;;
  match default [] l with
  | [] => info "No indexes to create"
  | l => for_each l (create_one "index" "Index")
  end.

(** [open(path)] followed by [csv.DictReader]. *)
Definition read_csv (file_path : string) : M (list row) :=
  match data_dir env file_path with
  | Some rows => ret rows
  | None => raise (Exn FileNotFoundError
                     ("[Errno 2] No such file or directory: 'data/" +:+ file_path +:+ "'"))
  end.

(** One record of [load_csv_data]: a field per configured mapping. *)
Fixpoint build_record (field_mappings : list (string * string)) (r : row)
  : result record :=
  match field_mappings with
  | [] => Ok []
  | (target_field, source_field) :: rest =>
      rbind (match row_get r source_field with
             | None => Ok PNone
             | Some EmptyString => Ok PNone
             | Some value => convert_field_value target_field (Some value)
             end) (fun v =>
      rbind (build_record rest r) (fun fields => Ok ((target_field, v) :: fields)))
  end.

Fixpoint build_records (field_mappings : list (string * string)) (rows : list row)
  : result (list record) :=
  match rows with
  | [] => Ok []
  | r :: rows' =>
      rbind (build_record field_mappings r) (fun rec =>
      rbind (build_records field_mappings rows') (fun recs => Ok (rec :: recs)))
  end.

(** [load_csv_data] *)
Definition load_csv_data (file_path : string) (field_mappings : list (string * string))
  : M (list record) :=
  match data_dir env file_path with
  | None => raise (Exn FileNotFoundError ("CSV file not found: data/" +:+ file_path))
  | Some rows =>
      records <- lift (build_records field_mappings rows) ;;
      info ("Loaded " +:+ pretty (length records) +:+ " records from data/" +:+ file_path) ;;;
      ret records
  end.

(** [self.config['loading_queries']['nodes']['CaseOwner']['query']] *)
Definition case_owner_query : M string :=
  lq <- subscript_yaml "loading_queries" (loading_queries (config self)) ;;
  match lq with
  | None => raise not_subscriptable
  | Some lq =>
      ns <- subscript_yaml "nodes" (nodes lq) ;;
      match ns with
      | None => raise not_subscriptable
      | Some ns =>
          e <- subscript "CaseOwner" (dict_get "CaseOwner" ns) ;;
          subscript "query" (entry_query e)
      end
  end.

(** [load_case_owners] *)
Definition load_case_owners : M unit :=
  info "Loading case owners..." ;;;
  rows <- read_csv "cases.csv" ;;
  records <- lift (case_owner_records rows) ;;
  query <- case_owner_query ;;
  run_query query (Some records) ;;;
  info ("Loaded " +:+ pretty (length records) +:+ " case owners").

(** The batch loop of [load_nodes]: a failing batch ends the loop with
    its exception. *)
Definition write_node_batches (query : string) (records : list record) : M unit :=
  for_each (batches batch_size records) (fun batch => run_query query (Some batch)).

(** The batch loop of [load_relationships]: a failing batch is logged
    and the loop goes on. *)
Definition write_relationship_batches (relationship_type query : string)
    (records : list record) : M unit :=
  for_each (batches batch_size records) (fun batch =>
    catch (run_query query (Some batch))
      (fun e => error ("Failed to load " +:+ relationship_type +:+ ": " +:+ exn_text e))).

(** [self.config.get('loading_queries', {}).get(key, {})] followed by
    [.items()]. *)
Definition loading (proj : LoadingQueries -> yaml (list (string * entry)))
  : M (list (string * entry)) :=
  match loading_queries (config self) with
  | Absent => ret []
  | Null => raise (no_attribute "get")
  | Present lq =>
      match proj lq with
      | Absent => ret []
      | Null => raise (no_attribute "items")
      | Present d => ret d
      end
  end.

(** The body of the loop of [load_nodes]. *)
Definition load_node_type (item : string * entry) : M unit :=
  let '(node_type, cfg) := item in
  if String.eqb node_type "CaseOwner" then ret tt
  else
    info ("Loading " +:+ node_type +:+ " nodes...") ;;;
    source_file <- subscript "source_file" (entry_source cfg) ;;
    field_mappings <- subscript "field_mappings" (entry_field_mappings cfg) ;;
    query <- subscript "query" (entry_query cfg) ;;
    records <- load_csv_data source_file field_mappings ;;
    write_node_batches query records ;;;
    info ("Loaded " +:+ pretty (length records) +:+ " " +:+ node_type +:+ " nodes").

(** [load_nodes] *)
Definition load_nodes : M unit :=
  info "Loading nodes..." ;;;
  load_case_owners ;;;
  nodes_config <- loading nodes ;;
  for_each nodes_config load_node_type.

Definition reserved_type : string := "CONVERTED_TO_OPPORTUNITY".

Definition skip_notice (relationship_type : string) : string :=
  "Skipping " +:+ relationship_type +:+ " - requires custom mapping logic".

(** The body of the loop of [load_relationships]. *)
Definition load_relationship_type (item : string * entry) : M unit :=
  let '(relationship_type, cfg) := item in
  if String.eqb relationship_type reserved_type
  then info (skip_notice relationship_type)
  else
    info ("Loading " +:+ relationship_type +:+ " relationships...") ;;;
    source_data <- subscript "source_data" (entry_source cfg) ;;
    field_mappings <- subscript "field_mappings" (entry_field_mappings cfg) ;;
    query <- subscript "query" (entry_query cfg) ;;
    records <- (if String.eqb relationship_type "ASSIGNED_TO"
                then rows <- read_csv "cases.csv" ;; lift (assigned_to_records rows)
                else load_csv_data source_data field_mappings) ;;
    write_relationship_batches relationship_type query records ;;;
    info ("Loaded " +:+ pretty (length records) +:+ " " +:+ relationship_type
          +:+ " relationships").

(** [load_relationships] *)
Definition load_relationships : M unit :=
  info "Loading relationships..." ;;;
  relationships_config <- loading relationships ;;
  for_each relationships_config load_relationship_type.

(** [run_ingest] *)
Definition run_ingest : M unit :=
  catch
    (info "Starting Neo4j data ingest..." ;;;
     create_constraints ;;;
     create_indexes ;;;
     load_nodes ;;;
     load_relationships ;;;
     info "Data ingest completed successfully!")
    (fun e => error ("Data ingest failed: " +:+ exn_text e) ;;; raise e).

(** One turn of the loop of [verify_data]. *)
Definition verify_one (item : string * string) : M unit :=
  let '(description, query) := item in
  catch
    (t <- tick ;;
     match db_count env t query with
     | Ok count =>
         emit (Counted t query count) ;;;
         info (description +:+ ": " +:+ pretty count)
     | Raise e => emit (CountFailed t query) ;;; raise e
     end)
    (fun e => error ("Verification query failed for " +:+ description +:+ ": "
                     +:+ exn_text e)).

(** [verify_data] *)
Definition verify_data : M unit :=
  info "Verifying loaded data..." ;;;
  t <- tick ;;
  match verify_session env t with
  | Some e => raise e
  | None =>
      emit (SessionOpened t) ;;;
      for_each verification_queries verify_one ;;;
      emit (SessionClosed t)
  end.

End Pipeline.

(** [main]: the exit code and the final state. [ingest] stays [None]
    when the constructor raises. *)
Definition main (env : Env) (w : world) : Z * world :=
  let '(r, ingest, w1) :=
    match new_ingest env w with
    | (Raise e, w') => (Raise e, None, w')
    | (Ok ingest, w') =>
        let '(r, w'') := (run_ingest env ingest ;;; verify_data env) w' in
        (r, Some ingest, w'')
    end in
  let '(code, w2) :=
    match r with
    | Raise e =>
        (1, World (clock w1)
              (RootLogError ("Ingest process failed: " +:+ exn_text e) :: trace w1))
    | Ok _ => (0, w1)
    end in
  let w3 :=
    match ingest with
    | Some _ => World (clock w2) (DriverClosed :: trace w2)
    | None => w2
    end in
  (code, w3).

Definition start : world := World 0 [].

(** The events of a run in the order they happened. *)
Definition history (w : world) : list event := rev (trace w).

(** ** Sample inputs *)

Module Sample.

Definition account_row (id name revenue : string) : row :=
  {[ "Account_ID" := Some id; "Account_Name" := Some name;
     "Annual_Revenue" := Some revenue ]}.

Definition files (name : string) : option (list row) :=
  if String.eqb name "cases.csv"
  then Some [ cases_row "C1" "John Smith"; cases_row "C2" "john smith " ]
  else if String.eqb name "accounts.csv"
  then Some [ account_row "A1" "Acme" "100.7" ]
  else None.

Definition cfg : Config := {|
  initializing_queries := Present {|
    constraints := Present ["CREATE CONSTRAINT account_id"];
    indexes := Null |};
  loading_queries := Present {|
    nodes := Present
      [ ("Account",
         Entry (Some "accounts.csv")
               (Some [("accountId", "Account_ID"); ("name", "Account_Name");
                      ("annualRevenue", "Annual_Revenue")])
               (Some "MERGE account"));
        ("CaseOwner", Entry None None (Some "MERGE owner")) ];
    relationships := Present
      [ ("CONVERTED_TO_OPPORTUNITY", Entry None None None);
        ("ASSIGNED_TO",
         Entry (Some "cases.csv") (Some []) (Some "MERGE assigned")) ] |}
|}.

(** A healthy installation: every statement and query succeeds. *)
Definition healthy : Env := {|
  NEO4J_URI := Some "bolt://localhost:7687";
  NEO4J_USERNAME := Some "neo4j";
  NEO4J_PASSWORD := Some "secret";
  NEO4J_DATABASE := None;
  config_file := Some cfg;
  data_dir := files;
  driver_ctor := None;
  connectivity := None;
  db_write := fun _ _ _ => RunOk;
  verify_session := fun _ => None;
  db_count := fun _ _ => Ok 1
|}.

Definition with_write (f : nat -> string -> option (list record) -> outcome) : Env := {|
  NEO4J_URI := NEO4J_URI healthy;
  NEO4J_USERNAME := NEO4J_USERNAME healthy;
  NEO4J_PASSWORD := NEO4J_PASSWORD healthy;
  NEO4J_DATABASE := NEO4J_DATABASE healthy;
  config_file := config_file healthy;
  data_dir := data_dir healthy;
  driver_ctor := driver_ctor healthy;
  connectivity := connectivity healthy;
  db_write := f;
  verify_session := verify_session healthy;
  db_count := db_count healthy
|}.

(** The server is down: the driver object is built, the connectivity
    check fails. *)
Definition unreachable : Env := {|
  NEO4J_URI := NEO4J_URI healthy;
  NEO4J_USERNAME := NEO4J_USERNAME healthy;
  NEO4J_PASSWORD := NEO4J_PASSWORD healthy;
  NEO4J_DATABASE := NEO4J_DATABASE healthy;
  config_file := config_file healthy;
  data_dir := data_dir healthy;
  driver_ctor := None;
  connectivity := Some (Exn DriverError "Couldn't connect to localhost:7687");
  db_write := db_write healthy;
  verify_session := verify_session healthy;
  db_count := db_count healthy
|}.

(** The first statement sent to the database is refused. *)
Definition refused : Env :=
  with_write (fun t _ _ =>
    match t with
    | O => RunFails (Exn DriverError "Invalid input 'CONSTRAINTT'")
    | _ => RunOk
    end).

(** The first statement sent fails in the session, every later one
    succeeds. *)
Definition flaky : Env :=
  with_write (fun t _ _ =>
    match t with
    | O => RunFails (Exn DriverError "Connection reset")
    | _ => RunOk
    end).

(** A second run: the constraint is already there, and the server says
    so in its own capitals. *)
Definition rerun : Env :=
  with_write (fun t _ _ =>
    match t with
    | O => RunFails (Exn DriverError
             "An equivalent constraint Already Exists, 'Constraint( id=4 )'")
    | _ => RunOk
    end).

Definition ingest : Neo4jIngest := {| neo4j_database := "neo4j"; config := cfg |}.

(** The same configuration with one index statement. *)
Definition indexed : Neo4jIngest := {|
  neo4j_database := "neo4j";
  config := {|
    initializing_queries := Present {|
      constraints := Absent;
      indexes := Present ["CREATE INDEX account_name"] |};
    loading_queries := loading_queries cfg |}
|}.

(** Only the reserved relationship type is configured, with an empty
    entry. *)
Definition reserved_only : Neo4jIngest := {|
  neo4j_database := "neo4j";
  config := {|
    initializing_queries := Absent;
    loading_queries := Present {|
      nodes := Absent;
      relationships := Present [(reserved_type, Entry None None None)] |} |}
|}.

(** The count of cases cannot be read; every other count is 7. *)
Definition miscounting : Env := {|
  NEO4J_URI := NEO4J_URI healthy;
  NEO4J_USERNAME := NEO4J_USERNAME healthy;
  NEO4J_PASSWORD := NEO4J_PASSWORD healthy;
  NEO4J_DATABASE := NEO4J_DATABASE healthy;
  config_file := config_file healthy;
  data_dir := data_dir healthy;
  driver_ctor := driver_ctor healthy;
  connectivity := connectivity healthy;
  db_write := db_write healthy;
  verify_session := verify_session healthy;
  db_count := fun _ q =>
    if String.eqb q "MATCH (n:Case) RETURN count(n) as count"
    then Raise (Exn DriverError "Unable to retrieve routing information")
    else Ok 7
|}.

Definition link : record := [("sourceId", PStr "A1"); ("targetId", PStr "C1")].

(** Three batches: 1000, 1000 and 500 records. *)
Definition links : list record := replicate 2500 link.

End Sample.

(** ** Observations on records *)

(** The slug rule on its own: lowercase, blanks to underscores, periods
    dropped. *)
Definition slug (name : string) : string :=
  PyStr.replace "." "" (PyStr.replace " " "_" (PyStr.lower name)).

(** Two owner names that differ only in letter case and surrounding
    white space. *)
Definition same_spelling (a b : string) : Prop :=
  PyStr.lower (PyStr.strip a) = PyStr.lower (PyStr.strip b).

Definition field_is (key value : string) (r : record) : bool :=
  match field key r with
  | Some (PStr s) => String.eqb s value
  | _ => false
  end.

(** How many records carry [value] under [key]. *)
Definition count_field (key value : string) (records : list record) : nat :=
  length (List.filter (field_is key value) records).

(** "The two spellings share one slug and the builder emits exactly one
    record for it." *)
Definition one_record_for_slug (rows : list row) (a b : string) : Prop :=
  exists s records,
    generate_case_owner_id (PyStr.strip a) = Some s /\
    generate_case_owner_id (PyStr.strip b) = Some s /\
    case_owner_records rows = Ok records /\
    count_field "ownerId" s records = 1%nat.

(** The record an [ASSIGNED_TO] row contributes. *)
Definition assigned_record (case_id case_owner : string) : record :=
  [ ("sourceId", PStr (PyStr.strip case_id));
    ("targetId", PStr (slug (PyStr.strip case_owner))) ].

(** What one row of [cases.csv] contributes to the [ASSIGNED_TO] records,
    in the words of the specification: a record exactly when the trimmed
    case id and the trimmed owner name are both non-empty. *)
Definition assigned_contribution (r : row) : option record :=
  match row_get r "Case_ID", row_get r "Case_Owner" with
  | Some case_id, Some case_owner =>
      if PyStr.truthy (PyStr.strip case_id) && PyStr.truthy (PyStr.strip case_owner)
      then Some (assigned_record case_id case_owner)
      else None
  | _, _ => None
  end.

(** "A non-empty text that matches none of the date patterns comes back
    unchanged", for a date field that is not a numeric field. *)
Definition unparsed_date_kept (field_name value : string) : Prop :=
  any_keyword date_keywords field_name = true ->
  any_keyword numeric_keywords field_name = false ->
  value <> "" ->
  (forall fmt, fmt ∈ date_formats -> is_ok (PyDate.strptime value fmt) = false) ->
  convert_field_value field_name (Some value) = Ok (PStr value).

(** Spellings of an infinity that [float] accepts: the words in any
    letter case, with a sign or white space around them. *)
Definition infinity_texts : list string :=
  ["inf"; "Infinity"; "-inf"; "+INF"; " inf "; "-Infinity"].

(** What [int] raises on an infinite float. *)
Definition infinity_error : exn :=
  Exn OverflowError "cannot convert float infinity to integer".

(** ** Observations on runs *)

(** The exception of a [run_query] call, if it raised one. *)
Definition failure (o : outcome) : option exn :=
  match o with
  | SessionFails e | RunFails e => Some e
  | RunOk => None
  end.

(** The records written by the statements that succeeded, oldest first. *)
Fixpoint written (tr : list event) : list record :=
  match tr with
  | [] => []
  | Executed _ _ (Some batch) :: tr' => written tr' ++ batch
  | _ :: tr' => written tr'
  end.

(** The batches the database accepts when they are sent one per tick from
    tick [t]. *)
Fixpoint accepted (env : Env) (query : string) (t : nat) (bs : list (list record))
  : list (list record) :=
  match bs with
  | [] => []
  | b :: bs' =>
      match db_write env t query (Some b) with
      | RunOk => b :: accepted env query (S t) bs'
      | _ => accepted env query (S t) bs'
      end
  end.

(** The index list is empty or absent: no [initializing_queries] section,
    or a section whose [indexes] key is missing, null or an empty list. *)
Definition no_indexes (c : Config) : Prop :=
  match initializing_queries c with
  | Absent => True
  | Null => False
  | Present iq =>
      match indexes iq with
      | Absent | Null | Present [] => True
      | Present (_ :: _) => False
      end
  end.

(** The world in which [run_ingest] enters its first phase. *)
Definition ingest_started (w : world) : world :=
  World (clock w) (LogInfo "Starting Neo4j data ingest..." :: trace w).

(** The world [main] ends in when [run_ingest] raised [e] in world [w]
    (which already holds the error logged by [run_ingest]). *)
Definition aborted (e : exn) (w : world) : world :=
  World (clock w)
    (DriverClosed :: RootLogError ("Ingest process failed: " +:+ exn_text e) :: trace w).

(** The notice logged for the reserved relationship type. *)
Definition is_skip_notice (ev : event) : bool :=
  match ev with
  | LogInfo msg => String.eqb msg (skip_notice reserved_type)
  | _ => false
  end.

(** A trace with the skip notices left out. *)
Definition unnoticed (tr : list event) : list event :=
  List.filter (fun ev => negb (is_skip_notice ev)) tr.

(** The records a relationship type reads: for [ASSIGNED_TO] those built
    from [cases.csv], whatever its entry names; for another type those of
    the file its entry names, under the entry's field mappings. *)
Definition type_reads (env : Env) (relationship_type source_data : string)
    (field_mappings : list (string * string)) (records : list record) : Prop :=
  if String.eqb relationship_type "ASSIGNED_TO"
  then exists rows, data_dir env "cases.csv" = Some rows /\
                    assigned_to_records rows = Ok records
  else exists rows, data_dir env source_data = Some rows /\
                    build_records field_mappings rows = Ok records.

(** The events only [verify_data] produces: its opening log line and the
    answers to its queries. *)
Definition verification_event (ev : event) : bool :=
  match ev with
  | LogInfo msg => String.eqb msg "Verifying loaded data..."
  | Counted _ _ _ | CountFailed _ _ => true
  | _ => false
  end.

(** Has the verification phase been entered? *)
Definition verification_started (w : world) : bool :=
  existsb verification_event (trace w).

(** "The verification phase is attempted on every run." *)
Definition always_verifies (env : Env) : Prop :=
  verification_started (snd (main env start)) = true.

(** A computation that does not read the trace: run from a world with
    events [tr], it does what it does from the empty trace, with [tr] kept
    underneath. *)
Definition local {A} (m : M A) : Prop :=
  forall c tr,
    m (World c tr)
    = (fst (m (World c [])),
       World (clock (snd (m (World c [])))) (trace (snd (m (World c []))) ++ tr)).

(** A computation that adds no verification event to the trace. *)
Definition silent {A} (m : M A) : Prop :=
  forall w,
    existsb verification_event (trace w) = false ->
    existsb verification_event (trace (snd (m w))) = false.

(** ** Further observations *)

(** The number a string of decimal digits denotes. *)
Fixpoint decimal_acc (s : string) (acc : Z) : Z :=
  match s with
  | EmptyString => acc
  | String c s' => decimal_acc s' (10 * acc + PyNum.digit_val c)
  end.

Definition decimal_value (s : string) : Z := decimal_acc s 0.

(** A date the script can print with a four-digit year. *)
Definition valid_date (d : PyDate.date) : Prop :=
  1000 <= PyDate.year d <= 9999 /\
  1 <= PyDate.month d <= 12 /\
  1 <= PyDate.day d <= PyDate.days_in_month (PyDate.year d) (PyDate.month d).

(** The date written month first, [MM/DD/YYYY]. *)
Definition us_text (d : PyDate.date) : string :=
  PyDate.two_digits (PyDate.month d) +:+ "/" +:+ PyDate.two_digits (PyDate.day d)
  +:+ "/" +:+ pretty (PyDate.year d).

(** The date written day first, [DD/MM/YYYY]. *)
Definition eu_text (d : PyDate.date) : string :=
  PyDate.two_digits (PyDate.day d) +:+ "/" +:+ PyDate.two_digits (PyDate.month d)
  +:+ "/" +:+ pretty (PyDate.year d).

(** Is [y] printed as four decimal digits that denote it? *)
Definition year_shape (y : Z) : bool :=
  match pretty y with
  | String a (String b (String c (String e EmptyString))) =>
      PyStr.is_ascii_digit a && PyStr.is_ascii_digit b
      && PyStr.is_ascii_digit c && PyStr.is_ascii_digit e
      && (1000 * PyDate.dv a + 100 * PyDate.dv b + 10 * PyDate.dv c + PyDate.dv e =? y)
  | _ => false
  end.

(** A computation that only adds events satisfying [Q] to the trace. *)
Definition adds_only (Q : event -> bool) {A} (m : M A) : Prop :=
  forall w, exists new, trace (snd (m w)) = new ++ trace w /\ forallb Q new = true.

(** Every event but the release of the driver. *)
Definition not_closing (ev : event) : bool :=
  match ev with DriverClosed => false | _ => true end.

(** Every event but a statement sent through [run_query]. *)
Definition not_writing (ev : event) : bool :=
  match ev with Executed _ _ _ | Rejected _ _ _ => false | _ => true end.

(** The last line of a successful [run_ingest]. *)
Definition success_line : string := "Data ingest completed successfully!".

(** Every event but that line. *)
Definition not_success (ev : event) : bool :=
  match ev with LogInfo msg => negb (String.eqb msg success_line) | _ => true end.

(** More installations and inputs. *)
Module Scenario.

Definition with_files (files : string -> option (list row)) : Env := {|
  NEO4J_URI := NEO4J_URI Sample.healthy;
  NEO4J_USERNAME := NEO4J_USERNAME Sample.healthy;
  NEO4J_PASSWORD := NEO4J_PASSWORD Sample.healthy;
  NEO4J_DATABASE := NEO4J_DATABASE Sample.healthy;
  config_file := config_file Sample.healthy;
  data_dir := files;
  driver_ctor := driver_ctor Sample.healthy;
  connectivity := connectivity Sample.healthy;
  db_write := db_write Sample.healthy;
  verify_session := verify_session Sample.healthy;
  db_count := db_count Sample.healthy
|}.

(** The data directory is empty. *)
Definition no_files : Env := with_files (fun _ => None).

(** The database refuses every statement. *)
Definition down : Env :=
  Sample.with_write (fun _ _ _ => RunFails (Exn DriverError "Connection refused")).

(** The password is set to the empty string. *)
Definition no_password : Env := {|
  NEO4J_URI := NEO4J_URI Sample.healthy;
  NEO4J_USERNAME := NEO4J_USERNAME Sample.healthy;
  NEO4J_PASSWORD := Some "";
  NEO4J_DATABASE := NEO4J_DATABASE Sample.healthy;
  config_file := config_file Sample.healthy;
  data_dir := data_dir Sample.healthy;
  driver_ctor := driver_ctor Sample.healthy;
  connectivity := connectivity Sample.healthy;
  db_write := db_write Sample.healthy;
  verify_session := verify_session Sample.healthy;
  db_count := db_count Sample.healthy
|}.

(** There is no [ingest_config.yaml]. *)
Definition no_config : Env := {|
  NEO4J_URI := NEO4J_URI Sample.healthy;
  NEO4J_USERNAME := NEO4J_USERNAME Sample.healthy;
  NEO4J_PASSWORD := NEO4J_PASSWORD Sample.healthy;
  NEO4J_DATABASE := NEO4J_DATABASE Sample.healthy;
  config_file := None;
  data_dir := data_dir Sample.healthy;
  driver_ctor := driver_ctor Sample.healthy;
  connectivity := connectivity Sample.healthy;
  db_write := db_write Sample.healthy;
  verify_session := verify_session Sample.healthy;
  db_count := db_count Sample.healthy
|}.

(** The URI is refused when the driver is built. *)
Definition no_driver : Env := {|
  NEO4J_URI := Some "htp://localhost";
  NEO4J_USERNAME := NEO4J_USERNAME Sample.healthy;
  NEO4J_PASSWORD := NEO4J_PASSWORD Sample.healthy;
  NEO4J_DATABASE := NEO4J_DATABASE Sample.healthy;
  config_file := config_file Sample.healthy;
  data_dir := data_dir Sample.healthy;
  driver_ctor := Some (Exn ValueError "URI scheme 'htp' is not supported");
  connectivity := connectivity Sample.healthy;
  db_write := db_write Sample.healthy;
  verify_session := verify_session Sample.healthy;
  db_count := db_count Sample.healthy
|}.

(** Everything works but the session of the verifier. *)
Definition no_verify_session : Env := {|
  NEO4J_URI := NEO4J_URI Sample.healthy;
  NEO4J_USERNAME := NEO4J_USERNAME Sample.healthy;
  NEO4J_PASSWORD := NEO4J_PASSWORD Sample.healthy;
  NEO4J_DATABASE := NEO4J_DATABASE Sample.healthy;
  config_file := config_file Sample.healthy;
  data_dir := data_dir Sample.healthy;
  driver_ctor := driver_ctor Sample.healthy;
  connectivity := connectivity Sample.healthy;
  db_write := db_write Sample.healthy;
  verify_session := fun _ => Some (Exn DriverError "Driver closed");
  db_count := db_count Sample.healthy
|}.

Definition account_mappings : list (string * string) :=
  [("accountId", "Account_ID"); ("name", "Account_Name");
   ("annualRevenue", "Annual_Revenue")].

Definition owner_rows : list row :=
  [cases_row "C1" "John Smith"; cases_row "C2" "john smith "].

Definition owner_records : list record :=
  [owner_record "john smith"; owner_record "John Smith"].

(** A configuration whose [constraints] key has no value. *)
Definition null_constraints : Neo4jIngest := {|
  neo4j_database := "neo4j";
  config := {|
    initializing_queries := Present {| constraints := Null; indexes := Null |};
    loading_queries := loading_queries Sample.cfg |}
|}.

Definition has_case : entry :=
  Entry (Some "accounts.csv") (Some account_mappings) (Some "MERGE has_case").

End Scenario.

(** * Properties *)

(** ** Strings *)

Lemma truthy_true (s : string) : PyStr.truthy s = true <-> s <> "".
Proof. destruct s; simpl; split; congruence. Qed.

Lemma truthy_false (s : string) : PyStr.truthy s = false <-> s = "".
Proof. destruct s; simpl; split; congruence. Qed.

Lemma lower_empty (s : string) : PyStr.lower s = "" -> s = "".
Proof. destruct s; simpl; congruence. Qed.

Lemma rstrip_idem (s : string) : PyStr.rstrip (PyStr.rstrip s) = PyStr.rstrip s.
Proof.
  induction s as [|c s IH]; simpl; [reflexivity|].
  destruct (PyStr.rstrip s) as [|d r] eqn:E.
  - destruct (PyStr.isspace c) eqn:Hc; simpl; [reflexivity|]. now rewrite Hc.
  - simpl in *. now rewrite IH.
Qed.

(** A string produced by [lstrip] is empty or starts with a non-blank. *)
Lemma lstrip_head (s : string) :
  match PyStr.lstrip s with
  | EmptyString => True
  | String c _ => PyStr.isspace c = false
  end.
Proof.
  induction s as [|c s IH]; simpl; [exact I|].
  destruct (PyStr.isspace c) eqn:Hc; [exact IH | exact Hc].
Qed.

Lemma lstrip_rstrip_head (s : string) :
  match s with EmptyString => True | String c _ => PyStr.isspace c = false end ->
  PyStr.lstrip (PyStr.rstrip s) = PyStr.rstrip s.
Proof.
  destruct s as [|c s]; simpl; [reflexivity|]. intros Hc.
  destruct (PyStr.rstrip s); [rewrite Hc|]; simpl; now rewrite Hc.
Qed.

Lemma strip_idem (s : string) : PyStr.strip (PyStr.strip s) = PyStr.strip s.
Proof.
  unfold PyStr.strip.
  rewrite (lstrip_rstrip_head (PyStr.lstrip s) (lstrip_head s)).
  apply rstrip_idem.
Qed.

(** ** The slug of a case owner *)

Lemma generate_case_owner_id_stripped (name : string) :
  PyStr.strip name <> "" ->
  generate_case_owner_id (PyStr.strip name) = Some (slug (PyStr.strip name)).
Proof.
  intros Hne. unfold generate_case_owner_id.
  rewrite strip_idem.
  apply truthy_true in Hne as Ht. rewrite Ht. simpl.
  destruct (String.eqb_spec (PyStr.strip name) "") as [E|_]; [contradiction|reflexivity].
Qed.

Lemma same_spelling_slug (a b : string) :
  same_spelling a b -> slug (PyStr.strip a) = slug (PyStr.strip b).
Proof. unfold same_spelling, slug. now intros ->. Qed.

Lemma same_spelling_nonempty (a b : string) :
  same_spelling a b -> PyStr.strip a <> "" -> PyStr.strip b <> "".
Proof.
  unfold same_spelling. intros H Ha Hb. rewrite Hb in H. simpl in H.
  apply lower_empty in H. contradiction.
Qed.

(** ** The case-owner builder *)

Lemma collect_case_owners_spec (rows : list row) :
  forall (acc owners : gset string),
    collect_case_owners rows acc = Ok owners ->
    forall x, x ∈ owners <->
      x ∈ acc \/
      exists r v, r ∈ rows /\ row_get r "Case_Owner" = Some v /\
                  PyStr.strip v = x /\ x <> "".
Proof.
  induction rows as [|r rows IH]; intros acc owners H x; simpl in H.
  - injection H as <-. split; [auto|].
    intros [Hx|(r & v & Hr & _)]; [exact Hx|]. inversion Hr.
  - destruct (row_get r "Case_Owner") as [v|] eqn:Hv; simpl in H; [|discriminate].
    rewrite (IH _ _ H x). split.
    + intros [Hx|(r' & v' & Hr' & Hv' & Hs & Hne)].
      * destruct (PyStr.truthy (PyStr.strip v)) eqn:Ht.
        -- apply elem_of_union in Hx as [Hx|Hx]; [now left|].
           apply elem_of_singleton in Hx. subst x. right.
           exists r, v. repeat split; [apply list_elem_of_here|assumption|].
           now apply truthy_true.
        -- now left.
      * right. exists r', v'. repeat split; try assumption.
        now apply list_elem_of_further.
    + intros [Hx|(r' & v' & Hr' & Hv' & Hs & Hne)].
      * left. destruct (PyStr.truthy (PyStr.strip v)); [|assumption].
        apply elem_of_union. now left.
      * apply elem_of_cons in Hr' as [->|Hr'].
        -- left. rewrite Hv in Hv'. injection Hv' as <-. subst x.
           apply truthy_true in Hne. rewrite Hne.
           apply elem_of_union. right. now apply elem_of_singleton.
        -- right. exists r', v'. repeat split; assumption.
Qed.

Lemma field_is_name (x y : string) :
  field_is "name" x (owner_record y) = String.eqb y x.
Proof. reflexivity. Qed.

Lemma count_name_absent (x : string) (l : list string) :
  x ∉ l -> count_field "name" x (owner_record <$> l) = 0%nat.
Proof.
  unfold count_field. induction l as [|y l IH]; intros Hx; [reflexivity|].
  apply not_elem_of_cons in Hx as [Hxy Hx].
  rewrite fmap_cons. cbn [List.filter]. rewrite field_is_name.
  destruct (String.eqb_spec y x) as [E|_]; [congruence|]. now apply IH.
Qed.

Lemma count_name_once (x : string) (l : list string) :
  NoDup l -> x ∈ l -> count_field "name" x (owner_record <$> l) = 1%nat.
Proof.
  unfold count_field. induction 1 as [|y l Hy Hnd IH]; intros Hx; [inversion Hx|].
  rewrite fmap_cons. cbn [List.filter]. rewrite field_is_name.
  destruct (String.eqb_spec y x) as [E|Hne].
  - subst y. cbn [length]. f_equal. now apply (count_name_absent x l).
  - apply elem_of_cons in Hx as [E|Hx]; [congruence|]. now apply IH.
Qed.

Lemma field_is_owner_id (s y : string) :
  generate_case_owner_id y = Some s ->
  field_is "ownerId" s (owner_record y) = true.
Proof.
  intros H. unfold field_is, owner_record. cbn. rewrite H. cbn.
  apply String.eqb_refl.
Qed.

Lemma count_owner_id_two (s x y : string) (l : list string) :
  x ∈ l -> y ∈ l -> x <> y ->
  generate_case_owner_id x = Some s -> generate_case_owner_id y = Some s ->
  (2 <= count_field "ownerId" s (owner_record <$> l))%nat.
Proof.
  unfold count_field. intros Hx Hy Hne Gx Gy.
  assert (Hone : forall z l', z ∈ l' -> generate_case_owner_id z = Some s ->
            (1 <= length (List.filter (field_is "ownerId" s) (owner_record <$> l')))%nat).
  { intros z l'. induction l' as [|u l' IH]; intros Hz Gz; [inversion Hz|].
    rewrite fmap_cons. cbn [List.filter].
    apply elem_of_cons in Hz as [->|Hz].
    - rewrite (field_is_owner_id _ _ Gz). cbn [length]. lia.
    - specialize (IH Hz Gz). destruct (field_is "ownerId" s (owner_record u)); cbn [length]; lia. }
  induction l as [|u l IH]; [inversion Hx|].
  rewrite fmap_cons. cbn [List.filter].
  apply elem_of_cons in Hx as [Ex|Hx]; apply elem_of_cons in Hy as [Ey|Hy].
  - congruence.
  - subst u. rewrite (field_is_owner_id _ _ Gx). cbn [length].
    specialize (Hone y l Hy Gy). lia.
  - subst u. rewrite (field_is_owner_id _ _ Gy). cbn [length].
    specialize (Hone x l Hx Gx). lia.
  - specialize (IH Hx Hy).
    destruct (field_is "ownerId" s (owner_record u)); cbn [length]; lia.
Qed.

(** C1, as the code has it: two owner names of [cases.csv] that differ only
    in letter case and surrounding white space get the identical slug, and
    the builder emits exactly one record per distinct trimmed name, each
    carrying that slug; when the trimmed names differ in letter case the
    slug is therefore carried by at least two records. *)
Theorem owners_share_slug_one_record_per_name
    (rows : list row) (r1 r2 : row) (a b : string) (records : list record) :
  r1 ∈ rows -> row_get r1 "Case_Owner" = Some a ->
  r2 ∈ rows -> row_get r2 "Case_Owner" = Some b ->
  same_spelling a b ->
  PyStr.strip a <> "" ->
  case_owner_records rows = Ok records ->
  generate_case_owner_id (PyStr.strip a) = Some (slug (PyStr.strip a)) /\
  generate_case_owner_id (PyStr.strip b) = Some (slug (PyStr.strip a)) /\
  owner_record (PyStr.strip a) ∈ records /\
  owner_record (PyStr.strip b) ∈ records /\
  count_field "name" (PyStr.strip a) records = 1%nat /\
  count_field "name" (PyStr.strip b) records = 1%nat /\
  (PyStr.strip a <> PyStr.strip b ->
   (2 <= count_field "ownerId" (slug (PyStr.strip a)) records)%nat).
Proof.
  intros Hr1 Ha Hr2 Hb Hsame Hne Hrec.
  pose proof (same_spelling_nonempty a b Hsame Hne) as Hneb.
  pose proof (generate_case_owner_id_stripped a Hne) as Ga.
  pose proof (generate_case_owner_id_stripped b Hneb) as Gb.
  rewrite <- (same_spelling_slug a b Hsame) in Gb.
  unfold case_owner_records in Hrec.
  destruct (collect_case_owners rows ∅) as [owners|e] eqn:Hc; simpl in Hrec; [|discriminate].
  injection Hrec as <-.
  pose proof (collect_case_owners_spec rows ∅ owners Hc) as Hspec.
  assert (Ina : PyStr.strip a ∈ elements owners).
  { apply elem_of_elements, Hspec. right. exists r1, a. auto. }
  assert (Inb : PyStr.strip b ∈ elements owners).
  { apply elem_of_elements, Hspec. right. exists r2, b. auto. }
  pose proof (NoDup_elements owners) as Hnd.
  repeat split; try assumption.
  - now apply list_elem_of_fmap_2.
  - now apply list_elem_of_fmap_2.
  - now apply count_name_once.
  - now apply count_name_once.
  - intros Hab. now apply (count_owner_id_two _ (PyStr.strip a) (PyStr.strip b)).
Qed.

Lemma owners_share_slug_witness :
  generate_case_owner_id (PyStr.strip "John Smith") = Some "john_smith" /\
  generate_case_owner_id (PyStr.strip "john smith ") = Some "john_smith" /\
  (2 <= count_field "ownerId" "john_smith"
          [owner_record "john smith"; owner_record "John Smith"])%nat.
Proof.
  pose (rows := [cases_row "C1" "John Smith"; cases_row "C2" "john smith "]).
  destruct (owners_share_slug_one_record_per_name rows
              (cases_row "C1" "John Smith") (cases_row "C2" "john smith ")
              "John Smith" "john smith "
              [owner_record "john smith"; owner_record "John Smith"])
    as (Ga & Gb & _ & _ & _ & _ & H2).
  - apply list_elem_of_here.
  - reflexivity.
  - apply list_elem_of_further, list_elem_of_here.
  - reflexivity.
  - reflexivity.
  - discriminate.
  - vm_compute. reflexivity.
  - split; [exact Ga | split; [exact Gb | apply H2; discriminate]].
Defined.

(** The claim of C1 fails on the two spellings of the specification's own
    example: the builder emits two records with the slug [john_smith]. *)
Lemma two_spellings_two_records :
  ~ one_record_for_slug
      [cases_row "C1" "John Smith"; cases_row "C2" "john smith "]
      "John Smith" "john smith ".
Proof.
  intros (s & records & Ga & _ & Hrec & Hcount).
  vm_compute in Ga. injection Ga as <-.
  vm_compute in Hrec. injection Hrec as <-.
  vm_compute in Hcount. discriminate.
Qed.

(** ** The [ASSIGNED_TO] resolver *)

Lemma assigned_to_records_omap (rows : list row) (recs : list record) :
  assigned_to_records rows = Ok recs -> recs = omap assigned_contribution rows.
Proof.
  revert recs. induction rows as [|r rows IH]; intros recs H; simpl in H.
  - now injection H as <-.
  - change (omap assigned_contribution (r :: rows))
      with (match assigned_contribution r with
            | Some y => y :: omap assigned_contribution rows
            | None => omap assigned_contribution rows
            end).
    unfold assigned_contribution at 1.
    destruct (row_get r "Case_ID") as [i|]; simpl in H; [|discriminate].
    destruct (row_get r "Case_Owner") as [o|]; simpl in H; [|discriminate].
    destruct (assigned_to_records rows) as [rest|e]; simpl in H; [|discriminate].
    injection H as <-. rewrite <- (IH rest eq_refl).
    destruct (PyStr.truthy (PyStr.strip i)); simpl; [|reflexivity].
    destruct (PyStr.truthy (PyStr.strip o)) eqn:Ho; simpl; [|reflexivity].
    apply truthy_true in Ho.
    now rewrite (generate_case_owner_id_stripped o Ho).
Qed.

(** Rows without a [None] under the two columns are always resolved. *)
Lemma assigned_to_records_total (rows : list row) :
  Forall (fun r => is_Some (row_get r "Case_ID") /\ is_Some (row_get r "Case_Owner")) rows ->
  exists recs, assigned_to_records rows = Ok recs.
Proof.
  induction 1 as [|r rows [[i Hi] [o Ho]] _ [rest IH]]; simpl; [eauto|].
  rewrite Hi, Ho, IH. simpl. eauto.
Qed.

Lemma collect_case_owners_ok (rows : list row) (recs : list record) :
  assigned_to_records rows = Ok recs ->
  forall acc, exists owners, collect_case_owners rows acc = Ok owners.
Proof.
  revert recs. induction rows as [|r rows IH]; intros recs H acc; simpl in *; [eauto|].
  destruct (row_get r "Case_ID") as [i|]; simpl in H; [|discriminate].
  destruct (row_get r "Case_Owner") as [o|]; simpl in H; [|discriminate].
  destruct (assigned_to_records rows) as [rest|e]; simpl in H; [|discriminate].
  simpl. apply (IH rest eq_refl).
Qed.

(** C10: whenever the resolver returns, a row contributes a record exactly
    when its trimmed case id and trimmed owner name are both non-empty, the
    record's [targetId] is the slug of the trimmed owner name, the builder
    returns on the same rows too, and every [targetId] is the [ownerId] of
    one of the builder's records. *)
Theorem assigned_to_targets_are_loaded_owners
    (rows : list row) (recs : list record) :
  assigned_to_records rows = Ok recs ->
  recs = omap assigned_contribution rows /\
  (forall rec, rec ∈ recs <->
     exists r case_id case_owner,
       r ∈ rows /\
       row_get r "Case_ID" = Some case_id /\
       row_get r "Case_Owner" = Some case_owner /\
       PyStr.strip case_id <> "" /\ PyStr.strip case_owner <> "" /\
       rec = assigned_record case_id case_owner) /\
  exists owners,
    case_owner_records rows = Ok owners /\
    forall rec, rec ∈ recs ->
      exists o s, o ∈ owners /\
                  field "targetId" rec = Some (PStr s) /\
                  field "ownerId" o = Some (PStr s).
Proof.
  intros H. pose proof (assigned_to_records_omap rows recs H) as Hrecs.
  assert (Hmem : forall rec, rec ∈ recs <->
     exists r case_id case_owner,
       r ∈ rows /\
       row_get r "Case_ID" = Some case_id /\
       row_get r "Case_Owner" = Some case_owner /\
       PyStr.strip case_id <> "" /\ PyStr.strip case_owner <> "" /\
       rec = assigned_record case_id case_owner).
  { intros rec. rewrite Hrecs, list_elem_of_omap. split.
    - intros (r & Hr & Hc). unfold assigned_contribution in Hc.
      destruct (row_get r "Case_ID") as [i|] eqn:Hi; [|discriminate].
      destruct (row_get r "Case_Owner") as [o|] eqn:Ho; [|discriminate].
      destruct (PyStr.truthy (PyStr.strip i)) eqn:Ti; [|discriminate].
      destruct (PyStr.truthy (PyStr.strip o)) eqn:To; [|discriminate].
      simpl in Hc. injection Hc as <-.
      exists r, i, o. repeat split; try assumption; now apply truthy_true.
    - intros (r & i & o & Hr & Hi & Ho & Ni & No & ->).
      exists r. split; [assumption|]. unfold assigned_contribution.
      rewrite Hi, Ho. apply truthy_true in Ni, No. now rewrite Ni, No. }
  split; [exact Hrecs|]. split; [exact Hmem|].
  destruct (collect_case_owners_ok rows recs H ∅) as [owners Hc].
  exists (owner_record <$> elements owners). split.
  - unfold case_owner_records. now rewrite Hc.
  - intros rec Hrec. apply Hmem in Hrec as (r & i & o & Hr & Hi & Ho & Ni & No & ->).
    exists (owner_record (PyStr.strip o)), (slug (PyStr.strip o)).
    split; [|split].
    + apply list_elem_of_fmap_2, elem_of_elements.
      apply (collect_case_owners_spec rows ∅ owners Hc). right.
      exists r, o. auto.
    + reflexivity.
    + unfold owner_record. cbn. now rewrite (generate_case_owner_id_stripped o No).
Qed.

Lemma assigned_to_targets_witness :
  exists owners,
    case_owner_records
      [cases_row "C1" "John Smith"; cases_row " " "Ann"; cases_row "C3" "  "] = Ok owners /\
    forall rec, rec ∈ [assigned_record "C1" "John Smith"] ->
      exists o s, o ∈ owners /\
                  field "targetId" rec = Some (PStr s) /\
                  field "ownerId" o = Some (PStr s).
Proof.
  apply (assigned_to_targets_are_loaded_owners
           [cases_row "C1" "John Smith"; cases_row " " "Ann"; cases_row "C3" "  "]
           [assigned_record "C1" "John Smith"]).
  vm_compute. reflexivity.
Defined.

(** ** The field value converter *)

Lemma any_keyword_amount (field_name : string) :
  PyStr.contains "amount" (PyStr.lower field_name) = true ->
  any_keyword numeric_keywords field_name = true.
Proof.
  intros H. unfold any_keyword, numeric_keywords. cbn [existsb].
  rewrite H. now rewrite !orb_true_r.
Qed.

Lemma py_int_raises (s : string) (e : exn) :
  PyNum.py_int s = Raise e -> exn_cls e = ValueError.
Proof.
  unfold PyNum.py_int.
  destruct (PyNum.take_sign (PyNum.strip_num s)) as [neg body].
  destruct (PyNum.digitpart body 0 0) as [[[v cnt] [|c rest]]|];
    try (intros [= <-]; reflexivity).
  destruct (PyNum.int_max_str_digits <? cnt); intros [= <-]; reflexivity.
Qed.

Lemma py_float_raises (s : string) (e : exn) :
  PyNum.py_float s = Raise e -> exn_cls e = ValueError.
Proof.
  unfold PyNum.py_float.
  destruct (PyNum.take_sign (PyNum.strip_num s)) as [neg body].
  destruct (_ || _); [discriminate|].
  destruct (String.eqb _ "nan"); [discriminate|].
  destruct (PyNum.number body) as [[[m k] rest]|]; [|intros [= <-]; reflexivity].
  destruct (PyNum.exponent rest) as [[x [|c r]]|];
    intros [= <-]; reflexivity.
Qed.

Lemma strptime_raises (s fmt : string) (e : exn) :
  PyDate.strptime s fmt = Raise e -> exn_cls e = ValueError.
Proof.
  unfold PyDate.strptime.
  destruct (PyDate.has_bad _); [intros [= <-]; reflexivity|].
  destruct (PyDate.regex_match _ _ _) as [[f [|c r]]|];
    try (intros [= <-]; reflexivity).
  destruct (_ =? 0); [intros [= <-]; reflexivity|].
  destruct (_ <? _); [intros [= <-]; reflexivity|discriminate].
Qed.

Lemma is_ok_false {A} (r : result A) :
  is_ok r = false -> exists e, r = Raise e.
Proof. destruct r; [discriminate|eauto]. Qed.

(** On a field whose name contains "amount" in any letter case, "100"
    converts to 100 and "100.7" to 100, and a text that [int] and [float]
    both reject converts to null. *)
Lemma amount_fields_parse_or_null (field_name : string) :
  PyStr.contains "amount" (PyStr.lower field_name) = true ->
  convert_field_value field_name (Some "100") = Ok (PInt 100) /\
  convert_field_value field_name (Some "100.7") = Ok (PInt 100) /\
  forall text,
    PyStr.isdigit text && is_ok (PyNum.py_int text) = false ->
    is_ok (PyNum.py_float text) = false ->
    convert_field_value field_name (Some text) = Ok PNone.
Proof.
  intros H. apply any_keyword_amount in H.
  split; [|split].
  - unfold convert_field_value. rewrite H. vm_compute. reflexivity.
  - unfold convert_field_value. rewrite H. vm_compute. reflexivity.
  - intros text Hint Hfloat. unfold convert_field_value.
    destruct text as [|c text]; [reflexivity|]. rewrite H.
    destruct (PyStr.isdigit (String c text)); simpl in Hint.
    + destruct (is_ok_false _ Hint) as [e He]. rewrite He. simpl.
      now rewrite (py_int_raises _ _ He).
    + destruct (is_ok_false _ Hfloat) as [e He]. rewrite He. simpl.
      now rewrite (py_float_raises _ _ He).
Qed.

Lemma try_date_formats_unparsed (formats : list string) (value : string) :
  (forall fmt, fmt ∈ formats -> is_ok (PyDate.strptime value fmt) = false) ->
  try_date_formats formats value = Ok (PStr value).
Proof.
  induction formats as [|fmt formats IH]; intros H; simpl; [reflexivity|].
  destruct (is_ok_false _ (H fmt (list_elem_of_here _ _))) as [e He].
  rewrite He. simpl. rewrite (strptime_raises _ _ _ He). simpl.
  apply IH. intros f Hf. apply H. now apply list_elem_of_further.
Qed.

(** C6, as the code has it: on a date field that is not a numeric field, a
    text that is non-empty after trimming and that none of the three
    formats parses comes back unchanged; a non-empty text of white space
    only converts to null. *)
Theorem unparsed_date_text (field_name value : string) :
  any_keyword date_keywords field_name = true ->
  any_keyword numeric_keywords field_name = false ->
  (forall fmt, fmt ∈ date_formats -> is_ok (PyDate.strptime value fmt) = false) ->
  (PyStr.strip value <> "" ->
   convert_field_value field_name (Some value) = Ok (PStr value)) /\
  (value <> "" -> PyStr.strip value = "" ->
   convert_field_value field_name (Some value) = Ok PNone).
Proof.
  intros Hd Hn Hfmt. unfold convert_field_value. rewrite Hn, Hd. split.
  - intros Hs. destruct value as [|c value]; [now elim Hs|].
    apply truthy_true in Hs. rewrite Hs. cbn [PyStr.truthy andb].
    now rewrite (try_date_formats_unparsed _ _ Hfmt).
  - intros Hv Hs. destruct value as [|c value]; [now elim Hv|].
    rewrite Hs. reflexivity.
Qed.

Lemma unparsed_date_text_witness :
  convert_field_value "created_date" (Some "next week") = Ok (PStr "next week") /\
  convert_field_value "created_date" (Some "2024-02-30") = Ok (PStr "2024-02-30").
Proof.
  split.
  - apply (unparsed_date_text "created_date" "next week"); try reflexivity.
    + intros fmt Hf. unfold date_formats in Hf.
      repeat (apply elem_of_cons in Hf as [->|Hf]; [vm_compute; reflexivity|]).
      inversion Hf.
    + discriminate.
  - apply (unparsed_date_text "created_date" "2024-02-30"); try reflexivity.
    + intros fmt Hf. unfold date_formats in Hf.
      repeat (apply elem_of_cons in Hf as [->|Hf]; [vm_compute; reflexivity|]).
      inversion Hf.
    + discriminate.
Defined.

(** The claim of C6 fails on a blank: it is a non-empty text, no format
    parses it, and the converter answers null. *)
Lemma blank_date_text_is_dropped : ~ unparsed_date_kept "created_date" " ".
Proof.
  intros H.
  assert (E : convert_field_value "created_date" (Some " ") = Ok (PStr " ")).
  { apply H; try reflexivity; [discriminate|].
    intros fmt Hf. unfold date_formats in Hf.
    repeat (apply elem_of_cons in Hf as [->|Hf]; [vm_compute; reflexivity|]).
    inversion Hf. }
  vm_compute in E. discriminate.
Qed.

(** The converter raises in one situation only: a numeric field whose text
    is not all digits and that [float] reads as an infinity. *)
Lemma convert_field_value_raises (field_name : string) (value : option string) (e : exn) :
  convert_field_value field_name value = Raise e ->
  any_keyword numeric_keywords field_name = true /\
  exists text neg,
    value = Some text /\ PyStr.isdigit text = false /\
    PyNum.py_float text = Ok (PyNum.FInf neg) /\
    e = Exn OverflowError "cannot convert float infinity to integer".
Proof.
  unfold convert_field_value.
  destruct value as [[|c text]|]; try discriminate.
  destruct (any_keyword numeric_keywords field_name).
  - intros H. split; [reflexivity|].
    destruct (PyStr.isdigit (String c text)) eqn:Hd.
    + destruct (PyNum.py_int _) as [n|e'] eqn:E; simpl in H; [discriminate|].
      rewrite (py_int_raises _ _ E) in H. discriminate.
    + destruct (PyNum.py_float _) as [[|neg|neg m x]|e'] eqn:E; simpl in H;
        try discriminate.
      * injection H as <-. exists (String c text), neg.
        repeat split; assumption.
      * rewrite (py_float_raises _ _ E) in H. discriminate.
  - destruct (any_keyword date_keywords field_name); [|discriminate].
    destruct (_ && _); [|discriminate].
    destruct (try_date_formats _ _); discriminate.
Qed.

(** C5 fails in the code on its last clause. On a field whose name holds
    "amount" in any letter case, "100" and "100.7" do convert to 100; but a
    spelling of an infinity, which is neither a digit sequence nor a decimal
    number (it holds no digit and no point), is accepted by [float], and
    [int] then raises [OverflowError], which the handler does not catch.
    This is the only way the conversion of such a field raises: a text that
    [int] and [float] both reject converts to null, and so does "nan". *)
Theorem amount_field_infinity_raises (field_name : string) :
  PyStr.contains "amount" (PyStr.lower field_name) = true ->
  (convert_field_value field_name (Some "100") = Ok (PInt 100) /\
   convert_field_value field_name (Some "100.7") = Ok (PInt 100)) /\
  (forall text,
      text ∈ infinity_texts ->
      PyStr.isdigit text = false /\
      PyNum.number (snd (PyNum.take_sign (PyNum.strip_num text))) = None /\
      convert_field_value field_name (Some text) = Raise infinity_error) /\
  (forall text e,
      convert_field_value field_name (Some text) = Raise e <->
      PyStr.isdigit text = false /\
      (exists neg, PyNum.py_float text = Ok (PyNum.FInf neg)) /\
      e = infinity_error) /\
  (forall text,
      PyStr.isdigit text && is_ok (PyNum.py_int text) = false ->
      is_ok (PyNum.py_float text) = false ->
      convert_field_value field_name (Some text) = Ok PNone) /\
  convert_field_value field_name (Some "nan") = Ok PNone.
Proof.
  intros H.
  destruct (amount_fields_parse_or_null field_name H) as (H1 & H2 & H3).
  apply any_keyword_amount in H.
  split; [split; assumption|]. split; [|split; [|split; [exact H3|]]].
  - intros text Hin. unfold infinity_texts in Hin.
    unfold convert_field_value.
    repeat (apply elem_of_cons in Hin as [->|Hin];
            [rewrite H; vm_compute; repeat split; reflexivity|]).
    inversion Hin.
  - intros text e. split.
    + intros Hr. apply convert_field_value_raises in Hr
        as (_ & text' & neg & [= <-] & Hd & Hf & ->).
      split; [exact Hd|]. split; [now exists neg|reflexivity].
    + intros (Hd & (neg & Hf) & ->). unfold convert_field_value.
      destruct text as [|c text]; [discriminate|].
      rewrite H, Hd, Hf. reflexivity.
  - unfold convert_field_value. rewrite H. vm_compute. reflexivity.
Qed.

Lemma amount_field_infinity_witness :
  convert_field_value "Total_Amount" (Some "100") = Ok (PInt 100) /\
  convert_field_value "Total_Amount" (Some "100.7") = Ok (PInt 100) /\
  convert_field_value "Total_Amount" (Some "inf") = Raise infinity_error /\
  convert_field_value "Total_Amount" (Some "12abc") = Ok PNone /\
  convert_field_value "Total_Amount" (Some "nan") = Ok PNone.
Proof.
  destruct (amount_field_infinity_raises "Total_Amount")
    as ((H1 & H2) & H3 & _ & H4 & H5).
  - vm_compute. reflexivity.
  - split; [exact H1|]. split; [exact H2|]. split; [|split; [|exact H5]].
    + apply (H3 "inf"). apply list_elem_of_here.
    + apply H4; vm_compute; reflexivity.
Defined.

(** C7 fails in the code: on an amount field the text "inf" is read by
    [float] as an infinity, [int] raises [OverflowError], and the handler
    for [ValueError] and [TypeError] lets it through. *)
Theorem convert_amount_inf_raises :
  convert_field_value "amount" (Some "inf")
  = Raise (Exn OverflowError "cannot convert float infinity to integer").
Proof. vm_compute. reflexivity. Qed.

(** ** Batches *)

Lemma range_step_lookup (stop step i n : nat) :
  range_step stop step !! i = Some n -> (n = i * step /\ i * step < stop)%nat.
Proof.
  unfold range_step. rewrite list_lookup_fmap.
  destruct (seq 0 _ !! i) as [j|] eqn:E; [|discriminate].
  apply lookup_seq in E as [-> Hlt]. simpl. intros [= <-].
  split; [reflexivity|].
  destruct step as [|step]; [simpl in Hlt; lia|].
  pose proof (Nat.Div0.mul_div_le (stop + S step - 1) (S step)). nia.
Qed.

(** A batch is never empty. *)
Lemma batches_nonempty {A} (size : nat) (l : list A) (i : nat) (b : list A) :
  (0 < size)%nat -> batches size l !! i = Some b -> (0 < length b)%nat.
Proof.
  intros Hs. unfold batches. rewrite list_lookup_fmap.
  destruct (range_step _ _ !! i) as [n|] eqn:E; [|discriminate].
  apply range_step_lookup in E as [-> Hlt]. simpl. intros [= <-].
  unfold slice. rewrite length_take, length_drop. lia.
Qed.

Lemma concat_slices {A} (size : nat) (l : list A) (k : nat) :
  concat ((fun i => slice i size l) <$> ((fun j => (j * size)%nat) <$> seq 0 k))
  = take (k * size) l.
Proof.
  induction k as [|k IH]; [reflexivity|].
  rewrite seq_S, !fmap_app, concat_app, IH. simpl.
  rewrite app_nil_r. unfold slice.
  replace (S k * size)%nat with (k * size + size)%nat by lia.
  rewrite take_take_drop. f_equal. lia.
Qed.

(** The batches are the record list cut in consecutive pieces. *)
Lemma concat_batches {A} (size : nat) (l : list A) :
  (0 < size)%nat -> concat (batches size l) = l.
Proof.
  intros Hs. unfold batches, range_step. rewrite concat_slices.
  apply take_ge.
  pose proof (Nat.div_mod_eq (length l + size - 1) size).
  pose proof (Nat.mod_upper_bound (length l + size - 1) size). nia.
Qed.

(** ** One statement, one tick *)

Lemma run_query_ok (env : Env) (q : string) (p : option (list record)) (w : world) :
  db_write env (clock w) q p = RunOk ->
  run_query env q p w
  = (Ok tt, World (S (clock w))
              (SessionClosed (clock w) :: Executed (clock w) q p
               :: SessionOpened (clock w) :: trace w)).
Proof. intros H. unfold run_query, bind, tick. simpl. now rewrite H. Qed.

Lemma run_query_run_fails (env : Env) (q : string) (p : option (list record))
    (w : world) (e : exn) :
  db_write env (clock w) q p = RunFails e ->
  run_query env q p w
  = (Raise e, World (S (clock w))
                (SessionClosed (clock w) :: LogError ("Error: " +:+ exn_text e)
                 :: LogError ("Query failed: " +:+ q)
                 :: Rejected (clock w) q p :: SessionOpened (clock w) :: trace w)).
Proof. intros H. unfold run_query, bind, tick. simpl. now rewrite H. Qed.

Lemma run_query_session_fails (env : Env) (q : string) (p : option (list record))
    (w : world) (e : exn) :
  db_write env (clock w) q p = SessionFails e ->
  run_query env q p w = (Raise e, World (S (clock w)) (trace w)).
Proof. intros H. unfold run_query, bind, tick. simpl. now rewrite H. Qed.

(** Whatever happens, a statement takes exactly one tick. *)
Lemma run_query_clock (env : Env) (q : string) (p : option (list record)) (w : world) :
  clock (snd (run_query env q p w)) = S (clock w).
Proof.
  destruct (db_write env (clock w) q p) eqn:E.
  - now rewrite (run_query_session_fails _ _ _ _ _ E).
  - now rewrite (run_query_run_fails _ _ _ _ _ E).
  - now rewrite (run_query_ok _ _ _ _ E).
Qed.

Lemma for_each_app {A} (xs ys : list A) (body : A -> M unit) (w : world) :
  for_each (xs ++ ys) body w
  = match for_each xs body w with
    | (Ok _, w') => for_each ys body w'
    | (Raise e, w') => (Raise e, w')
    end.
Proof.
  revert w. induction xs as [|x xs IH]; intros w; simpl; [reflexivity|].
  unfold bind. destruct (body x w) as [[[]|e] w1]; [apply IH|reflexivity].
Qed.

Lemma written_app (tr1 tr2 : list event) :
  written (tr1 ++ tr2) = written tr2 ++ written tr1.
Proof.
  induction tr1 as [|ev tr1 IH]; simpl; [now rewrite app_nil_r|].
  destruct ev as [| | | | | | | t q [b|] | | |]; try exact IH.
  now rewrite IH, app_assoc.
Qed.

(** ** The two batch loops *)

Lemma accepted_sublist (env : Env) (q : string) (bs : list (list record)) :
  forall t, accepted env q t bs `sublist_of` bs.
Proof.
  induction bs as [|b bs IH]; intros t; simpl; [constructor|].
  destruct (db_write env t q (Some b)); constructor; apply IH.
Qed.

Lemma sublist_concat {A} (l1 l2 : list (list A)) :
  l1 `sublist_of` l2 -> concat l1 `sublist_of` concat l2.
Proof.
  induction 1 as [|x l1 l2 _ IH|x l1 l2 _ IH]; simpl.
  - constructor.
  - now apply sublist_app.
  - now apply sublist_inserts_l.
Qed.

Lemma accepted_misses (env : Env) (q : string) (bs : list (list record)) :
  forall t i b,
    bs !! i = Some b ->
    db_write env (t + i) q (Some b) <> RunOk ->
    (length (concat (accepted env q t bs)) + length b <= length (concat bs))%nat.
Proof.
  induction bs as [|b0 bs IH]; intros t i b Hi Hf; [discriminate|].
  destruct i as [|i]; simpl in Hi.
  - injection Hi as ->. rewrite Nat.add_0_r in Hf. simpl.
    pose proof (sublist_length _ _
                  (sublist_concat _ _ (accepted_sublist env q bs (S t)))) as Hl.
    destruct (db_write env t q (Some b)); [| |congruence];
      rewrite length_app; lia.
  - replace (t + S i)%nat with (S t + i)%nat in Hf by lia.
    specialize (IH (S t) i b Hi Hf). simpl.
    destruct (db_write env t q (Some b0)); simpl; rewrite ?length_app in *; lia.
Qed.

(** One turn of the relationship loop: it never raises, takes one tick,
    and leaves an [Executed] event exactly when the statement succeeded. *)
Lemma relationship_batch_step (env : Env) (rt q : string) (b : list record) (w : world) :
  exists new,
    catch (run_query env q (Some b))
      (fun e => error ("Failed to load " +:+ rt +:+ ": " +:+ exn_text e)) w
    = (Ok tt, World (S (clock w)) (new ++ trace w)) /\
    written new = match db_write env (clock w) q (Some b) with
                  | RunOk => b
                  | _ => []
                  end /\
    forall t q' p,
      Executed t q' p ∈ new <->
      t = clock w /\ q' = q /\ p = Some b /\ db_write env (clock w) q (Some b) = RunOk.
Proof.
  unfold catch. destruct (db_write env (clock w) q (Some b)) eqn:E.
  - rewrite (run_query_session_fails _ _ _ _ _ E).
    eexists [_]. split; [reflexivity|]. split; [reflexivity|].
    intros t q' p. rewrite elem_of_cons, elem_of_nil. split; [|intros (_ & _ & _ & [=])].
    intros [[=]|[]].
  - rewrite (run_query_run_fails _ _ _ _ _ E).
    eexists [_; _; _; _; _; _]. split; [reflexivity|]. split; [reflexivity|].
    intros t q' p. rewrite !elem_of_cons, elem_of_nil.
    split; [|intros (_ & _ & _ & [=])].
    intros [[=]|[[=]|[[=]|[[=]|[[=]|[[=]|[]]]]]]].
  - rewrite (run_query_ok _ _ _ _ E).
    eexists [_; _; _]. split; [reflexivity|]. split; [reflexivity|].
    intros t q' p. rewrite !elem_of_cons, elem_of_nil. split.
    + intros [[=]|[[= -> -> ->]|[[=]|[]]]]. auto.
    + intros (-> & -> & -> & _). auto.
Qed.

Lemma relationship_batches_spec (env : Env) (rt q : string) (bs : list (list record)) :
  forall w, exists new,
    for_each bs (fun batch =>
      catch (run_query env q (Some batch))
        (fun e => error ("Failed to load " +:+ rt +:+ ": " +:+ exn_text e))) w
    = (Ok tt, World (clock w + length bs) (new ++ trace w)) /\
    written new = concat (accepted env q (clock w) bs) /\
    forall t q' p,
      Executed t q' p ∈ new <->
      exists k b, bs !! k = Some b /\ t = (clock w + k)%nat /\ q' = q /\ p = Some b /\
                  db_write env (clock w + k) q (Some b) = RunOk.
Proof.
  induction bs as [|b bs IH]; intros w.
  - exists []. simpl. rewrite Nat.add_0_r. destruct w. split; [reflexivity|].
    split; [reflexivity|]. intros t q' p. rewrite elem_of_nil.
    split; [intros []|intros (k & b & [=] & _)].
  - destruct (relationship_batch_step env rt q b w) as (new1 & H1 & W1 & E1).
    destruct (IH (World (S (clock w)) (new1 ++ trace w))) as (new2 & H2 & W2 & E2).
    exists (new2 ++ new1). cbn [for_each]. unfold bind at 1. rewrite H1, H2.
    cbn [clock trace length]. split; [f_equal; f_equal; [lia|now rewrite app_assoc]|].
    split.
    + rewrite written_app, W1, W2. cbn [accepted clock].
      destruct (db_write env (clock w) q (Some b)); reflexivity.
    + intros t q' p. rewrite elem_of_app, E1, E2. cbn [clock]. split.
      * intros [(k & b' & Hk & -> & -> & -> & Hok)|(-> & -> & -> & Hok)].
        -- exists (S k), b'. replace (clock w + S k)%nat with (S (clock w) + k)%nat by lia.
           auto.
        -- exists O, b. rewrite Nat.add_0_r. auto.
      * intros ([|k] & b' & Hk & -> & -> & -> & Hok).
        -- right. injection Hk as <-. rewrite Nat.add_0_r in *. auto.
        -- left. exists k, b'.
           replace (clock w + S k)%nat with (S (clock w) + k)%nat in * by lia. auto.
Qed.

(** The node loop stops with the exception of the first failing batch. *)
Lemma node_batches_abort (env : Env) (q : string) (bs : list (list record)) :
  forall w i b,
    bs !! i = Some b ->
    db_write env (clock w + i) q (Some b) <> RunOk ->
    exists e w',
      for_each bs (fun batch => run_query env q (Some batch)) w = (Raise e, w') /\
      (clock w' <= clock w + S i)%nat.
Proof.
  induction bs as [|b0 bs IH]; intros w i b Hi Hf; [discriminate|].
  cbn [for_each]. unfold bind at 1.
  destruct (db_write env (clock w) q (Some b0)) eqn:E.
  - rewrite (run_query_session_fails _ _ _ _ _ E). eexists _, _.
    split; [reflexivity|]. simpl. lia.
  - rewrite (run_query_run_fails _ _ _ _ _ E). eexists _, _.
    split; [reflexivity|]. simpl. lia.
  - rewrite (run_query_ok _ _ _ _ E).
    destruct i as [|i]; simpl in Hi.
    + injection Hi as ->. rewrite Nat.add_0_r in Hf. congruence.
    + match goal with |- context [for_each bs _ ?w1] =>
        destruct (IH w1 i b Hi) as (e & w' & H & Hc)
      end.
      * cbn [clock].
        now replace (S (clock w) + i)%nat with (clock w + S i)%nat by lia.
      * exists e, w'. split; [exact H|]. simpl in Hc. lia.
Qed.

(** C4: in the relationship loop a batch whose write fails is skipped
    (every batch is sent once, at its own tick), a later batch whose write
    succeeds is applied, the loop returns normally, and the records written
    are a strictly shorter sub-list of the record list; in the node loop a
    failing batch raises, no later batch is sent, and the node types that
    follow are not loaded. *)
Theorem relationship_batches_tolerant_node_batches_fatal (env : Env) :
  (forall rt q records w i j bi bj,
      batches batch_size records !! i = Some bi ->
      batches batch_size records !! j = Some bj ->
      (i < j)%nat ->
      db_write env (clock w + i) q (Some bi) <> RunOk ->
      db_write env (clock w + j) q (Some bj) = RunOk ->
      exists new,
        write_relationship_batches env rt q records w
        = (Ok tt, World (clock w + length (batches batch_size records))
                    (new ++ trace w)) /\
        Executed (clock w + j) q (Some bj) ∈ new /\
        (forall p, Executed (clock w + i) q p ∉ new) /\
        written new `sublist_of` records /\
        (length (written new) < length records)%nat) /\
  (forall q records w i bi,
      batches batch_size records !! i = Some bi ->
      db_write env (clock w + i) q (Some bi) <> RunOk ->
      (exists e w',
          write_node_batches env q records w = (Raise e, w') /\
          (clock w' <= clock w + S i)%nat) /\
      forall node_type cfg source_file field_mappings rows before after w0,
        node_type <> "CaseOwner" ->
        entry_source cfg = Some source_file ->
        entry_field_mappings cfg = Some field_mappings ->
        entry_query cfg = Some q ->
        data_dir env source_file = Some rows ->
        build_records field_mappings rows = Ok records ->
        for_each before (load_node_type env) w0 = (Ok tt, w) ->
        exists e w',
          for_each (before ++ (node_type, cfg) :: after) (load_node_type env) w0
          = (Raise e, w')).
Proof.
  assert (Hsize : (0 < batch_size)%nat) by (unfold batch_size; lia).
  split.
  - intros rt q records w i j bi bj Hi Hj Hij Hfail Hok.
    unfold write_relationship_batches.
    destruct (relationship_batches_spec env rt q (batches batch_size records) w)
      as (new & Hrun & Hw & Hev).
    exists new. split; [exact Hrun|]. split; [|split; [|split]].
    + apply Hev. exists j, bj. auto.
    + intros p Hp. apply Hev in Hp as (k & b & Hk & Ht & _ & _ & Hrun').
      assert (k = i) by lia. subst k. rewrite Hi in Hk. injection Hk as <-.
      contradiction.
    + rewrite Hw. rewrite <- (concat_batches batch_size records Hsize) at 2.
      apply sublist_concat, accepted_sublist.
    + rewrite Hw.
      pose proof (accepted_misses env q _ (clock w) i bi Hi Hfail) as Hm.
      rewrite (concat_batches batch_size records Hsize) in Hm.
      pose proof (batches_nonempty batch_size records i bi Hsize Hi). lia.
  - intros q records w i bi Hi Hfail.
    destruct (node_batches_abort env q (batches batch_size records) w i bi Hi Hfail)
      as (e & w' & Hrun & Hclock).
    split; [exists e, w'; split; assumption|].
    intros node_type cfg source_file field_mappings rows before after w0
      Hnt Hs Hf Hq Hd Hb Hbefore.
    rewrite for_each_app, Hbefore. cbn [for_each]. unfold bind at 1.
    unfold load_node_type.
    destruct (String.eqb_spec node_type "CaseOwner") as [|_]; [contradiction|].
    rewrite Hs, Hf, Hq. unfold bind, info, emit, subscript, ret. cbn beta iota.
    unfold load_csv_data. rewrite Hd, Hb.
    unfold bind, info, emit, lift, ret. cbn beta iota. cbn [clock trace].
    unfold write_node_batches.
    match goal with |- context [for_each (batches _ _) _ ?w1] =>
      destruct (node_batches_abort env q (batches batch_size records) w1 i bi Hi Hfail)
        as (e1 & w1' & Hrun1 & _)
    end.
    rewrite Hrun1. eauto.
Qed.

Lemma batches_witness :
  (exists new,
      write_relationship_batches Sample.flaky "HAS_CASE" "MERGE has_case"
        Sample.links start
      = (Ok tt, World (0 + length (batches batch_size Sample.links)) (new ++ [])) /\
      Executed 2 "MERGE has_case" (Some (replicate 500 Sample.link)) ∈ new /\
      (forall p, Executed 0 "MERGE has_case" p ∉ new) /\
      written new `sublist_of` Sample.links /\
      (length (written new) < length Sample.links)%nat) /\
  (exists e w',
      write_node_batches Sample.flaky "MERGE account" [Sample.link] start = (Raise e, w') /\
      (clock w' <= 1)%nat).
Proof.
  destruct (relationship_batches_tolerant_node_batches_fatal Sample.flaky) as [Hrel Hnode].
  split.
  - apply (Hrel "HAS_CASE" "MERGE has_case" Sample.links start 0%nat 2%nat
             (replicate 1000 Sample.link) (replicate 500 Sample.link)).
    + vm_compute. reflexivity.
    + vm_compute. reflexivity.
    + lia.
    + vm_compute. discriminate.
    + vm_compute. reflexivity.
  - apply (Hnode "MERGE account" [Sample.link] start 0%nat [Sample.link]).
    + vm_compute. reflexivity.
    + vm_compute. discriminate.
Defined.

(** ** Constraints and indexes *)

Lemma create_one_spec (env : Env) (what What stmt : string) (w : world) :
  exists new,
    create_one env what What stmt w
    = (match failure (db_write env (clock w) stmt None) with
       | None => Ok tt
       | Some e => if already_exists e then Ok tt else Raise e
       end,
       World (S (clock w)) (new ++ trace w)).
Proof.
  unfold create_one, catch, bind at 1.
  destruct (db_write env (clock w) stmt None) as [e|e|] eqn:E; cbn [failure].
  - rewrite (run_query_session_fails _ _ _ _ _ E).
    destruct (already_exists e); unfold bind, info, error, emit, raise; cbn.
    + now eexists [_].
    + now eexists [_].
  - rewrite (run_query_run_fails _ _ _ _ _ E).
    destruct (already_exists e); unfold bind, info, error, emit, raise; cbn.
    + now eexists [_; _; _; _; _; _].
    + now eexists [_; _; _; _; _; _].
  - rewrite (run_query_ok _ _ _ _ E). unfold info, emit; cbn.
    now eexists [_; _; _; _].
Qed.

(** The loop over the statements returns normally exactly when every
    statement that fails at its turn fails with "already exists". *)
Lemma create_loop_iff (env : Env) (what What : string) (l : list string) :
  forall w,
    fst (for_each l (create_one env what What) w) = Ok tt <->
    forall k stmt e,
      l !! k = Some stmt ->
      failure (db_write env (clock w + k) stmt None) = Some e ->
      already_exists e = true.
Proof.
  induction l as [|s l IH]; intros w.
  - simpl. split; [intros _ k stmt e [=]|reflexivity].
  - destruct (create_one_spec env what What s w) as (new & H1).
    cbn [for_each]. unfold bind at 1. rewrite H1.
    destruct (failure (db_write env (clock w) s None)) as [e|] eqn:F.
    + destruct (already_exists e) eqn:A.
      * rewrite IH. cbn [clock]. split.
        -- intros H [|k] stmt e' Hk Hf.
           ++ injection Hk as <-. rewrite Nat.add_0_r in Hf. congruence.
           ++ apply (H k stmt e' Hk).
              now replace (S (clock w) + k)%nat with (clock w + S k)%nat by lia.
        -- intros H k stmt e' Hk Hf. apply (H (S k) stmt e' Hk).
           now replace (clock w + S k)%nat with (S (clock w) + k)%nat by lia.
      * cbn [fst]. split; [discriminate|]. intros H.
        specialize (H O s e eq_refl). rewrite Nat.add_0_r in H.
        specialize (H F). congruence.
    + rewrite IH. cbn [clock]. split.
      * intros H [|k] stmt e' Hk Hf.
        -- injection Hk as <-. rewrite Nat.add_0_r in Hf. congruence.
        -- apply (H k stmt e' Hk).
           now replace (S (clock w) + k)%nat with (clock w + S k)%nat by lia.
      * intros H k stmt e' Hk Hf. apply (H (S k) stmt e' Hk).
        now replace (clock w + S k)%nat with (S (clock w) + k)%nat by lia.
Qed.

Lemma run_ingest_raises_in_constraints (env : Env) (self : Neo4jIngest)
    (w w' : world) (e : exn) :
  create_constraints env self (ingest_started w) = (Raise e, w') ->
  run_ingest env self w
  = (Raise e, World (clock w')
                (LogError ("Data ingest failed: " +:+ exn_text e) :: trace w')).
Proof.
  intros H. unfold run_ingest, catch. unfold bind at 1. unfold info at 1, emit.
  unfold bind at 1. fold (ingest_started w). now rewrite H.
Qed.

Lemma run_ingest_raises_in_indexes (env : Env) (self : Neo4jIngest)
    (w wm w' : world) (e : exn) :
  create_constraints env self (ingest_started w) = (Ok tt, wm) ->
  create_indexes env self wm = (Raise e, w') ->
  run_ingest env self w
  = (Raise e, World (clock w')
                (LogError ("Data ingest failed: " +:+ exn_text e) :: trace w')).
Proof.
  intros H1 H2. unfold run_ingest, catch. unfold bind at 1. unfold info at 1, emit.
  unfold bind at 1. fold (ingest_started w). rewrite H1.
  unfold bind at 1. now rewrite H2.
Qed.

(** Once the object is built, an exception out of [run_ingest] ends the
    run: exit code 1, the error logged, the driver closed, and nothing
    else. *)
Lemma main_aborts (env : Env) (ing : Neo4jIngest) (w w1 w2 : world) (e : exn) :
  new_ingest env w = (Ok ing, w1) ->
  run_ingest env ing w1 = (Raise e, w2) ->
  main env w = (1, aborted e w2).
Proof.
  intros H1 H2. unfold main. rewrite H1. unfold bind. now rewrite H2.
Qed.

Lemma create_constraints_loop (env : Env) (self : Neo4jIngest)
    (iq : InitializingQueries) (l : list string) (w : world) :
  initializing_queries (config self) = Present iq ->
  constraints iq = Present l ->
  create_constraints env self w
  = for_each l (create_one env "constraint" "Constraint")
      (World (clock w) (LogInfo "Creating database constraints..." :: trace w)).
Proof.
  intros H1 H2. unfold create_constraints, initializing, bind, info, emit, ret.
  now rewrite H1, H2.
Qed.

Lemma create_indexes_loop (env : Env) (self : Neo4jIngest)
    (iq : InitializingQueries) (l : list string) (w : world) :
  initializing_queries (config self) = Present iq ->
  indexes iq = Present l ->
  l <> [] ->
  create_indexes env self w
  = for_each l (create_one env "index" "Index")
      (World (clock w) (LogInfo "Creating database indexes..." :: trace w)).
Proof.
  intros H1 H2 H3. unfold create_indexes, initializing, bind, info, emit, ret.
  rewrite H1, H2. cbn [default from_option]. destruct l; [contradiction|reflexivity].
Qed.

Lemma create_indexes_nothing (env : Env) (self : Neo4jIngest) (w : world) :
  no_indexes (config self) ->
  create_indexes env self w
  = (Ok tt, World (clock w)
              (LogInfo "No indexes to create"
               :: LogInfo "Creating database indexes..." :: trace w)).
Proof.
  unfold no_indexes, create_indexes, initializing, bind, info, emit, ret.
  destruct (initializing_queries (config self)) as [| |iq]; [reflexivity|intros []|].
  destruct (indexes iq) as [| |[|s l]]; try reflexivity. intros [].
Qed.

(** The constraint phase cannot return when the section is null. *)
Lemma create_constraints_section (env : Env) (self : Neo4jIngest) (w w' : world) :
  create_constraints env self w = (Ok tt, w') ->
  initializing_queries (config self) <> Null.
Proof.
  unfold create_constraints, initializing, bind, info, emit, raise.
  intros H E. rewrite E in H. discriminate.
Qed.

(** "already exists" is looked for without regard to letter case. *)

Lemma append_nil (s : string) : "" +:+ s = s.
Proof. reflexivity. Qed.

Lemma append_cons (c : ascii) (s t : string) : String c s +:+ t = String c (s +:+ t).
Proof. reflexivity. Qed.

Lemma startswith_spec (p s : string) :
  PyStr.startswith p s = true <-> exists post, s = p +:+ post.
Proof.
  revert s. induction p as [|a p IH]; intros s; simpl.
  - split; [intros _; now exists s|reflexivity].
  - destruct s as [|b s].
    + split; [discriminate|]. intros [post H]. rewrite append_cons in H. discriminate.
    + rewrite andb_true_iff, IH. split.
      * intros [Hab [post ->]]. apply Ascii.eqb_eq in Hab as ->.
        exists post. now rewrite append_cons.
      * intros [post H]. rewrite append_cons in H. injection H as -> ->.
        split; [apply Ascii.eqb_refl|now exists post].
Qed.

Lemma contains_spec (sub s : string) :
  PyStr.contains sub s = true <-> exists pre post, s = pre +:+ sub +:+ post.
Proof.
  induction s as [|c s IH].
  - cbn [PyStr.contains]. rewrite orb_false_r, startswith_spec. split.
    + intros [post ->]. now exists "", post.
    + intros ([|a pre] & post & H); [now exists post|].
      rewrite append_cons in H. discriminate.
  - cbn [PyStr.contains]. rewrite orb_true_iff, startswith_spec, IH. split.
    + intros [[post ->]|(pre & post & ->)].
      * now exists "", post.
      * exists (String c pre), post. now rewrite append_cons.
    + intros ([|a pre] & post & H).
      * left. now exists post.
      * right. rewrite append_cons in H. injection H as -> ->. now exists pre, post.
Qed.

Lemma lower_append (s t : string) :
  PyStr.lower (s +:+ t) = PyStr.lower s +:+ PyStr.lower t.
Proof.
  induction s as [|c s IH]; [reflexivity|].
  rewrite append_cons. simpl. now rewrite IH, append_cons.
Qed.

Lemma lower_append_inv (a b s : string) :
  PyStr.lower s = a +:+ b ->
  exists s1 s2, s = s1 +:+ s2 /\ PyStr.lower s1 = a /\ PyStr.lower s2 = b.
Proof.
  revert s. induction a as [|c a IH]; intros s H.
  - exists "", s. auto.
  - destruct s as [|d s]; [discriminate|].
    rewrite append_cons in H. simpl in H. injection H as Hc H.
    destruct (IH s H) as (s1 & s2 & -> & <- & <-).
    exists (String d s1), s2. rewrite append_cons. simpl. now rewrite Hc.
Qed.

(** The test of the two handlers holds exactly when the error text has a
    piece that reads "already exists" once letter case is ignored. *)
Lemma already_exists_spec (e : exn) :
  already_exists e = true <->
  exists pre mid post,
    exn_text e = pre +:+ mid +:+ post /\ PyStr.lower mid = "already exists".
Proof.
  unfold already_exists. rewrite contains_spec. split.
  - intros (pre & post & H).
    apply lower_append_inv in H as (s1 & s2 & -> & <- & H).
    apply lower_append_inv in H as (s3 & s4 & -> & H & <-).
    now exists s1, s3, s4.
  - intros (pre & mid & post & -> & H).
    exists (PyStr.lower pre), (PyStr.lower post).
    now rewrite !lower_append, H.
Qed.

(** C8: a failing constraint or index statement lets its phase go on
    exactly when the error text contains "already exists" in any letter
    case; a phase returns normally exactly when all its failures are of
    that kind; any other failure ends the run with exit code 1, nothing
    further being executed; an empty or absent index list makes index
    creation log a notice and do nothing else. *)
Theorem already_exists_is_the_only_tolerated_failure (env : Env) :
  (forall what What stmt w e,
      failure (db_write env (clock w) stmt None) = Some e ->
      (fst (create_one env what What stmt w) = Ok tt <->
       exists pre mid post,
         exn_text e = pre +:+ mid +:+ post /\ PyStr.lower mid = "already exists") /\
      (already_exists e = false ->
       fst (create_one env what What stmt w) = Raise e)) /\
  (forall self iq l w,
      initializing_queries (config self) = Present iq ->
      constraints iq = Present l ->
      (fst (create_constraints env self w) = Ok tt <->
       forall k stmt e,
         l !! k = Some stmt ->
         failure (db_write env (clock w + k) stmt None) = Some e ->
         already_exists e = true)) /\
  (forall self iq l w,
      initializing_queries (config self) = Present iq ->
      indexes iq = Present l ->
      (fst (create_indexes env self w) = Ok tt <->
       forall k stmt e,
         l !! k = Some stmt ->
         failure (db_write env (clock w + k) stmt None) = Some e ->
         already_exists e = true)) /\
  (forall ing w w1 w2 e,
      new_ingest env w = (Ok ing, w1) ->
      (create_constraints env ing (ingest_started w1) = (Raise e, w2) \/
       exists wm, create_constraints env ing (ingest_started w1) = (Ok tt, wm) /\
                  create_indexes env ing wm = (Raise e, w2)) ->
      main env w
      = (1, aborted e (World (clock w2)
                         (LogError ("Data ingest failed: " +:+ exn_text e) :: trace w2)))) /\
  (forall self w,
      no_indexes (config self) ->
      create_indexes env self w
      = (Ok tt, World (clock w)
                  (LogInfo "No indexes to create"
                   :: LogInfo "Creating database indexes..." :: trace w))) /\
  (forall self w w',
      create_constraints env self w = (Ok tt, w') ->
      initializing_queries (config self) <> Null).
Proof.
  split; [|split; [|split; [|split; [|split]]]].
  - intros what What stmt w e F.
    destruct (create_one_spec env what What stmt w) as (new & H).
    rewrite H, F. cbn [fst]. rewrite <- already_exists_spec.
    destruct (already_exists e); (split; [split|]); congruence.
  - intros self iq l w H1 H2.
    rewrite (create_constraints_loop env self iq l w H1 H2).
    exact (create_loop_iff env _ _ l (World (clock w) _)).
  - intros self iq l w H1 H2. destruct l as [|s l].
    + rewrite create_indexes_nothing; [|unfold no_indexes; now rewrite H1, H2].
      cbn [fst]. split; [intros _ k stmt e [=]|reflexivity].
    + rewrite (create_indexes_loop env self iq (s :: l) w H1 H2); [|discriminate].
      exact (create_loop_iff env _ _ (s :: l) (World (clock w) _)).
  - intros ing w w1 w2 e Hnew [H|(wm & Hc & Hi)].
    + apply (main_aborts env ing w w1 _ e Hnew).
      now apply run_ingest_raises_in_constraints.
    + apply (main_aborts env ing w w1 _ e Hnew).
      now apply (run_ingest_raises_in_indexes env ing w1 wm).
  - intros self w. apply create_indexes_nothing.
  - intros self w w'. apply create_constraints_section.
Qed.

Lemma already_exists_witness :
  fst (create_one Sample.rerun "constraint" "Constraint"
         "CREATE CONSTRAINT account_id" start) = Ok tt /\
  fst (create_constraints Sample.rerun Sample.ingest start) = Ok tt /\
  fst (create_indexes Sample.rerun Sample.indexed start) = Ok tt /\
  fst (main Sample.refused start) = 1 /\
  fst (create_indexes Sample.healthy Sample.ingest start) = Ok tt /\
  initializing_queries (config Sample.ingest) <> Null.
Proof.
  pose (e := Exn DriverError
               "An equivalent constraint Already Exists, 'Constraint( id=4 )'").
  assert (Hall : forall (l : list string) k stmt e',
             l !! k = Some stmt ->
             failure (db_write Sample.rerun (clock start + k) stmt None) = Some e' ->
             already_exists e' = true).
  { intros l [|k] stmt e' _ F; [|discriminate].
    vm_compute in F. injection F as <-. vm_compute. reflexivity. }
  destruct (already_exists_is_the_only_tolerated_failure Sample.rerun)
    as (H1 & H2 & H3 & _).
  destruct (already_exists_is_the_only_tolerated_failure Sample.refused)
    as (_ & _ & _ & H4 & _).
  destruct (already_exists_is_the_only_tolerated_failure Sample.healthy)
    as (_ & _ & _ & _ & H5 & H6).
  split; [|split; [|split; [|split; [|split]]]].
  - apply (H1 "constraint" "Constraint" "CREATE CONSTRAINT account_id" start e).
    + vm_compute. reflexivity.
    + exists "An equivalent constraint ", "Already Exists", ", 'Constraint( id=4 )'".
      split; vm_compute; reflexivity.
  - eapply (H2 Sample.ingest _ ["CREATE CONSTRAINT account_id"] start).
    + reflexivity.
    + reflexivity.
    + apply Hall.
  - eapply (H3 Sample.indexed _ ["CREATE INDEX account_name"] start).
    + reflexivity.
    + reflexivity.
    + apply Hall.
  - erewrite (H4 Sample.ingest start).
    + reflexivity.
    + vm_compute. reflexivity.
    + left. vm_compute. reflexivity.
  - rewrite (H5 Sample.ingest start); [reflexivity|]. vm_compute. exact I.
  - eapply (H6 Sample.ingest start). vm_compute. reflexivity.
Defined.

(** ** The trace is write-only

    No method reads the trace, so every method is [local]. *)

Lemma local_ret {A} (a : A) : local (ret a).
Proof. intros c tr. reflexivity. Qed.

Lemma local_raise {A} (e : exn) : local (@raise A e).
Proof. intros c tr. reflexivity. Qed.

Lemma local_lift {A} (r : result A) : local (lift r).
Proof. intros c tr. reflexivity. Qed.

Lemma local_emit (ev : event) : local (emit ev).
Proof. intros c tr. reflexivity. Qed.

Lemma local_tick : local tick.
Proof. intros c tr. reflexivity. Qed.

Lemma local_bind {A B} (m : M A) (k : A -> M B) :
  local m -> (forall a, local (k a)) -> local (bind m k).
Proof.
  intros Hm Hk c tr. unfold bind. rewrite (Hm c tr).
  destruct (m (World c [])) as [[a|e] [c1 t1]]; cbn [fst snd clock trace].
  - rewrite (Hk a c1 (t1 ++ tr)), (Hk a c1 t1).
    destruct (k a (World c1 [])) as [r [c2 t2]]; cbn [fst snd clock trace].
    now rewrite app_assoc.
  - reflexivity.
Qed.

Lemma local_catch {A} (m : M A) (h : exn -> M A) :
  local m -> (forall e, local (h e)) -> local (catch m h).
Proof.
  intros Hm Hh c tr. unfold catch. rewrite (Hm c tr).
  destruct (m (World c [])) as [[a|e] [c1 t1]]; cbn [fst snd clock trace].
  - reflexivity.
  - rewrite (Hh e c1 (t1 ++ tr)), (Hh e c1 t1).
    destruct (h e (World c1 [])) as [r [c2 t2]]; cbn [fst snd clock trace].
    now rewrite app_assoc.
Qed.

Lemma local_for_each {A} (xs : list A) (body : A -> M unit) :
  (forall x, local (body x)) -> local (for_each xs body).
Proof.
  intros Hb. induction xs as [|x xs IH]; simpl.
  - apply local_ret.
  - apply local_bind; [apply Hb|intros _; exact IH].
Qed.

Ltac local_step :=
  first
    [ apply local_ret | apply local_raise | apply local_lift | apply local_emit
    | apply local_tick
    | apply local_bind; [|intros ?]
    | apply local_catch; [|intros ?]
    | apply local_for_each; intros ?
    | match goal with
      | |- local (match ?x with _ => _ end) => destruct x
      end ].

Ltac solve_local := repeat local_step.

Lemma local_run_query (env : Env) (q : string) (p : option (list record)) :
  local (run_query env q p).
Proof. unfold run_query, error. solve_local. Qed.

Lemma local_load_csv_data (env : Env) (file_path : string) (fm : list (string * string)) :
  local (load_csv_data env file_path fm).
Proof. unfold load_csv_data, info. solve_local. Qed.

Lemma local_load_relationship_type (env : Env) (item : string * entry) :
  local (load_relationship_type env item).
Proof.
  unfold load_relationship_type, write_relationship_batches, read_csv, subscript,
    info, error.
  destruct item as [relationship_type cfg].
  solve_local; try apply local_run_query; try apply local_load_csv_data.
Qed.

(** ** The reserved relationship type *)

Lemma load_reserved_type (env : Env) (cfg : entry) (w : world) :
  load_relationship_type env (reserved_type, cfg) w
  = (Ok tt, World (clock w) (LogInfo (skip_notice reserved_type) :: trace w)).
Proof. reflexivity. Qed.

Lemma unnoticed_app (tr1 tr2 : list event) :
  unnoticed (tr1 ++ tr2) = unnoticed tr1 ++ unnoticed tr2.
Proof. apply List.filter_app. Qed.

(** A relationship type other than the reserved one, whose entry holds its
    three keys and whose records could be read, sends every batch of these
    records through [run_query], one per tick, and returns normally. *)
Lemma load_relationship_type_writes (env : Env) (rt : string) (cfg : entry)
    (src : string) (fm : list (string * string)) (q : string)
    (records : list record) (w : world) :
  rt <> reserved_type ->
  entry_source cfg = Some src ->
  entry_field_mappings cfg = Some fm ->
  entry_query cfg = Some q ->
  type_reads env rt src fm records ->
  exists new,
    load_relationship_type env (rt, cfg) w
    = (Ok tt, World (clock w + length (batches batch_size records)) (new ++ trace w)) /\
    written new = concat (accepted env q (clock w) (batches batch_size records)) /\
    forall t q' p,
      Executed t q' p ∈ new <->
      exists k b, batches batch_size records !! k = Some b /\ t = (clock w + k)%nat /\
                  q' = q /\ p = Some b /\
                  db_write env (clock w + k) q (Some b) = RunOk.
Proof.
  intros Hr Hs Hf Hq Hrd. unfold load_relationship_type, type_reads in *.
  destruct (String.eqb_spec rt reserved_type) as [|_]; [contradiction|].
  rewrite Hs, Hf, Hq.
  destruct (String.eqb rt "ASSIGNED_TO"); destruct Hrd as (rows & Hd & Hb).
  - unfold bind at 1. unfold info at 1, emit at 1. cbn [clock trace].
    unfold bind at 1, subscript at 1, ret at 1.
    unfold bind at 1, subscript at 1, ret at 1.
    unfold bind at 1, subscript at 1, ret at 1.
    unfold bind at 1. unfold bind at 1. unfold read_csv. rewrite Hd.
    unfold ret at 1, lift at 1. rewrite Hb.
    unfold bind at 1. unfold write_relationship_batches.
    match goal with |- context [for_each _ _ ?w1] =>
      destruct (relationship_batches_spec env rt q (batches batch_size records) w1)
        as (new & Hrun & Hw & He)
    end.
    rewrite Hrun. cbn [clock trace] in *.
    exists (LogInfo ("Loaded " +:+ pretty (length records) +:+ " " +:+ rt
                     +:+ " relationships")
            :: new ++ [LogInfo ("Loading " +:+ rt +:+ " relationships...")]).
    split; [unfold info, emit; cbn [clock trace];
            now rewrite <- app_comm_cons, <- app_assoc|].
    split.
    + cbn [written]. rewrite written_app. exact Hw.
    + intros t q' p. rewrite elem_of_cons, elem_of_app, elem_of_cons, elem_of_nil, He.
      split; [intros [[=]|[H|[[=]|[]]]]; exact H|auto].
  - unfold bind at 1. unfold info at 1, emit at 1. cbn [clock trace].
    unfold bind at 1, subscript at 1, ret at 1.
    unfold bind at 1, subscript at 1, ret at 1.
    unfold bind at 1, subscript at 1, ret at 1.
    unfold bind at 1. unfold load_csv_data. rewrite Hd, Hb.
    unfold bind at 1, lift, info at 1, emit at 1, ret. cbn [clock trace].
    unfold bind at 1. unfold bind at 1. unfold write_relationship_batches.
    match goal with |- context [for_each _ _ ?w1] =>
      destruct (relationship_batches_spec env rt q (batches batch_size records) w1)
        as (new & Hrun & Hw & He)
    end.
    rewrite Hrun. cbn [clock trace] in *.
    exists (LogInfo ("Loaded " +:+ pretty (length records) +:+ " " +:+ rt
                     +:+ " relationships")
            :: new ++ [LogInfo ("Loaded " +:+ pretty (length records)
                                +:+ " records from data/" +:+ src);
                       LogInfo ("Loading " +:+ rt +:+ " relationships...")]).
    split; [unfold info, emit; cbn [clock trace];
            now rewrite <- app_comm_cons, <- app_assoc|].
    split.
    + cbn [written]. rewrite written_app. exact Hw.
    + intros t q' p. rewrite elem_of_cons, elem_of_app, !elem_of_cons, elem_of_nil, He.
      split; [intros [[=]|[H|[[=]|[[=]|[]]]]]; exact H|auto].
Qed.

(** C9: the entry of the reserved type makes its turn of the loop return
    normally with the notice as its only effect (no tick, no statement, the
    entry's keys never read); a configuration holding only that type loads
    without raising; with other types around it the phase ends as it does
    without the entry: same result, same database interactions, same trace
    once the notice is left out; and in a configuration that holds the
    entry every other type the loop reaches is processed: each batch of the
    records it read is sent once, at its own tick, the accepted ones are
    written, and the loop goes on to the types after it. *)
Theorem reserved_relationship_type_is_skipped (env : Env) (cfg : entry) :
  (forall w,
      load_relationship_type env (reserved_type, cfg) w
      = (Ok tt, World (clock w) (LogInfo (skip_notice reserved_type) :: trace w))) /\
  (forall self lq w,
      loading_queries (config self) = Present lq ->
      relationships lq = Present [(reserved_type, cfg)] ->
      load_relationships env self w
      = (Ok tt, World (clock w)
                  (LogInfo (skip_notice reserved_type)
                   :: LogInfo "Loading relationships..." :: trace w))) /\
  (forall before after w,
      let with_entry :=
        for_each (before ++ (reserved_type, cfg) :: after)
          (load_relationship_type env) w in
      let without_entry :=
        for_each (before ++ after) (load_relationship_type env) w in
      fst with_entry = fst without_entry /\
      clock (snd with_entry) = clock (snd without_entry) /\
      unnoticed (trace (snd with_entry)) = unnoticed (trace (snd without_entry)) /\
      (is_ok (fst with_entry) = true ->
       LogInfo (skip_notice reserved_type) ∈ trace (snd with_entry))) /\
  (forall (l1 l2 : list (string * entry)) (rt : string) (cfg' : entry) (src : string)
          (fm : list (string * string)) (q : string) (records : list record)
          (w w1 : world),
      (reserved_type, cfg) ∈ (l1 ++ l2)%list ->
      rt <> reserved_type ->
      entry_source cfg' = Some src ->
      entry_field_mappings cfg' = Some fm ->
      entry_query cfg' = Some q ->
      type_reads env rt src fm records ->
      for_each l1 (load_relationship_type env) w = (Ok tt, w1) ->
      exists new,
        for_each (l1 ++ (rt, cfg') :: l2) (load_relationship_type env) w
        = for_each l2 (load_relationship_type env)
            (World (clock w1 + length (batches batch_size records)) (new ++ trace w1)) /\
        written new = concat (accepted env q (clock w1) (batches batch_size records)) /\
        forall t q' p,
          Executed t q' p ∈ new <->
          exists k b, batches batch_size records !! k = Some b /\
                      t = (clock w1 + k)%nat /\ q' = q /\ p = Some b /\
                      db_write env (clock w1 + k) q (Some b) = RunOk).
Proof.
  split; [|split; [|split]].
  - intros w. apply load_reserved_type.
  - intros self lq w H1 H2.
    unfold load_relationships, loading, bind, info, emit, ret.
    rewrite H1, H2. reflexivity.
  - intros before after w. cbn zeta. rewrite !for_each_app.
    destruct (for_each before (load_relationship_type env) w) as [[[]|e] [c1 t1]].
    + change (for_each ((reserved_type, cfg) :: after) (load_relationship_type env)
                (World c1 t1))
        with (for_each after (load_relationship_type env)
                (World c1 (LogInfo (skip_notice reserved_type) :: t1))).
      pose proof (local_for_each after (load_relationship_type env)
                    (local_load_relationship_type env)) as Hloc.
      rewrite (Hloc c1 (LogInfo (skip_notice reserved_type) :: t1)), (Hloc c1 t1).
      cbn [fst snd clock trace]. split; [reflexivity|]. split; [reflexivity|].
      split.
      * rewrite !unnoticed_app. reflexivity.
      * intros _. apply elem_of_app. right. apply list_elem_of_here.
    + cbn [fst snd]. repeat split; try reflexivity. discriminate.
  - intros l1 l2 rt cfg' src fm q records w w1 _ Hr Hs Hf Hq Hrd H1.
    destruct (load_relationship_type_writes env rt cfg' src fm q records w1
                Hr Hs Hf Hq Hrd) as (new & Hrun & Hw & He).
    exists new. split; [|split; [exact Hw|exact He]].
    rewrite for_each_app, H1. cbn [for_each]. unfold bind at 1.
    now rewrite Hrun.
Qed.

Lemma reserved_type_witness :
  load_relationships Sample.healthy Sample.reserved_only start
  = (Ok tt, World 0 [LogInfo (skip_notice reserved_type);
                     LogInfo "Loading relationships..."]) /\
  LogInfo (skip_notice reserved_type)
  ∈ trace (snd (for_each
                  ([] ++ (reserved_type, Entry None None None)
                      :: [("ASSIGNED_TO",
                           Entry (Some "cases.csv") (Some []) (Some "MERGE assigned"))])
                  (load_relationship_type Sample.healthy) start)) /\
  exists new,
    for_each
      ([(reserved_type, Entry None None None)]
       ++ [("ASSIGNED_TO", Entry (Some "cases.csv") (Some []) (Some "MERGE assigned"))])
      (load_relationship_type Sample.healthy) start
    = (Ok tt, World 1 (new ++ [LogInfo (skip_notice reserved_type)])) /\
    Executed 0 "MERGE assigned"
      (Some [assigned_record "C1" "John Smith"; assigned_record "C2" "john smith "])
    ∈ new.
Proof.
  destruct (reserved_relationship_type_is_skipped Sample.healthy (Entry None None None))
    as (_ & H2 & H3 & H4).
  split; [|split].
  - eapply (H2 Sample.reserved_only); reflexivity.
  - apply (H3 [] [("ASSIGNED_TO",
                   Entry (Some "cases.csv") (Some []) (Some "MERGE assigned"))] start).
    vm_compute. reflexivity.
  - destruct (H4 [(reserved_type, Entry None None None)] []
                "ASSIGNED_TO" (Entry (Some "cases.csv") (Some []) (Some "MERGE assigned"))
                "cases.csv" [] "MERGE assigned"
                [assigned_record "C1" "John Smith"; assigned_record "C2" "john smith "]
                start (World 0 [LogInfo (skip_notice reserved_type)]))
      as (new & Hrun & _ & He).
    + apply list_elem_of_here.
    + discriminate.
    + reflexivity.
    + reflexivity.
    + reflexivity.
    + exists [cases_row "C1" "John Smith"; cases_row "C2" "john smith "].
      split; vm_compute; reflexivity.
    + reflexivity.
    + exists new. split; [exact Hrun|].
      apply He. exists 0%nat, [assigned_record "C1" "John Smith";
                              assigned_record "C2" "john smith "].
      repeat split; reflexivity.
Defined.

(** ** What only the verifier logs *)

Lemma silent_ret {A} (a : A) : silent (ret a).
Proof. intros w H. exact H. Qed.

Lemma silent_raise {A} (e : exn) : silent (@raise A e).
Proof. intros w H. exact H. Qed.

Lemma silent_lift {A} (r : result A) : silent (lift r).
Proof. intros w H. exact H. Qed.

Lemma silent_tick : silent tick.
Proof. intros w H. exact H. Qed.

Lemma silent_emit (ev : event) : verification_event ev = false -> silent (emit ev).
Proof. intros Hev w H. simpl. now rewrite Hev. Qed.

Lemma silent_bind {A B} (m : M A) (k : A -> M B) :
  silent m -> (forall a, silent (k a)) -> silent (bind m k).
Proof.
  intros Hm Hk w H. unfold bind. specialize (Hm w H).
  destruct (m w) as [[a|e] w1]; [apply (Hk a w1 Hm)|exact Hm].
Qed.

Lemma silent_catch {A} (m : M A) (h : exn -> M A) :
  silent m -> (forall e, silent (h e)) -> silent (catch m h).
Proof.
  intros Hm Hh w H. unfold catch. specialize (Hm w H).
  destruct (m w) as [[a|e] w1]; [exact Hm|apply (Hh e w1 Hm)].
Qed.

Lemma silent_for_each {A} (xs : list A) (body : A -> M unit) :
  (forall x, silent (body x)) -> silent (for_each xs body).
Proof.
  intros Hb. induction xs as [|x xs IH]; simpl.
  - apply silent_ret.
  - apply silent_bind; [apply Hb|intros _; exact IH].
Qed.

Ltac silent_step :=
  first
    [ apply silent_ret | apply silent_raise | apply silent_lift | apply silent_tick
    | apply silent_emit; lazy; reflexivity
    | apply silent_bind; [|intros ?]
    | apply silent_catch; [|intros ?]
    | apply silent_for_each; intros ?
    | match goal with
      | |- silent (match ?x with _ => _ end) => destruct x
      end ].

Ltac solve_silent := repeat silent_step.

Lemma silent_run_ingest (env : Env) (self : Neo4jIngest) :
  silent (run_ingest env self).
Proof.
  unfold run_ingest, create_constraints, create_indexes, load_nodes,
    load_relationships, load_case_owners, case_owner_query, initializing, loading,
    load_node_type, load_relationship_type, write_node_batches,
    write_relationship_batches, create_one, read_csv, load_csv_data, run_query,
    subscript_yaml, subscript, info, error.
  solve_silent.
Qed.

Lemma silent_new_ingest (env : Env) : silent (new_ingest env).
Proof.
  unfold new_ingest, load_environment, load_config, connect_to_neo4j, info.
  solve_silent.
Qed.

(** ** The verifier *)

(** One verification query: it never raises, takes one tick, and leaves
    the count or the failure in the trace, each with its log line. *)
Lemma verify_one_spec (env : Env) (description query : string) (w : world) :
  exists new,
    verify_one env (description, query) w
    = (Ok tt, World (S (clock w)) (new ++ trace w)) /\
    match db_count env (clock w) query with
    | Ok n =>
        Counted (clock w) query n ∈ new /\
        LogInfo (description +:+ ": " +:+ pretty n) ∈ new
    | Raise e =>
        CountFailed (clock w) query ∈ new /\
        LogError ("Verification query failed for " +:+ description +:+ ": "
                  +:+ exn_text e) ∈ new
    end.
Proof.
  unfold verify_one, catch, bind, tick. cbn [clock trace].
  destruct (db_count env (clock w) query) as [n|e].
  - eexists [_; _]. split; [reflexivity|].
    split; [apply list_elem_of_further|]; apply list_elem_of_here.
  - eexists [_; _]. split; [reflexivity|].
    split; [apply list_elem_of_further|]; apply list_elem_of_here.
Qed.

Lemma verify_loop_spec (env : Env) (l : list (string * string)) :
  forall w, exists new,
    for_each l (verify_one env) w
    = (Ok tt, World (clock w + length l) (new ++ trace w)) /\
    forall k description query,
      l !! k = Some (description, query) ->
      match db_count env (clock w + k) query with
      | Ok n =>
          Counted (clock w + k) query n ∈ new /\
          LogInfo (description +:+ ": " +:+ pretty n) ∈ new
      | Raise e =>
          CountFailed (clock w + k) query ∈ new /\
          LogError ("Verification query failed for " +:+ description +:+ ": "
                    +:+ exn_text e) ∈ new
      end.
Proof.
  induction l as [|[d q] l IH]; intros w.
  - exists []. simpl. rewrite Nat.add_0_r. destruct w. split; [reflexivity|].
    intros k description query [=].
  - destruct (verify_one_spec env d q w) as (new1 & H1 & E1).
    destruct (IH (World (S (clock w)) (new1 ++ trace w))) as (new2 & H2 & E2).
    exists (new2 ++ new1). cbn [for_each]. unfold bind at 1. rewrite H1, H2.
    cbn [clock trace length]. split; [f_equal; f_equal; [lia|now rewrite app_assoc]|].
    intros [|k] description query Hk.
    + injection Hk as <- <-. rewrite Nat.add_0_r.
      destruct (db_count env (clock w) q); destruct E1 as [Ea Eb];
        split; apply elem_of_app; now right.
    + specialize (E2 k description query Hk). cbn [clock] in E2.
      replace (clock w + S k)%nat with (S (clock w) + k)%nat by lia.
      destruct (db_count env (S (clock w) + k) query); destruct E2 as [Ea Eb];
        split; apply elem_of_app; now left.
Qed.

(** Once its session is acquired the verifier returns normally, having
    sent each of its queries at its own tick. *)
Lemma verify_data_spec (env : Env) (w : world) :
  verify_session env (clock w) = None ->
  exists new,
    verify_data env w
    = (Ok tt, World (clock w + S (length verification_queries)) (new ++ trace w)) /\
    forall k description query,
      verification_queries !! k = Some (description, query) ->
      match db_count env (clock w + 1 + k) query with
      | Ok n =>
          Counted (clock w + 1 + k) query n ∈ new /\
          LogInfo (description +:+ ": " +:+ pretty n) ∈ new
      | Raise e =>
          CountFailed (clock w + 1 + k) query ∈ new /\
          LogError ("Verification query failed for " +:+ description +:+ ": "
                    +:+ exn_text e) ∈ new
      end.
Proof.
  intros Hs. unfold verify_data.
  unfold bind at 1. unfold info at 1, emit at 1. unfold bind at 1, tick.
  cbn [clock trace]. rewrite Hs. unfold bind at 1. unfold emit at 1.
  cbn [clock trace]. unfold bind at 1.
  match goal with |- context [for_each _ _ ?w1] =>
    destruct (verify_loop_spec env verification_queries w1) as (new & Hrun & Hev)
  end.
  rewrite Hrun. cbn [clock trace] in *. unfold emit.
  exists (SessionClosed (clock w) :: new
          ++ [SessionOpened (clock w); LogInfo "Verifying loaded data..."]).
  split.
  - cbn [clock trace]. f_equal. f_equal; [lia|].
    rewrite <- !app_comm_cons, <- app_assoc. reflexivity.
  - intros k description query Hk. specialize (Hev k description query Hk).
    replace (clock w + 1 + k)%nat with (S (clock w) + k)%nat by lia.
    destruct (db_count env (S (clock w) + k) query); destruct Hev as [Ea Eb];
      split; apply list_elem_of_further, elem_of_app; now left.
Qed.

(** Entering the verifier always shows in the trace. *)
Lemma verify_data_started (env : Env) (w : world) :
  verification_started (snd (verify_data env w)) = true.
Proof.
  assert (Hrest : local (t <- tick ;;
                         match verify_session env t with
                         | Some e => raise e
                         | None =>
                             emit (SessionOpened t) ;;;
                             for_each verification_queries (verify_one env) ;;;
                             emit (SessionClosed t)
                         end)).
  { unfold verify_one, info, error. solve_local. }
  unfold verify_data, verification_started. unfold bind at 1. unfold info, emit at 1.
  rewrite (Hrest (clock w) (LogInfo "Verifying loaded data..." :: trace w)).
  cbn [snd trace]. rewrite existsb_app. simpl. apply orb_true_r.
Qed.

(** C2, as the code has it: verification is entered exactly when the
    object was built and every ingest phase returned normally; once its
    session is acquired it returns normally, having sent every one of its
    queries at its own tick whatever became of the others, each failure
    being logged. *)
Theorem verification_follows_a_successful_ingest (env : Env) :
  (verification_started (snd (main env start)) = true <->
   exists ing w1 w2,
     new_ingest env start = (Ok ing, w1) /\ run_ingest env ing w1 = (Ok tt, w2)) /\
  (forall w,
      verify_session env (clock w) = None ->
      exists new,
        verify_data env w
        = (Ok tt, World (clock w + S (length verification_queries)) (new ++ trace w)) /\
        forall k description query,
          verification_queries !! k = Some (description, query) ->
          match db_count env (clock w + 1 + k) query with
          | Ok n =>
              Counted (clock w + 1 + k) query n ∈ new /\
              LogInfo (description +:+ ": " +:+ pretty n) ∈ new
          | Raise e =>
              CountFailed (clock w + 1 + k) query ∈ new /\
              LogError ("Verification query failed for " +:+ description +:+ ": "
                        +:+ exn_text e) ∈ new
          end).
Proof.
  split; [|apply verify_data_spec].
  unfold main.
  pose proof (silent_new_ingest env start eq_refl) as Hnew.
  destruct (new_ingest env start) as [[ing|e] w1] eqn:En; cbn [snd] in Hnew.
  - pose proof (silent_run_ingest env ing w1 Hnew) as Hrun.
    unfold bind. destruct (run_ingest env ing w1) as [[[]|e] w2] eqn:Er; cbn [snd] in Hrun.
    + pose proof (verify_data_started env w2) as Hv.
      destruct (verify_data env w2) as [[[]|e] w3]; cbn [snd] in Hv |- *;
        unfold verification_started in *; cbn [trace existsb verification_event];
        rewrite Hv; (split; [intros _; now exists ing, w1, w2|reflexivity]).
    + unfold verification_started. cbn [snd trace existsb verification_event].
      rewrite Hrun. split; [discriminate|].
      intros (ing' & w1' & w2' & [= <- <-] & H). rewrite Er in H. discriminate.
  - unfold verification_started. cbn [snd trace existsb verification_event].
    rewrite Hnew. split; [discriminate|].
    intros (ing' & w1' & w2' & [=] & _).
Qed.

Lemma verification_witness :
  verification_started (snd (main Sample.miscounting start)) = true /\
  exists new,
    verify_data Sample.miscounting start
    = (Ok tt, World (0 + S (length verification_queries)) (new ++ [])) /\
    CountFailed 3 "MATCH (n:Case) RETURN count(n) as count" ∈ new /\
    Counted 4 "MATCH (n:Opportunity) RETURN count(n) as count" 7 ∈ new.
Proof.
  destruct (verification_follows_a_successful_ingest Sample.miscounting) as [H1 H2].
  split.
  - apply H1.
    destruct (new_ingest Sample.miscounting start) as [[ing|e] w1] eqn:En;
      [|vm_compute in En; discriminate].
    destruct (run_ingest Sample.miscounting ing w1) as [[[]|e] w2] eqn:Er.
    + now exists ing, w1, w2.
    + vm_compute in En. injection En as <- <-. vm_compute in Er. discriminate.
  - destruct (H2 start eq_refl) as (new & Hrun & Hev).
    exists new. split; [exact Hrun|].
    pose proof (Hev 2%nat _ _ eq_refl) as H3.
    pose proof (Hev 3%nat _ _ eq_refl) as H4.
    cbn in H3, H4.
    split; [apply H3|apply H4].
Defined.

(** The claim of C2 fails when a constraint statement is refused: the run
    ends with exit code 1 and the verifier is never entered. *)
Lemma refused_constraint_skips_verification : ~ always_verifies Sample.refused.
Proof. unfold always_verifies. vm_compute. discriminate. Qed.

(** ** The connection *)

(** Once the object is built, the driver is closed last, whatever the
    phases did. *)
Lemma main_closes_a_built_ingest (env : Env) (w w1 : world) (ing : Neo4jIngest) :
  new_ingest env w = (Ok ing, w1) ->
  exists tr, trace (snd (main env w)) = DriverClosed :: tr.
Proof.
  intros H. unfold main. rewrite H.
  destruct ((run_ingest env ing ;;; verify_data env) w1) as [[[]|e] w2];
    cbn [snd trace]; eauto.
Qed.

(** C3 fails in the code: when the driver object is built and the
    connectivity check fails, the constructor raises, [main] holds no
    object to close, and the run ends with the driver created and never
    closed. *)
Theorem unreachable_server_leaves_the_driver_open :
  let '(code, w) := main Sample.unreachable start in
  code = 1 /\ DriverCreated ∈ trace w /\ DriverClosed ∉ trace w.
Proof.
  vm_compute. split; [reflexivity|]. split.
  - apply list_elem_of_further, list_elem_of_here.
  - intros H. repeat (apply elem_of_cons in H as [H|H]; [discriminate|]).
    inversion H.
Qed.

(** * Further properties of the script *)

(** ** The converter, field by field *)

Lemma try_date_formats_string (formats : list string) (value : string) :
  exists s, try_date_formats formats value = Ok (PStr s).
Proof.
  induction formats as [|fmt formats [s IH]]; simpl; [eauto|].
  destruct (PyDate.strptime value fmt) as [d|e] eqn:E; simpl; [eauto|].
  rewrite (strptime_raises _ _ _ E). simpl. eauto.
Qed.

(** X1: the kind of value the converter returns is fixed by the field
    name alone. A numeric field yields an integer or null (or the overflow
    of an infinite number), never a string, even when its name holds a date
    keyword too; a date field that is not numeric yields a string or null
    and never raises; any other field returns a non-empty text as it is. *)
Theorem convert_field_value_kinds (field_name : string) (value : option string) :
  (any_keyword numeric_keywords field_name = true ->
   (exists n, convert_field_value field_name value = Ok (PInt n)) \/
   convert_field_value field_name value = Ok PNone \/
   convert_field_value field_name value
   = Raise (Exn OverflowError "cannot convert float infinity to integer")) /\
  (any_keyword numeric_keywords field_name = false ->
   any_keyword date_keywords field_name = true ->
   convert_field_value field_name value = Ok PNone \/
   exists s, convert_field_value field_name value = Ok (PStr s)) /\
  (any_keyword numeric_keywords field_name = false ->
   any_keyword date_keywords field_name = false ->
   forall s, value = Some s -> s <> "" ->
   convert_field_value field_name value = Ok (PStr s)).
Proof.
  split; [|split].
  - intros Hn. destruct (convert_field_value field_name value) as [v|e] eqn:E.
    + unfold convert_field_value in E.
      destruct value as [[|c s]|]; try (injection E as <-; auto).
      rewrite Hn in E.
      destruct (if PyStr.isdigit (String c s) then _ else _) as [n|e']; simpl in E.
      * injection E as <-. eauto.
      * destruct (value_or_type_error (exn_cls e')); [|discriminate].
        injection E as <-. auto.
    + apply convert_field_value_raises in E as (_ & text & neg & _ & _ & _ & ->). auto.
  - intros Hn Hd. unfold convert_field_value.
    destruct value as [[|c s]|]; auto. rewrite Hn, Hd.
    destruct (_ && _); auto.
    destruct (try_date_formats_string date_formats (String c s)) as [s' ->].
    simpl. eauto.
  - intros Hn Hd s -> Hs. unfold convert_field_value.
    destruct s as [|c s]; [contradiction|]. now rewrite Hn, Hd.
Qed.

Lemma convert_field_value_kinds_witness :
  ((exists n, convert_field_value "closed_amount" (Some "2024-01-01") = Ok (PInt n)) \/
   convert_field_value "closed_amount" (Some "2024-01-01") = Ok PNone \/
   convert_field_value "closed_amount" (Some "2024-01-01")
   = Raise (Exn OverflowError "cannot convert float infinity to integer")) /\
  (convert_field_value "Created_Date" (Some "soon") = Ok PNone \/
   exists s, convert_field_value "Created_Date" (Some "soon") = Ok (PStr s)) /\
  convert_field_value "Status" (Some "Open") = Ok (PStr "Open").
Proof.
  split; [|split].
  - apply (convert_field_value_kinds "closed_amount" (Some "2024-01-01")). reflexivity.
  - apply (convert_field_value_kinds "Created_Date" (Some "soon")); reflexivity.
  - apply (convert_field_value_kinds "Status" (Some "Open")); try reflexivity.
    discriminate.
Defined.

Lemma lower_char_idem (c : ascii) :
  PyStr.lower_char (PyStr.lower_char c) = PyStr.lower_char c.
Proof. destruct c as [[] [] [] [] [] [] [] []]; reflexivity. Qed.

Lemma lower_idem (s : string) : PyStr.lower (PyStr.lower s) = PyStr.lower s.
Proof.
  induction s as [|c s IH]; simpl; [reflexivity|].
  now rewrite lower_char_idem, IH.
Qed.

(** X2: the letter case of a field name plays no part in the conversion. *)
Theorem convert_field_value_ignores_case (field_name : string) (value : option string) :
  convert_field_value (PyStr.lower field_name) value
  = convert_field_value field_name value.
Proof.
  unfold convert_field_value, any_keyword. now rewrite lower_idem.
Qed.

Lemma ascii_digit_facts (c : ascii) :
  PyStr.is_ascii_digit c = true ->
  PyStr.isdigit_char c = true /\ PyNum.isspace_num c = false /\
  c <> "+"%char /\ c <> "-"%char.
Proof.
  destruct c as [[] [] [] [] [] [] [] []]; try discriminate;
    intros _; repeat split; discriminate.
Qed.

Lemma digits_isdigit (s : string) :
  PyStr.all_chars PyStr.is_ascii_digit s = true ->
  PyStr.all_chars PyStr.isdigit_char s = true.
Proof.
  induction s as [|c s IH]; simpl; [reflexivity|].
  intros [Hc Hs]%andb_true_iff.
  now rewrite (proj1 (ascii_digit_facts c Hc)), IH.
Qed.

Lemma digits_rstrip_num (s : string) :
  PyStr.all_chars PyStr.is_ascii_digit s = true -> PyNum.rstrip_num s = s.
Proof.
  induction s as [|c s IH]; simpl; [reflexivity|].
  intros [Hc Hs]%andb_true_iff. rewrite (IH Hs).
  destruct (ascii_digit_facts c Hc) as (_ & -> & _). now destruct s.
Qed.

Lemma digitpart_tail_digits (s : string) :
  forall acc cnt,
    PyStr.all_chars PyStr.is_ascii_digit s = true ->
    PyNum.digitpart_tail s acc cnt
    = (decimal_acc s acc, cnt + Z.of_nat (String.length s), "").
Proof.
  induction s as [|c s IH]; intros acc cnt H; simpl.
  - now rewrite Z.add_0_r.
  - apply andb_true_iff in H as [Hc Hs]. rewrite Hc, (IH _ _ Hs).
    f_equal. f_equal. lia.
Qed.

Lemma py_int_digits (s : string) :
  s <> "" ->
  PyStr.all_chars PyStr.is_ascii_digit s = true ->
  PyNum.py_int s
  = if PyNum.int_max_str_digits <? Z.of_nat (String.length s)
    then Raise (Exn ValueError
                  "Exceeds the limit (4300 digits) for integer string conversion")
    else Ok (decimal_value s).
Proof.
  intros Hne Hd. unfold PyNum.py_int, PyNum.strip_num.
  destruct s as [|c s]; [contradiction|].
  pose proof Hd as Hd'. simpl in Hd'. apply andb_true_iff in Hd' as [Hc Hs].
  destruct (ascii_digit_facts c Hc) as (_ & Hsp & Hplus & Hminus).
  cbn [PyNum.lstrip_num]. rewrite Hsp, (digits_rstrip_num _ Hd).
  assert (Hsign : PyNum.take_sign (String c s) = (false, String c s)).
  { destruct c as [[] [] [] [] [] [] [] []]; try reflexivity; congruence. }
  rewrite Hsign. unfold PyNum.digitpart. rewrite Hc.
  rewrite (digitpart_tail_digits s _ _ Hs). unfold decimal_value.
  cbn [decimal_acc String.length].
  replace (0 + 1 + Z.of_nat (String.length s)) with (Z.of_nat (S (String.length s)))
    by lia.
  reflexivity.
Qed.

(** X3: on a numeric field a text of decimal digits (at most 4300 of them)
    converts to exactly the number it denotes: it is read by [int], not
    through a float, so no precision is lost however large it is. *)
Theorem digit_text_converts_exactly (field_name text : string) :
  any_keyword numeric_keywords field_name = true ->
  text <> "" ->
  PyStr.all_chars PyStr.is_ascii_digit text = true ->
  (String.length text <= 4300)%nat ->
  convert_field_value field_name (Some text) = Ok (PInt (decimal_value text)).
Proof.
  intros Hn Hne Hd Hlen. unfold convert_field_value.
  destruct text as [|c s] eqn:Et; [contradiction|]. rewrite <- Et in *.
  rewrite Hn.
  assert (Hdig : PyStr.isdigit text = true).
  { unfold PyStr.isdigit. rewrite (digits_isdigit _ Hd). now rewrite Et. }
  rewrite Hdig, (py_int_digits text Hne Hd).
  destruct (PyNum.int_max_str_digits <? Z.of_nat (String.length text)) eqn:L.
  - apply Z.ltb_lt in L. unfold PyNum.int_max_str_digits in L. lia.
  - reflexivity.
Qed.

Lemma digit_text_witness :
  convert_field_value "Annual_Revenue" (Some "9007199254740993")
  = Ok (PInt 9007199254740993) /\
  convert_field_value "Annual_Revenue" (Some "9007199254740993.0")
  = Ok (PInt 9007199254740992).
Proof.
  split.
  - apply (digit_text_converts_exactly "Annual_Revenue" "9007199254740993").
    + reflexivity.
    + discriminate.
    + reflexivity.
    + simpl. lia.
  - vm_compute. reflexivity.
Defined.

(** ** Dates in and out *)

Lemma in_Z_range (lo n : nat) (z : Z) :
  Z.of_nat lo <= z < Z.of_nat (lo + n) -> In z (map Z.of_nat (seq lo n)).
Proof.
  intros H. apply in_map_iff. exists (Z.to_nat z). split; [lia|].
  apply in_seq. lia.
Qed.

(** Replaces [two_digits n], for a literal [n], by the two characters. *)
Ltac eval_two_digits :=
  repeat match goal with
  | |- context [PyDate.two_digits ?n] =>
      let v := eval vm_compute in (PyDate.two_digits n) in
      change (PyDate.two_digits n) with v
  end;
  rewrite ?append_cons, ?append_nil.

Lemma month_parse (m : Z) (items : list PyDate.item) (rest : string)
    (f : PyDate.fields) (r : PyDate.fields * string) :
  1 <= m <= 12 ->
  PyDate.regex_match items rest (PyDate.Fields (PyDate.f_year f) m (PyDate.f_day f)) = Some r ->
  PyDate.regex_match (PyDate.Dirm :: items) (PyDate.two_digits m +:+ rest) f = Some r.
Proof.
  intros Hm H. assert (Hin : In m (map Z.of_nat (seq 1 12))) by (apply in_Z_range; lia).
  vm_compute in Hin. clear Hm.
  repeat (destruct Hin as [<-|Hin];
          [eval_two_digits; cbn [PyDate.regex_match];
           cbv -[PyDate.regex_match] in *; rewrite H; reflexivity|]).
  destruct Hin.
Qed.

Lemma day_parse (d : Z) (items : list PyDate.item) (rest : string)
    (f : PyDate.fields) (r : PyDate.fields * string) :
  1 <= d <= 31 ->
  PyDate.regex_match items rest (PyDate.Fields (PyDate.f_year f) (PyDate.f_month f) d) = Some r ->
  PyDate.regex_match (PyDate.Dird :: items) (PyDate.two_digits d +:+ rest) f = Some r.
Proof.
  intros Hm H. assert (Hin : In d (map Z.of_nat (seq 1 31))) by (apply in_Z_range; lia).
  vm_compute in Hin. clear Hm.
  repeat (destruct Hin as [<-|Hin];
          [eval_two_digits; cbn [PyDate.regex_match];
           cbv -[PyDate.regex_match] in *; rewrite H; reflexivity|]).
  destruct Hin.
Qed.

Lemma year_shape_all :
  forallb year_shape (map Z.of_nat (seq (Z.to_nat 1000) (Z.to_nat 9000))) = true.
Proof. vm_compute. reflexivity. Qed.

Lemma year_digits (y : Z) :
  1000 <= y <= 9999 ->
  exists a b c e,
    pretty y = String a (String b (String c (String e ""))) /\
    PyStr.is_ascii_digit a = true /\ PyStr.is_ascii_digit b = true /\
    PyStr.is_ascii_digit c = true /\ PyStr.is_ascii_digit e = true /\
    1000 * PyDate.dv a + 100 * PyDate.dv b + 10 * PyDate.dv c + PyDate.dv e = y.
Proof.
  intros Hy.
  pose proof (proj1 (forallb_forall _ _) year_shape_all y
                (in_Z_range (Z.to_nat 1000) (Z.to_nat 9000) y ltac:(lia))) as H.
  unfold year_shape in H.
  destruct (pretty y) as [|a [|b [|c [|e [|x s]]]]]; try discriminate.
  apply andb_true_iff in H as [H He]. apply andb_true_iff in H as [H Hd].
  apply andb_true_iff in H as [H Hc]. apply andb_true_iff in H as [Ha Hb].
  apply Z.eqb_eq in He. exists a, b, c, e. auto 10.
Qed.

Lemma year_parse (y : Z) (items : list PyDate.item) (rest : string) (f : PyDate.fields) :
  1000 <= y <= 9999 ->
  PyDate.regex_match (PyDate.DirY :: items) (pretty y +:+ rest) f
  = PyDate.regex_match items rest (PyDate.Fields y (PyDate.f_month f) (PyDate.f_day f)).
Proof.
  intros Hy. destruct (year_digits y Hy) as (a & b & c & e & -> & Ha & Hb & Hc & He & <-).
  rewrite !append_cons, append_nil. cbn [PyDate.regex_match].
  now rewrite Ha, Hb, Hc, He.
Qed.

Lemma lit_parse (c : ascii) (items : list PyDate.item) (rest : string) (f : PyDate.fields) :
  PyDate.regex_match (PyDate.Lit c :: items) (String c rest) f
  = PyDate.regex_match items rest f.
Proof. cbn [PyDate.regex_match]. now rewrite Ascii.eqb_refl. Qed.

(** Two digits and a slash do not start a four-digit year. *)
Lemma year_rejects_slash (n : Z) (items : list PyDate.item) (rest : string)
    (f : PyDate.fields) :
  1 <= n <= 31 ->
  PyDate.regex_match (PyDate.DirY :: items)
    (PyDate.two_digits n +:+ String "/" rest) f = None.
Proof.
  intros Hn. assert (Hin : In n (map Z.of_nat (seq 1 31))) by (apply in_Z_range; lia).
  vm_compute in Hin. clear Hn.
  repeat (destruct Hin as [<-|Hin];
          [eval_two_digits; cbn [PyDate.regex_match]; destruct rest; reflexivity|]).
  destruct Hin.
Qed.

(** A day above twelve is not read as a month. *)
Lemma month_rejects_day (n : Z) (items : list PyDate.item) (rest : string)
    (f : PyDate.fields) :
  12 < n <= 31 ->
  PyDate.regex_match (PyDate.Dirm :: PyDate.Lit "/" :: items)
    (PyDate.two_digits n +:+ String "/" rest) f = None.
Proof.
  intros Hn. assert (Hin : In n (map Z.of_nat (seq 13 19))) by (apply in_Z_range; lia).
  vm_compute in Hin. clear Hn.
  repeat (destruct Hin as [<-|Hin];
          [eval_two_digits; cbn [PyDate.regex_match];
           cbv -[PyDate.regex_match]; reflexivity|]).
  destruct Hin.
Qed.

Lemma two_digits_head (n : Z) :
  1 <= n <= 31 ->
  exists c s, PyDate.two_digits n = String c s /\ PyStr.isspace c = false.
Proof.
  intros Hn. assert (Hin : In n (map Z.of_nat (seq 1 31))) by (apply in_Z_range; lia).
  vm_compute in Hin. clear Hn.
  repeat (destruct Hin as [<-|Hin]; [eexists _, _; split; vm_compute; reflexivity|]).
  destruct Hin.
Qed.

Lemma strip_truthy (c : ascii) (s : string) :
  PyStr.isspace c = false -> PyStr.truthy (PyStr.strip (String c s)) = true.
Proof.
  intros Hc. unfold PyStr.strip. cbn [PyStr.lstrip]. rewrite Hc.
  cbn [PyStr.rstrip]. destruct (PyStr.rstrip s); [now rewrite Hc|reflexivity].
Qed.

(** On a date field a text that starts with a non-blank goes through the
    list of formats. *)
Lemma convert_date_field (field_name : string) (c : ascii) (s : string) :
  any_keyword numeric_keywords field_name = false ->
  any_keyword date_keywords field_name = true ->
  PyStr.isspace c = false ->
  convert_field_value field_name (Some (String c s))
  = try_date_formats date_formats (String c s).
Proof.
  intros Hn Hd Hc. unfold convert_field_value. rewrite Hn, Hd.
  rewrite (strip_truthy c s Hc). cbn [PyStr.truthy andb].
  destruct (try_date_formats_string date_formats (String c s)) as [s' ->].
  reflexivity.
Qed.

Lemma valid_day_range (d : PyDate.date) : valid_date d -> 1 <= PyDate.day d <= 31.
Proof.
  intros (_ & _ & H). unfold PyDate.days_in_month in H.
  destruct (_ =? 2); [destruct (PyDate.is_leap _)|destruct (_ || _)]; lia.
Qed.

Lemma strptime_of_match (text fmt : string) (items : list PyDate.item)
    (y m d : Z) :
  PyDate.compile fmt = items ->
  PyDate.has_bad items = false ->
  PyDate.regex_match items text (PyDate.Fields 1900 1 1)
  = Some (PyDate.Fields y m d, "") ->
  valid_date (PyDate.Date y m d) ->
  PyDate.strptime text fmt = Ok (PyDate.Date y m d).
Proof.
  intros Hc Hb Hm (Hy & _ & Hd). unfold PyDate.strptime. rewrite Hc, Hb, Hm.
  cbn [PyDate.f_year PyDate.f_month PyDate.f_day PyDate.year PyDate.month PyDate.day] in *.
  destruct (y =? 0) eqn:E; [apply Z.eqb_eq in E; lia|].
  destruct (PyDate.days_in_month y m <? d) eqn:L; [apply Z.ltb_lt in L; lia|].
  reflexivity.
Qed.

Lemma append_empty_r (s : string) : s +:+ "" = s.
Proof. induction s as [|c s IH]; [reflexivity|]. now rewrite append_cons, IH. Qed.

Lemma digit_not_space (c : ascii) :
  PyStr.is_ascii_digit c = true -> PyStr.isspace c = false.
Proof. destruct c as [[] [] [] [] [] [] [] []]; try discriminate; reflexivity. Qed.

Lemma iso_text_parses (d : PyDate.date) :
  valid_date d ->
  PyDate.strptime (PyDate.strftime_ymd d) "%Y-%m-%d" = Ok d.
Proof.
  intros Hv. destruct d as [y m dd].
  pose proof (valid_day_range _ Hv) as Hday. destruct Hv as (Hy & Hm & Hd).
  cbn [PyDate.year PyDate.month PyDate.day] in *.
  apply (strptime_of_match _ _ [PyDate.DirY; PyDate.Lit "-"; PyDate.Dirm;
                                PyDate.Lit "-"; PyDate.Dird]);
    [reflexivity|reflexivity| |repeat split; cbn; lia].
  unfold PyDate.strftime_ymd. cbn [PyDate.year PyDate.month PyDate.day].
  rewrite (year_parse y _ _ _ Hy), !(append_cons "-" ""), !append_nil, lit_parse.
  apply month_parse; [exact Hm|]. rewrite lit_parse.
  rewrite <- (append_empty_r (PyDate.two_digits dd)).
  apply day_parse; [exact Hday|]. reflexivity.
Qed.

(** X4: on a date field a valid date written [YYYY-MM-DD] (years 1000 to
    9999) converts to itself: converted data can be converted again. *)
Theorem iso_date_is_a_fixed_point (field_name : string) (d : PyDate.date) :
  any_keyword numeric_keywords field_name = false ->
  any_keyword date_keywords field_name = true ->
  valid_date d ->
  convert_field_value field_name (Some (PyDate.strftime_ymd d))
  = Ok (PStr (PyDate.strftime_ymd d)).
Proof.
  intros Hn Hd Hv.
  destruct (year_digits (PyDate.year d) (proj1 Hv)) as (a & b & c & e & Hp & Ha & _).
  pose proof (iso_text_parses d Hv) as Hparse.
  assert (Hs : exists s, PyDate.strftime_ymd d = String a s).
  { unfold PyDate.strftime_ymd. rewrite Hp, append_cons. eauto. }
  destruct Hs as [s Hs]. rewrite Hs in *.
  rewrite (convert_date_field _ _ _ Hn Hd (digit_not_space a Ha)).
  unfold date_formats. cbn [try_date_formats]. rewrite Hparse. cbn.
  now rewrite Hs.
Qed.

Lemma us_text_parses (d : PyDate.date) :
  valid_date d ->
  PyDate.strptime (us_text d) "%Y-%m-%d"
  = Raise (Exn ValueError "time data does not match format") /\
  PyDate.strptime (us_text d) "%m/%d/%Y" = Ok d.
Proof.
  intros Hv. destruct d as [y m dd].
  pose proof (valid_day_range _ Hv) as Hday. pose proof Hv as (Hy & Hm & Hd).
  cbn [PyDate.year PyDate.month PyDate.day] in *.
  unfold us_text. cbn [PyDate.year PyDate.month PyDate.day].
  rewrite !(append_cons "/" ""), !append_nil. split.
  - unfold PyDate.strptime.
    change (PyDate.compile "%Y-%m-%d")
      with [PyDate.DirY; PyDate.Lit "-"; PyDate.Dirm; PyDate.Lit "-"; PyDate.Dird].
    cbn [PyDate.has_bad existsb orb].
    now rewrite year_rejects_slash by lia.
  - apply (strptime_of_match _ _ [PyDate.Dirm; PyDate.Lit "/"; PyDate.Dird;
                                  PyDate.Lit "/"; PyDate.DirY]);
      [reflexivity|reflexivity| |exact Hv].
    apply month_parse; [exact Hm|]. rewrite lit_parse.
    apply day_parse; [exact Hday|]. rewrite lit_parse.
    rewrite <- (append_empty_r (pretty y)), (year_parse y _ _ _ Hy). reflexivity.
Qed.

(** X5: on a date field a valid date written [MM/DD/YYYY] converts to
    the same date written [YYYY-MM-DD]. *)
Theorem us_date_is_normalised (field_name : string) (d : PyDate.date) :
  any_keyword numeric_keywords field_name = false ->
  any_keyword date_keywords field_name = true ->
  valid_date d ->
  convert_field_value field_name (Some (us_text d))
  = Ok (PStr (PyDate.strftime_ymd d)).
Proof.
  intros Hn Hd Hv.
  destruct (us_text_parses d Hv) as [H1 H2].
  destruct (two_digits_head (PyDate.month d)) as (c & s & Hc & Hsp);
    [destruct Hv as (_ & ? & _); lia|].
  assert (Hs : exists s', us_text d = String c s').
  { unfold us_text. rewrite Hc, append_cons. eauto. }
  destruct Hs as [s' Hs]. rewrite Hs in *.
  rewrite (convert_date_field _ _ _ Hn Hd Hsp).
  unfold date_formats. cbn [try_date_formats]. rewrite H1.
  cbn [rbind try_except value_error exn_cls]. rewrite H2. reflexivity.
Qed.

Lemma eu_text_parses (d : PyDate.date) :
  valid_date d ->
  PyDate.strptime (eu_text d) "%Y-%m-%d"
  = Raise (Exn ValueError "time data does not match format") /\
  (PyDate.day d <= 12 ->
   PyDate.strptime (eu_text d) "%m/%d/%Y"
   = Ok (PyDate.Date (PyDate.year d) (PyDate.day d) (PyDate.month d))) /\
  (12 < PyDate.day d ->
   PyDate.strptime (eu_text d) "%m/%d/%Y"
   = Raise (Exn ValueError "time data does not match format") /\
   PyDate.strptime (eu_text d) "%d/%m/%Y" = Ok d).
Proof.
  intros Hv. destruct d as [y m dd].
  pose proof (valid_day_range _ Hv) as Hday. pose proof Hv as (Hy & Hm & Hd).
  cbn [PyDate.year PyDate.month PyDate.day] in *.
  unfold eu_text. cbn [PyDate.year PyDate.month PyDate.day].
  rewrite !(append_cons "/" ""), !append_nil.
  assert (Hy' : forall f,
             PyDate.regex_match [PyDate.DirY] (pretty y) f
             = Some (PyDate.Fields y (PyDate.f_month f) (PyDate.f_day f), "")).
  { intros f. rewrite <- (append_empty_r (pretty y)), (year_parse y _ _ _ Hy).
    reflexivity. }
  split; [|split].
  - unfold PyDate.strptime.
    change (PyDate.compile "%Y-%m-%d")
      with [PyDate.DirY; PyDate.Lit "-"; PyDate.Dirm; PyDate.Lit "-"; PyDate.Dird].
    cbn [PyDate.has_bad existsb orb].
    now rewrite year_rejects_slash by lia.
  - intros Hle.
    apply (strptime_of_match _ _ [PyDate.Dirm; PyDate.Lit "/"; PyDate.Dird;
                                  PyDate.Lit "/"; PyDate.DirY]);
      [reflexivity|reflexivity| |].
    + apply month_parse; [lia|]. rewrite lit_parse.
      apply day_parse; [lia|]. rewrite lit_parse. apply Hy'.
    + repeat split; cbn [PyDate.year PyDate.month PyDate.day]; try lia.
      unfold PyDate.days_in_month.
      destruct (_ =? 2); [destruct (PyDate.is_leap _)|destruct (_ || _)]; lia.
  - intros Hgt. split.
    + unfold PyDate.strptime.
      change (PyDate.compile "%m/%d/%Y")
        with [PyDate.Dirm; PyDate.Lit "/"; PyDate.Dird; PyDate.Lit "/"; PyDate.DirY].
      cbn [PyDate.has_bad existsb orb].
      now rewrite month_rejects_day by lia.
    + apply (strptime_of_match _ _ [PyDate.Dird; PyDate.Lit "/"; PyDate.Dirm;
                                    PyDate.Lit "/"; PyDate.DirY]);
        [reflexivity|reflexivity| |exact Hv].
      apply day_parse; [lia|]. rewrite lit_parse.
      apply month_parse; [lia|]. rewrite lit_parse. apply Hy'.
Qed.

(** X6: on a date field a valid date written [DD/MM/YYYY] keeps its
    meaning only when its day is above twelve; with a day up to twelve the
    month-first format matches first and day and month change places. *)
Theorem day_first_date_is_read_month_first (field_name : string) (d : PyDate.date) :
  any_keyword numeric_keywords field_name = false ->
  any_keyword date_keywords field_name = true ->
  valid_date d ->
  (PyDate.day d <= 12 ->
   convert_field_value field_name (Some (eu_text d))
   = Ok (PStr (PyDate.strftime_ymd
                 (PyDate.Date (PyDate.year d) (PyDate.day d) (PyDate.month d))))) /\
  (12 < PyDate.day d ->
   convert_field_value field_name (Some (eu_text d))
   = Ok (PStr (PyDate.strftime_ymd d))).
Proof.
  intros Hn Hd Hv.
  destruct (eu_text_parses d Hv) as (H1 & H2 & H3).
  destruct (two_digits_head (PyDate.day d) (valid_day_range d Hv)) as (c & s & Hc & Hsp).
  assert (Hs : exists s', eu_text d = String c s').
  { unfold eu_text. rewrite Hc, append_cons. eauto. }
  destruct Hs as [s' Hs]. rewrite Hs in *.
  rewrite (convert_date_field _ _ _ Hn Hd Hsp).
  unfold date_formats. cbn [try_date_formats]. rewrite H1.
  cbn [rbind try_except value_error exn_cls]. split.
  - intros Hle. now rewrite (H2 Hle).
  - intros Hgt. destruct (H3 Hgt) as [H3a H3b]. rewrite H3a.
    cbn [rbind try_except value_error exn_cls]. now rewrite H3b.
Qed.

Lemma sample_date_valid (m d : Z) :
  1 <= m <= 12 -> 1 <= d <= 28 -> valid_date (PyDate.Date 2024 m d).
Proof.
  intros Hm Hd. unfold valid_date, PyDate.days_in_month.
  cbn [PyDate.year PyDate.month PyDate.day].
  destruct (_ =? 2); [destruct (PyDate.is_leap _)|destruct (_ || _)]; lia.
Qed.

Lemma iso_date_witness :
  convert_field_value "created_date" (Some "2024-03-05") = Ok (PStr "2024-03-05").
Proof.
  apply (iso_date_is_a_fixed_point "created_date" (PyDate.Date 2024 3 5));
    [reflexivity|reflexivity|apply sample_date_valid; lia].
Defined.

Lemma us_date_witness :
  convert_field_value "created_date" (Some "03/05/2024") = Ok (PStr "2024-03-05").
Proof.
  apply (us_date_is_normalised "created_date" (PyDate.Date 2024 3 5));
    [reflexivity|reflexivity|apply sample_date_valid; lia].
Defined.

Lemma day_first_date_witness :
  convert_field_value "Closed" (Some "05/03/2024") = Ok (PStr "2024-05-03") /\
  convert_field_value "Closed" (Some "25/03/2024") = Ok (PStr "2024-03-25").
Proof.
  split.
  - apply (day_first_date_is_read_month_first "Closed" (PyDate.Date 2024 3 5));
      [reflexivity|reflexivity|apply sample_date_valid; lia|].
    cbn. lia.
  - apply (day_first_date_is_read_month_first "Closed" (PyDate.Date 2024 3 25));
      [reflexivity|reflexivity|apply sample_date_valid; lia|].
    cbn. lia.
Defined.

(** ** The owner id, closer *)

Lemma generate_case_owner_id_nonblank (name : string) :
  PyStr.strip name <> "" -> generate_case_owner_id name = Some (slug name).
Proof.
  intros Hne. unfold generate_case_owner_id.
  destruct name as [|c name]; [now elim Hne|]. cbn [PyStr.truthy negb orb].
  destruct (String.eqb_spec (PyStr.strip (String c name)) "") as [E|_];
    [contradiction|reflexivity].
Qed.

Lemma generate_case_owner_id_blank (name : string) :
  generate_case_owner_id name = None <-> PyStr.strip name = "".
Proof.
  split.
  - intros H. destruct (String.eqb_spec (PyStr.strip name) "") as [E|Hne]; [exact E|].
    rewrite (generate_case_owner_id_nonblank name Hne) in H. discriminate.
  - intros H. unfold generate_case_owner_id. rewrite H. cbn [String.eqb].
    now rewrite orb_true_r.
Qed.

Lemma contains_char_cons (a c : ascii) (s : string) :
  PyStr.contains (String a "") (String c s)
  = Ascii.eqb a c || PyStr.contains (String a "") s.
Proof. cbn [PyStr.contains PyStr.startswith]. now rewrite andb_true_r. Qed.

Lemma contains_char_append (a : ascii) (s t : string) :
  PyStr.contains (String a "") (s +:+ t)
  = PyStr.contains (String a "") s || PyStr.contains (String a "") t.
Proof.
  induction s as [|c s IH].
  - rewrite append_nil. reflexivity.
  - rewrite append_cons, !contains_char_cons, IH. now rewrite orb_assoc.
Qed.

(** After [replace(old, new)] the character [old] is gone, provided [new]
    does not bring it back. *)
Lemma replace_removes (old : ascii) (new s : string) :
  PyStr.contains (String old "") new = false ->
  PyStr.contains (String old "") (PyStr.replace old new s) = false.
Proof.
  intros Hnew. induction s as [|c s IH]; [reflexivity|]. cbn [PyStr.replace].
  destruct (Ascii.eqb_spec c old) as [->|Hne].
  - now rewrite contains_char_append, Hnew, IH.
  - rewrite contains_char_cons, IH.
    destruct (Ascii.eqb_spec old c); [congruence|reflexivity].
Qed.

(** [replace] brings in no character that neither the text nor [new]
    holds. *)
Lemma replace_keeps_absent (a old : ascii) (new s : string) :
  PyStr.contains (String a "") new = false ->
  PyStr.contains (String a "") s = false ->
  PyStr.contains (String a "") (PyStr.replace old new s) = false.
Proof.
  intros Hnew. induction s as [|c s IH]; [reflexivity|].
  rewrite contains_char_cons. intros [Hc Hs]%orb_false_iff. cbn [PyStr.replace].
  destruct (Ascii.eqb c old).
  - now rewrite contains_char_append, Hnew, IH.
  - now rewrite contains_char_cons, Hc, IH.
Qed.

Lemma replace_lower_fixed (old : ascii) (new s : string) :
  PyStr.lower new = new -> PyStr.lower s = s ->
  PyStr.lower (PyStr.replace old new s) = PyStr.replace old new s.
Proof.
  intros Hnew. induction s as [|c s IH]; [reflexivity|].
  cbn [PyStr.lower]. intros [= Hc Hs]. cbn [PyStr.replace].
  destruct (Ascii.eqb c old).
  - now rewrite lower_append, Hnew, IH.
  - cbn [PyStr.lower]. now rewrite Hc, IH.
Qed.

Lemma slug_of_periods (name : string) :
  PyStr.all_chars (Ascii.eqb ".") name = true -> slug name = "".
Proof.
  unfold slug. induction name as [|c name IH]; [reflexivity|]. cbn [PyStr.all_chars].
  intros [Hc Hs]%andb_true_iff. apply Ascii.eqb_eq in Hc as <-.
  cbn. exact (IH Hs).
Qed.

(** X7: the owner id is absent exactly for a blank name; when present it
    holds no space, no period and no capital letter; and it can be the
    empty string, as for a name made of periods only. *)
Theorem case_owner_id_shape (name : string) :
  (generate_case_owner_id name = None <-> PyStr.strip name = "") /\
  (forall s,
      generate_case_owner_id name = Some s ->
      PyStr.contains " " s = false /\
      PyStr.contains "." s = false /\
      PyStr.lower s = s) /\
  (name <> "" -> PyStr.all_chars (Ascii.eqb ".") name = true ->
   generate_case_owner_id name = Some "").
Proof.
  split; [apply generate_case_owner_id_blank|]. split.
  - intros s H.
    destruct (String.eqb_spec (PyStr.strip name) "") as [E|Hne].
    + apply generate_case_owner_id_blank in E. congruence.
    + rewrite (generate_case_owner_id_nonblank name Hne) in H. injection H as <-.
      unfold slug. split; [|split].
      * apply replace_keeps_absent; [reflexivity|]. now apply replace_removes.
      * now apply replace_removes.
      * apply replace_lower_fixed; [reflexivity|].
        apply replace_lower_fixed; [reflexivity|apply lower_idem].
  - intros Hne Hall.
    assert (Hs : PyStr.strip name <> "").
    { destruct name as [|c name]; [contradiction|].
      cbn [PyStr.all_chars] in Hall. apply andb_true_iff in Hall as [Hc _].
      apply Ascii.eqb_eq in Hc as <-.
      apply truthy_true. now apply strip_truthy. }
    rewrite (generate_case_owner_id_nonblank name Hs). f_equal.
    now apply slug_of_periods.
Qed.

Lemma isspace_lower_char (c : ascii) :
  PyStr.isspace (PyStr.lower_char c) = PyStr.isspace c.
Proof. destruct c as [[] [] [] [] [] [] [] []]; reflexivity. Qed.

Lemma lstrip_lower (s : string) :
  PyStr.lstrip (PyStr.lower s) = PyStr.lower (PyStr.lstrip s).
Proof.
  induction s as [|c s IH]; [reflexivity|]. cbn [PyStr.lower PyStr.lstrip].
  rewrite isspace_lower_char. destruct (PyStr.isspace c); [exact IH|reflexivity].
Qed.

Lemma rstrip_lower (s : string) :
  PyStr.rstrip (PyStr.lower s) = PyStr.lower (PyStr.rstrip s).
Proof.
  induction s as [|c s IH]; [reflexivity|]. cbn [PyStr.lower PyStr.rstrip].
  rewrite IH, isspace_lower_char.
  destruct (PyStr.rstrip s); cbn [PyStr.lower]; [|reflexivity].
  now destruct (PyStr.isspace c).
Qed.

Lemma strip_lower (s : string) :
  PyStr.strip (PyStr.lower s) = PyStr.lower (PyStr.strip s).
Proof. unfold PyStr.strip. now rewrite lstrip_lower, rstrip_lower. Qed.

Lemma strip_blank_iff (s : string) :
  PyStr.strip s = "" <-> PyStr.all_chars PyStr.isspace s = true.
Proof.
  unfold PyStr.strip. induction s as [|c s IH]; [easy|].
  cbn [PyStr.lstrip PyStr.all_chars]. destruct (PyStr.isspace c) eqn:Hc.
  - exact IH.
  - cbn [PyStr.rstrip andb]. split; [|discriminate].
    destruct (PyStr.rstrip s); [now rewrite Hc|discriminate].
Qed.

Lemma lower_replace (old : ascii) (new s : string) :
  (forall c, Ascii.eqb (PyStr.lower_char c) old = Ascii.eqb c old) ->
  PyStr.lower new = new ->
  PyStr.lower (PyStr.replace old new s) = PyStr.replace old new (PyStr.lower s).
Proof.
  intros Hold Hnew. induction s as [|c s IH]; [reflexivity|].
  cbn [PyStr.replace PyStr.lower]. rewrite Hold.
  destruct (Ascii.eqb c old).
  - now rewrite lower_append, Hnew, IH.
  - cbn [PyStr.lower]. now rewrite IH.
Qed.

Lemma lower_char_space (c : ascii) :
  Ascii.eqb (PyStr.lower_char c) " " = Ascii.eqb c " ".
Proof. destruct c as [[] [] [] [] [] [] [] []]; reflexivity. Qed.

Lemma lower_char_period (c : ascii) :
  Ascii.eqb (PyStr.lower_char c) "." = Ascii.eqb c ".".
Proof. destruct c as [[] [] [] [] [] [] [] []]; reflexivity. Qed.

(** A text without [old] is left alone by [replace]. *)
Lemma replace_absent (old : ascii) (new s : string) :
  PyStr.contains (String old "") s = false -> PyStr.replace old new s = s.
Proof.
  induction s as [|c s IH]; [reflexivity|].
  rewrite contains_char_cons. intros [Hc Hs]%orb_false_iff. cbn [PyStr.replace].
  rewrite Ascii.eqb_sym, Hc. now rewrite IH.
Qed.

Lemma replace_space_period (s : string) :
  PyStr.replace " " "_" (PyStr.replace "." "" s)
  = PyStr.replace "." "" (PyStr.replace " " "_" s).
Proof.
  induction s as [|c s IH]; [reflexivity|]. cbn [PyStr.replace].
  destruct (Ascii.eqb_spec c ".") as [->|Hp].
  - cbn. exact IH.
  - destruct (Ascii.eqb_spec c " ") as [->|Hs].
    + cbn. now rewrite IH.
    + cbn [PyStr.replace].
      destruct (Ascii.eqb_spec c " "); [contradiction|].
      destruct (Ascii.eqb_spec c "."); [contradiction|]. now rewrite IH.
Qed.

Lemma slug_space_underscore (name : string) :
  slug (PyStr.replace " " "_" name) = slug name.
Proof.
  unfold slug. rewrite (lower_replace " " "_" name lower_char_space eq_refl).
  f_equal. apply replace_absent. now apply replace_removes.
Qed.

Lemma slug_period (name : string) : slug (PyStr.replace "." "" name) = slug name.
Proof.
  unfold slug. rewrite (lower_replace "." "" name lower_char_period eq_refl).
  rewrite replace_space_period. apply replace_absent. now apply replace_removes.
Qed.

Lemma replace_space_nonblank (name : string) :
  PyStr.strip name <> "" -> PyStr.strip (PyStr.replace " " "_" name) <> "".
Proof.
  rewrite !strip_blank_iff. intros H E. apply H. clear H.
  induction name as [|c name IH]; [reflexivity|]. cbn [PyStr.replace] in E.
  destruct (Ascii.eqb_spec c " ") as [->|Hc].
  - rewrite append_cons in E. cbn in E. discriminate.
  - cbn [PyStr.all_chars] in *. apply andb_true_iff in E as [-> E]. exact (IH E).
Qed.

Lemma replace_period_blank (name : string) :
  PyStr.strip name = "" -> PyStr.strip (PyStr.replace "." "" name) = "".
Proof.
  rewrite !strip_blank_iff. induction name as [|c name IH]; [reflexivity|].
  cbn [PyStr.all_chars]. intros [Hc Hs]%andb_true_iff. cbn [PyStr.replace].
  destruct (Ascii.eqb_spec c ".") as [->|_]; [discriminate|].
  cbn [PyStr.all_chars]. now rewrite Hc, IH.
Qed.

(** X8: the owner id does not tell apart letter case, a space from an
    underscore, or a name with periods from the same name without them, so
    distinct owner names can share one id. *)
Theorem case_owner_id_identifications (name : string) :
  generate_case_owner_id (PyStr.lower name) = generate_case_owner_id name /\
  (PyStr.strip name <> "" ->
   generate_case_owner_id (PyStr.replace " " "_" name) = generate_case_owner_id name) /\
  (PyStr.strip (PyStr.replace "." "" name) <> "" ->
   generate_case_owner_id (PyStr.replace "." "" name) = generate_case_owner_id name).
Proof.
  split; [|split].
  - destruct (String.eqb_spec (PyStr.strip name) "") as [E|Hne].
    + rewrite (proj2 (generate_case_owner_id_blank name) E).
      apply generate_case_owner_id_blank. now rewrite strip_lower, E.
    + rewrite !generate_case_owner_id_nonblank; [|exact Hne|].
      * unfold slug. now rewrite lower_idem.
      * rewrite strip_lower. intros E. apply lower_empty in E. contradiction.
  - intros Hne.
    rewrite !generate_case_owner_id_nonblank;
      [|exact Hne|now apply replace_space_nonblank].
    now rewrite slug_space_underscore.
  - intros Hne.
    assert (Hn : PyStr.strip name <> "").
    { intros E. apply Hne. now apply replace_period_blank. }
    rewrite !generate_case_owner_id_nonblank; [|exact Hn|exact Hne].
    now rewrite slug_period.
Qed.

Lemma case_owner_id_shape_witness :
  (PyStr.contains " " "j_smith" = false /\
   PyStr.contains "." "j_smith" = false /\
   PyStr.lower "j_smith" = "j_smith") /\
  generate_case_owner_id "..." = Some "".
Proof.
  split.
  - apply (case_owner_id_shape "J. Smith"). reflexivity.
  - apply (case_owner_id_shape "..."); [discriminate|reflexivity].
Defined.

Lemma case_owner_id_identifications_witness :
  generate_case_owner_id "J._Smith" = generate_case_owner_id "J. Smith" /\
  generate_case_owner_id "J Smith" = generate_case_owner_id "J. Smith".
Proof.
  split.
  - apply (case_owner_id_identifications "J. Smith"). discriminate.
  - apply (case_owner_id_identifications "J. Smith"). discriminate.
Defined.

(** ** The owner records *)

Lemma collect_case_owners_ok_iff (rows : list row) :
  forall acc,
    is_ok (collect_case_owners rows acc) = true <->
    Forall (fun r => row_get r "Case_Owner" <> None) rows.
Proof.
  induction rows as [|r rows IH]; intros acc; simpl.
  - split; [constructor|reflexivity].
  - rewrite Forall_cons. destruct (row_get r "Case_Owner") as [v|] eqn:E; simpl.
    + rewrite IH. split; [intros H; split; [congruence|exact H]|].
      now intros [_ H].
    + split; [discriminate|]. intros [H _]. contradiction.
Qed.

(** X9: the builder fails exactly when some row has no value at all under
    [Case_Owner] (a short row); otherwise it yields one record per distinct
    trimmed non-empty owner name, with that name and its slug, the id never
    being null. *)
Theorem case_owner_records_shape (rows : list row) :
  (is_ok (case_owner_records rows) = true <->
   Forall (fun r => row_get r "Case_Owner" <> None) rows) /\
  forall records,
    case_owner_records rows = Ok records ->
    exists names,
      records = (fun n => [("ownerId", PStr (slug n)); ("name", PStr n)]) <$> names /\
      NoDup names /\
      forall n, n ∈ names <->
        exists r v, r ∈ rows /\ row_get r "Case_Owner" = Some v /\
                    PyStr.strip v = n /\ n <> "".
Proof.
  split.
  - rewrite <- (collect_case_owners_ok_iff rows ∅). unfold case_owner_records.
    now destruct (collect_case_owners rows ∅).
  - intros records H. unfold case_owner_records in H.
    destruct (collect_case_owners rows ∅) as [owners|e] eqn:Hc; simpl in H; [|discriminate].
    injection H as <-.
    pose proof (collect_case_owners_spec rows ∅ owners Hc) as Hspec.
    assert (Hmem : forall n, n ∈ elements owners <->
              exists r v, r ∈ rows /\ row_get r "Case_Owner" = Some v /\
                          PyStr.strip v = n /\ n <> "").
    { intros n. rewrite elem_of_elements, Hspec. split; [|auto].
      intros [Hn|Hn]; [|exact Hn]. now apply not_elem_of_empty in Hn. }
    exists (elements owners). split; [|split; [apply NoDup_elements|exact Hmem]].
    apply Forall_fmap_ext, Forall_forall. intros n Hn.
    apply Hmem in Hn as (r & v & _ & _ & <- & Hne).
    unfold owner_record. now rewrite (generate_case_owner_id_stripped v Hne).
Qed.

Lemma case_owner_records_witness :
  exists names,
    [owner_record "john smith"; owner_record "John Smith"]
    = (fun n => [("ownerId", PStr (slug n)); ("name", PStr n)]) <$> names /\
    NoDup names /\
    forall n, n ∈ names <->
      exists r v,
        r ∈ [cases_row "C1" "John Smith"; cases_row "C2" "john smith ";
             cases_row "C3" "  "] /\
        row_get r "Case_Owner" = Some v /\ PyStr.strip v = n /\ n <> "".
Proof.
  apply (case_owner_records_shape
           [cases_row "C1" "John Smith"; cases_row "C2" "john smith ";
            cases_row "C3" "  "]).
  vm_compute. reflexivity.
Defined.

(** ** Loading the owners *)

Lemma load_case_owners_writes
    (env : Env) (self : Neo4jIngest) (w : world)
    (rows : list row) (records : list record)
    (lq : LoadingQueries) (ns : list (string * entry)) (cfg : entry) (q : string) :
  data_dir env "cases.csv" = Some rows ->
  case_owner_records rows = Ok records ->
  loading_queries (config self) = Present lq ->
  nodes lq = Present ns ->
  dict_get "CaseOwner" ns = Some cfg ->
  entry_query cfg = Some q ->
  db_write env (clock w) q (Some records) = RunOk ->
  load_case_owners env self w
  = (Ok tt,
     World (S (clock w))
       (LogInfo ("Loaded " +:+ pretty (length records) +:+ " case owners")
        :: SessionClosed (clock w)
        :: Executed (clock w) q (Some records)
        :: SessionOpened (clock w)
        :: LogInfo "Loading case owners..." :: trace w)).
Proof.
  intros Hd Hr Hlq Hns Hc Hq Hw.
  unfold load_case_owners, read_csv, case_owner_query, subscript_yaml,
    subscript, bind, info, emit, ret, lift.
  rewrite Hd, Hr, Hlq, Hns, Hc, Hq.
  rewrite run_query_ok by exact Hw. reflexivity.
Qed.

(** X10: the owners are written in a single statement holding all their
    records, whatever their number, through the query of the [CaseOwner]
    entry alone; a missing [cases.csv] or a missing [CaseOwner] entry raises
    before any database access. *)
Theorem load_case_owners_single_statement (env : Env) (self : Neo4jIngest) (w : world) :
  (data_dir env "cases.csv" = None ->
   exists e,
     load_case_owners env self w
     = (Raise e, World (clock w) (LogInfo "Loading case owners..." :: trace w)) /\
     exn_cls e = FileNotFoundError) /\
  (forall rows records lq ns,
      data_dir env "cases.csv" = Some rows ->
      case_owner_records rows = Ok records ->
      loading_queries (config self) = Present lq ->
      nodes lq = Present ns ->
      (dict_get "CaseOwner" ns = None ->
       exists e,
         load_case_owners env self w
         = (Raise e, World (clock w) (LogInfo "Loading case owners..." :: trace w)) /\
         exn_cls e = KeyError) /\
      (forall cfg q,
          dict_get "CaseOwner" ns = Some cfg ->
          entry_query cfg = Some q ->
          db_write env (clock w) q (Some records) = RunOk ->
          load_case_owners env self w
          = (Ok tt,
             World (S (clock w))
               (LogInfo ("Loaded " +:+ pretty (length records) +:+ " case owners")
                :: SessionClosed (clock w)
                :: Executed (clock w) q (Some records)
                :: SessionOpened (clock w)
                :: LogInfo "Loading case owners..." :: trace w)))).
Proof.
  split.
  - intros Hd. unfold load_case_owners, read_csv, bind, info, emit, raise.
    rewrite Hd. eauto.
  - intros rows records lq ns Hd Hr Hlq Hns. split.
    + intros Hc. unfold load_case_owners, read_csv, case_owner_query, subscript_yaml,
        subscript, bind, info, emit, raise, ret, lift.
      rewrite Hd, Hr, Hlq, Hns, Hc. eauto.
    + intros cfg q Hc Hq Hw.
      now apply (load_case_owners_writes env self w rows records lq ns cfg q).
Qed.

(** ** Records from a CSV file *)

Lemma cell_value (target_field : string) (cell : option string) :
  match cell with
  | None => Ok PNone
  | Some EmptyString => Ok PNone
  | Some value => convert_field_value target_field (Some value)
  end = convert_field_value target_field cell.
Proof. now destruct cell as [[|c s]|]. Qed.

Lemma build_record_shape (fm : list (string * string)) (r : row) :
  forall rec,
    build_record fm r = Ok rec ->
    Forall2 (fun m fv =>
               fst fv = fst m /\
               convert_field_value (fst m) (row_get r (snd m)) = Ok (snd fv)) fm rec.
Proof.
  induction fm as [|[t s] fm IH]; intros rec H; cbn [build_record] in H.
  - injection H as <-. constructor.
  - rewrite cell_value in H.
    destruct (convert_field_value t (row_get r s)) as [v|e] eqn:E;
      cbn [rbind] in H; [|discriminate].
    destruct (build_record fm r) as [fields|e]; cbn [rbind] in H; [|discriminate].
    injection H as <-. constructor; [split; [reflexivity|exact E]|now apply IH].
Qed.

Lemma build_record_raise (fm : list (string * string)) (r : row) (e : exn) :
  build_record fm r = Raise e ->
  exists m, m ∈ fm /\ convert_field_value (fst m) (row_get r (snd m)) = Raise e.
Proof.
  induction fm as [|[t s] fm IH]; cbn [build_record]; [discriminate|].
  rewrite cell_value.
  destruct (convert_field_value t (row_get r s)) as [v|e'] eqn:E; cbn [rbind].
  - destruct (build_record fm r) as [fields|e']; cbn [rbind]; [discriminate|].
    intros [= ->]. destruct (IH eq_refl) as (m & Hm & Hc).
    exists m. split; [now apply list_elem_of_further|exact Hc].
  - intros [= ->]. exists (t, s). split; [apply list_elem_of_here|exact E].
Qed.

Lemma build_record_bad_cell (fm : list (string * string)) (r : row) (m : string * string) :
  m ∈ fm ->
  is_ok (convert_field_value (fst m) (row_get r (snd m))) = false ->
  is_ok (build_record fm r) = false.
Proof.
  induction fm as [|[t s] fm IH]; intros Hm Hc; [inversion Hm|]. cbn [build_record].
  rewrite cell_value.
  destruct (convert_field_value t (row_get r s)) as [v|e] eqn:E; cbn [rbind];
    [|reflexivity].
  apply elem_of_cons in Hm as [->|Hm];
    [cbn [fst snd] in Hc; rewrite E in Hc; discriminate|].
  specialize (IH Hm Hc). now destruct (build_record fm r).
Qed.

(** X11: [load_csv_data] fails with [FileNotFoundError] when the file is
    missing; otherwise it never touches the database and yields one record
    per row, in row order, each with exactly the configured destination
    fields in their configured order, the value of a field being the
    conversion of the cell under its source column (null for a missing
    column or an empty cell). *)
Theorem load_csv_data_shape (env : Env) (file_path : string)
    (fm : list (string * string)) (w : world) :
  (data_dir env file_path = None ->
   load_csv_data env file_path fm w
   = (Raise (Exn FileNotFoundError ("CSV file not found: data/" +:+ file_path)), w)) /\
  (forall rows records w',
      data_dir env file_path = Some rows ->
      load_csv_data env file_path fm w = (Ok records, w') ->
      clock w' = clock w /\
      Forall2 (fun r rec =>
                 Forall2 (fun m fv =>
                            fst fv = fst m /\
                            convert_field_value (fst m) (row_get r (snd m))
                            = Ok (snd fv)) fm rec)
              rows records).
Proof.
  split.
  - intros Hd. unfold load_csv_data. now rewrite Hd.
  - intros rows records w' Hd. unfold load_csv_data, bind, lift, info, emit, ret.
    rewrite Hd.
    destruct (build_records fm rows) as [recs|e] eqn:Hb; [|discriminate].
    intros [= <- <-]. split; [reflexivity|].
    clear Hd. revert recs Hb. induction rows as [|r rows IH]; intros recs Hb; simpl in Hb.
    + injection Hb as <-. constructor.
    + destruct (build_record fm r) as [rec|e] eqn:Hr; simpl in Hb; [|discriminate].
      destruct (build_records fm rows) as [rest|e]; simpl in Hb; [|discriminate].
      injection Hb as <-. constructor; [now apply build_record_shape|now apply IH].
Qed.

(** X12: the records of a file are built unless some configured cell fails
    to convert, and a cell fails to convert only on a numeric field whose
    text reads as an infinite number; a single such cell loses the whole
    file. *)
Theorem build_records_fail_on_infinite_cells
    (fm : list (string * string)) (rows : list row) :
  (is_ok (build_records fm rows) = false <->
   exists r m, r ∈ rows /\ m ∈ fm /\
               is_ok (convert_field_value (fst m) (row_get r (snd m))) = false) /\
  (forall e,
      build_records fm rows = Raise e ->
      e = Exn OverflowError "cannot convert float infinity to integer" /\
      exists r m text neg,
        r ∈ rows /\ m ∈ fm /\
        any_keyword numeric_keywords (fst m) = true /\
        row_get r (snd m) = Some text /\
        PyNum.py_float text = Ok (PyNum.FInf neg)).
Proof.
  assert (Hraise : forall e, build_records fm rows = Raise e ->
            exists r m, r ∈ rows /\ m ∈ fm /\
              convert_field_value (fst m) (row_get r (snd m)) = Raise e).
  { induction rows as [|r rows IH]; intros e H; simpl in H; [discriminate|].
    destruct (build_record fm r) as [rec|e'] eqn:Hr; simpl in H.
    - destruct (build_records fm rows) as [rest|e']; simpl in H; [discriminate|].
      injection H as ->. destruct (IH e eq_refl) as (r' & m & Hr' & Hm & Hc).
      exists r', m. split; [now apply list_elem_of_further|auto].
    - injection H as ->. destruct (build_record_raise fm r e Hr) as (m & Hm & Hc).
      exists r, m. split; [apply list_elem_of_here|auto]. }
  split.
  - split.
    + intros H. destruct (build_records fm rows) as [recs|e] eqn:Hb; [discriminate|].
      destruct (Hraise e eq_refl) as (r & m & Hr & Hm & Hc).
      exists r, m. rewrite Hc. auto.
    + intros (r & m & Hr & Hm & Hc). clear Hraise.
      induction rows as [|r0 rows IH]; [inversion Hr|]. simpl.
      apply elem_of_cons in Hr as [->|Hr].
      * pose proof (build_record_bad_cell fm r0 m Hm Hc) as Hb.
        now destruct (build_record fm r0).
      * specialize (IH Hr). destruct (build_record fm r0); [|reflexivity]. simpl.
        now destruct (build_records fm rows).
  - intros e H. destruct (Hraise e H) as (r & m & Hr & Hm & Hc).
    apply convert_field_value_raises in Hc as (Hn & text & neg & Ht & _ & Hf & ->).
    split; [reflexivity|]. exists r, m, text, neg. auto 10.
Qed.

(** ** Batches, again *)

(** X13: the batches are the record list cut in consecutive pieces:
    nothing is lost, repeated or reordered; there are as many batches as
    the length divided by 1000, rounded up (none for no records); no batch
    is empty or longer than 1000, and all but the last hold exactly 1000. *)
Theorem batches_partition {A} (records : list A) :
  concat (batches batch_size records) = records /\
  length (batches batch_size records)
  = Nat.div (length records + batch_size - 1) batch_size /\
  (records = [] -> batches batch_size records = []) /\
  forall i b,
    batches batch_size records !! i = Some b ->
    b = take batch_size (drop (i * batch_size) records) /\
    (0 < length b <= batch_size)%nat /\
    (S i < length (batches batch_size records) -> length b = batch_size)%nat.
Proof.
  assert (Hsize : (0 < batch_size)%nat) by (unfold batch_size; lia).
  assert (Hlen : length (batches batch_size records)
                 = Nat.div (length records + batch_size - 1) batch_size).
  { unfold batches, range_step. now rewrite !length_fmap, length_seq. }
  assert (Hlook : forall i b, batches batch_size records !! i = Some b ->
            b = take batch_size (drop (i * batch_size) records) /\
            (i * batch_size < length records)%nat).
  { intros i b. unfold batches. rewrite list_lookup_fmap.
    destruct (range_step _ _ !! i) as [n|] eqn:E; [|discriminate].
    apply range_step_lookup in E as [-> Hlt]. simpl. intros [= <-]. auto. }
  split; [now apply concat_batches|]. split; [exact Hlen|]. split.
  - intros ->. reflexivity.
  - intros i b Hb. destruct (Hlook i b Hb) as [-> Hlt]. split; [reflexivity|].
    rewrite length_take, length_drop. split; [lia|].
    intros Hnext.
    destruct (lookup_lt_is_Some_2 _ _ Hnext) as [b' Hb'].
    destruct (Hlook (S i) b' Hb') as [_ Hlt']. lia.
Qed.

(** ** Writes that all succeed *)

Lemma node_batches_all_ok (env : Env) (q : string) (bs : list (list record)) :
  forall w,
    (forall i b, bs !! i = Some b -> db_write env (clock w + i) q (Some b) = RunOk) ->
    exists new,
      for_each bs (fun batch => run_query env q (Some batch)) w
      = (Ok tt, World (clock w + length bs) (new ++ trace w)) /\
      written new = concat bs.
Proof.
  induction bs as [|b bs IH]; intros w Hok.
  - exists []. simpl. rewrite Nat.add_0_r. now destruct w.
  - cbn [for_each]. unfold bind at 1.
    pose proof (Hok O b eq_refl) as H0. rewrite Nat.add_0_r in H0.
    rewrite (run_query_ok _ _ _ _ H0).
    match goal with |- context [for_each bs _ ?w1] =>
      destruct (IH w1) as (new & Hrun & Hw)
    end.
    { intros i b' Hi. cbn [clock].
      replace (S (clock w) + i)%nat with (clock w + S i)%nat by lia.
      now apply Hok. }
    rewrite Hrun. cbn [clock trace length].
    exists (new ++ [SessionClosed (clock w); Executed (clock w) q (Some b);
                    SessionOpened (clock w)]).
    split.
    + f_equal. f_equal; [lia|]. now rewrite <- app_assoc.
    + rewrite written_app, Hw. reflexivity.
Qed.

Lemma accepted_all (env : Env) (q : string) (bs : list (list record)) :
  forall t,
    (forall i b, bs !! i = Some b -> db_write env (t + i) q (Some b) = RunOk) ->
    accepted env q t bs = bs.
Proof.
  induction bs as [|b bs IH]; intros t Hok; [reflexivity|]. cbn [accepted].
  pose proof (Hok O b eq_refl) as H0. rewrite Nat.add_0_r in H0. rewrite H0.
  f_equal. apply IH. intros i b' Hi.
  replace (S t + i)%nat with (t + S i)%nat by lia. now apply Hok.
Qed.

(** X14: when the database accepts every batch, both loading loops return
    normally after one statement per batch, having written every record
    exactly once and in order. *)
Theorem accepted_batches_write_every_record
    (env : Env) (rt q : string) (records : list record) (w : world) :
  (forall i b,
      batches batch_size records !! i = Some b ->
      db_write env (clock w + i) q (Some b) = RunOk) ->
  (exists new,
      write_node_batches env q records w
      = (Ok tt, World (clock w + length (batches batch_size records))
                  (new ++ trace w)) /\
      written new = records) /\
  (exists new,
      write_relationship_batches env rt q records w
      = (Ok tt, World (clock w + length (batches batch_size records))
                  (new ++ trace w)) /\
      written new = records).
Proof.
  intros Hok.
  assert (Hsize : (0 < batch_size)%nat) by (unfold batch_size; lia).
  split.
  - destruct (node_batches_all_ok env q (batches batch_size records) w Hok)
      as (new & Hrun & Hw).
    exists new. split; [exact Hrun|]. now rewrite Hw, concat_batches.
  - destruct (relationship_batches_spec env rt q (batches batch_size records) w)
      as (new & Hrun & Hw & _).
    exists new. split; [exact Hrun|].
    now rewrite Hw, (accepted_all env q _ (clock w) Hok), concat_batches.
Qed.

(** ** Relationship types *)

(** X15: the entry of [ASSIGNED_TO] must hold [source_data],
    [field_mappings] and [query], a missing one being a [KeyError] raised
    before any file or database access; yet the values of the first two
    play no part in what is loaded. *)
Theorem assigned_to_entry_keys (env : Env) (w : world) :
  (forall cfg,
      entry_source cfg = None \/ entry_field_mappings cfg = None \/
      entry_query cfg = None ->
      exists e,
        load_relationship_type env ("ASSIGNED_TO", cfg) w
        = (Raise e, World (clock w)
                      (LogInfo "Loading ASSIGNED_TO relationships..." :: trace w)) /\
        exn_cls e = KeyError) /\
  (forall s1 s2 fm1 fm2 q,
      load_relationship_type env ("ASSIGNED_TO", Entry (Some s1) (Some fm1) (Some q)) w
      = load_relationship_type env ("ASSIGNED_TO", Entry (Some s2) (Some fm2) (Some q)) w).
Proof.
  split; [|reflexivity].
  intros [[s|] [fm|] [q|]] H; cbn [entry_source entry_field_mappings entry_query] in H;
    try (destruct H as [H|[H|H]]; discriminate);
    eexists; (split; [reflexivity|reflexivity]).
Qed.

Lemma load_relationship_type_generic (env : Env) (rt : string) (cfg : entry)
    (src : string) (fm : list (string * string)) (q : string) (w : world) :
  rt <> reserved_type -> rt <> "ASSIGNED_TO" ->
  entry_source cfg = Some src ->
  entry_field_mappings cfg = Some fm ->
  entry_query cfg = Some q ->
  load_relationship_type env (rt, cfg) w
  = (records <- load_csv_data env src fm ;;
     write_relationship_batches env rt q records ;;;
     info ("Loaded " +:+ pretty (length records) +:+ " " +:+ rt +:+ " relationships"))
      (World (clock w) (LogInfo ("Loading " +:+ rt +:+ " relationships...") :: trace w)).
Proof.
  intros Hr Ha Hs Hf Hq. unfold load_relationship_type.
  destruct (String.eqb_spec rt reserved_type) as [|_]; [contradiction|].
  destruct (String.eqb_spec rt "ASSIGNED_TO") as [|_]; [contradiction|].
  rewrite Hs, Hf, Hq. reflexivity.
Qed.

(** X16: a missing source file is fatal to the relationship phase: the
    type raises [FileNotFoundError] without any database access and the
    types configured after it are not loaded. *)
Theorem relationship_source_missing_is_fatal
    (env : Env) (rt : string) (cfg : entry) (src : string)
    (fm : list (string * string)) (q : string)
    (before after : list (string * entry)) (w w1 : world) :
  rt <> reserved_type -> rt <> "ASSIGNED_TO" ->
  entry_source cfg = Some src ->
  entry_field_mappings cfg = Some fm ->
  entry_query cfg = Some q ->
  data_dir env src = None ->
  for_each before (load_relationship_type env) w = (Ok tt, w1) ->
  for_each (before ++ (rt, cfg) :: after) (load_relationship_type env) w
  = (Raise (Exn FileNotFoundError ("CSV file not found: data/" +:+ src)),
     World (clock w1) (LogInfo ("Loading " +:+ rt +:+ " relationships...") :: trace w1)).
Proof.
  intros Hr Ha Hs Hf Hq Hd Hb.
  rewrite for_each_app, Hb. cbn [for_each]. unfold bind at 1.
  rewrite (load_relationship_type_generic env rt cfg src fm q w1 Hr Ha Hs Hf Hq).
  unfold bind at 1. unfold load_csv_data. now rewrite Hd.
Qed.

Lemma accepted_none (env : Env) (q : string) (bs : list (list record)) :
  forall t,
    (forall i b, bs !! i = Some b -> db_write env (t + i) q (Some b) <> RunOk) ->
    accepted env q t bs = [].
Proof.
  induction bs as [|b bs IH]; intros t Hf; [reflexivity|]. cbn [accepted].
  pose proof (Hf O b eq_refl) as H0. rewrite Nat.add_0_r in H0.
  assert (Hrest : accepted env q (S t) bs = []).
  { apply IH. intros i b' Hi.
    replace (S t + i)%nat with (t + S i)%nat by lia. now apply Hf. }
  destruct (db_write env t q (Some b)); [exact Hrest|exact Hrest|congruence].
Qed.

(** X17: the count a relationship type reports when it ends is the number
    of records read from its file, whatever the database did with them:
    the type returns normally and logs that count even when every batch
    was refused and nothing was written. *)
Theorem relationship_count_is_of_records_read
    (env : Env) (rt : string) (cfg : entry) (src : string)
    (fm : list (string * string)) (q : string)
    (rows : list row) (records : list record) (w : world) :
  rt <> reserved_type -> rt <> "ASSIGNED_TO" ->
  entry_source cfg = Some src ->
  entry_field_mappings cfg = Some fm ->
  entry_query cfg = Some q ->
  data_dir env src = Some rows ->
  build_records fm rows = Ok records ->
  exists new,
    load_relationship_type env (rt, cfg) w
    = (Ok tt,
       World (clock w + length (batches batch_size records))
         (LogInfo ("Loaded " +:+ pretty (length records) +:+ " " +:+ rt
                   +:+ " relationships")
          :: new
          ++ LogInfo ("Loaded " +:+ pretty (length records) +:+ " records from data/"
                      +:+ src)
          :: LogInfo ("Loading " +:+ rt +:+ " relationships...") :: trace w)) /\
    written new = concat (accepted env q (clock w) (batches batch_size records)) /\
    ((forall i b,
         batches batch_size records !! i = Some b ->
         db_write env (clock w + i) q (Some b) <> RunOk) ->
     written new = []).
Proof.
  intros Hr Ha Hs Hf Hq Hd Hb.
  rewrite (load_relationship_type_generic env rt cfg src fm q w Hr Ha Hs Hf Hq).
  unfold bind at 1. unfold load_csv_data. rewrite Hd, Hb.
  unfold bind at 1, lift, info at 1, emit at 1, ret. cbn [clock trace].
  unfold bind at 1. unfold bind at 1. unfold write_relationship_batches.
  match goal with |- context [for_each _ _ ?w1] =>
    destruct (relationship_batches_spec env rt q (batches batch_size records) w1)
      as (new & Hrun & Hw & _)
  end.
  rewrite Hrun. cbn [clock trace] in *. exists new.
  split; [reflexivity|]. split; [exact Hw|].
  intros Hall. rewrite Hw, (accepted_none env q _ (clock w) Hall). reflexivity.
Qed.

(** ** What a method adds to the trace *)

Lemma adds_ret Q {A} (a : A) : adds_only Q (ret a).
Proof. intros w. now exists []. Qed.

Lemma adds_raise Q {A} (e : exn) : adds_only Q (@raise A e).
Proof. intros w. now exists []. Qed.

Lemma adds_lift Q {A} (r : result A) : adds_only Q (lift r).
Proof. intros w. now exists []. Qed.

Lemma adds_tick Q : adds_only Q tick.
Proof. intros w. now exists []. Qed.

Lemma adds_emit Q (ev : event) : Q ev = true -> adds_only Q (emit ev).
Proof. intros H w. exists [ev]. simpl. now rewrite H. Qed.

Lemma adds_bind Q {A B} (m : M A) (k : A -> M B) :
  adds_only Q m -> (forall a, adds_only Q (k a)) -> adds_only Q (bind m k).
Proof.
  intros Hm Hk w. unfold bind. destruct (Hm w) as (new1 & H1 & Q1).
  destruct (m w) as [[a|e] w1]; cbn [snd] in *.
  - destruct (Hk a w1) as (new2 & H2 & Q2). exists (new2 ++ new1).
    rewrite H2, H1, app_assoc. split; [reflexivity|].
    now rewrite forallb_app, Q1, Q2.
  - exists new1. auto.
Qed.

Lemma adds_catch Q {A} (m : M A) (h : exn -> M A) :
  adds_only Q m -> (forall e, adds_only Q (h e)) -> adds_only Q (catch m h).
Proof.
  intros Hm Hh w. unfold catch. destruct (Hm w) as (new1 & H1 & Q1).
  destruct (m w) as [[a|e] w1]; cbn [snd] in *.
  - exists new1. auto.
  - destruct (Hh e w1) as (new2 & H2 & Q2). exists (new2 ++ new1).
    rewrite H2, H1, app_assoc. split; [reflexivity|].
    now rewrite forallb_app, Q1, Q2.
Qed.

Lemma adds_for_each Q {A} (xs : list A) (body : A -> M unit) :
  (forall x, adds_only Q (body x)) -> adds_only Q (for_each xs body).
Proof.
  intros Hb. induction xs as [|x xs IH]; simpl.
  - apply adds_ret.
  - apply adds_bind; [apply Hb|intros _; exact IH].
Qed.

Ltac adds_step :=
  first
    [ apply adds_ret | apply adds_raise | apply adds_lift | apply adds_tick
    | apply adds_emit; lazy; reflexivity
    | apply adds_bind; [|intros ?]
    | apply adds_catch; [|intros ?]
    | apply adds_for_each; intros ?
    | match goal with
      | |- adds_only _ (match ?x with _ => _ end) => destruct x
      end ].

Ltac solve_adds := repeat adds_step.

Ltac unfold_pipeline :=
  unfold run_ingest, create_constraints, create_indexes, load_nodes,
    load_relationships, load_case_owners, case_owner_query, initializing, loading,
    load_node_type, load_relationship_type, write_node_batches,
    write_relationship_batches, create_one, read_csv, load_csv_data, run_query,
    subscript_yaml, subscript, info, error.

Lemma run_ingest_not_closing (env : Env) (self : Neo4jIngest) :
  adds_only not_closing (run_ingest env self).
Proof. unfold_pipeline. solve_adds. Qed.

Lemma new_ingest_not_closing (env : Env) : adds_only not_closing (new_ingest env).
Proof.
  unfold new_ingest, load_environment, load_config, connect_to_neo4j, info.
  solve_adds.
Qed.

Lemma verify_data_not_closing (env : Env) : adds_only not_closing (verify_data env).
Proof. unfold verify_data, verify_one, info, error. solve_adds. Qed.

Lemma verify_data_not_writing (env : Env) : adds_only not_writing (verify_data env).
Proof. unfold verify_data, verify_one, info, error. solve_adds. Qed.

Lemma phases_not_success (env : Env) (self : Neo4jIngest) :
  adds_only not_success
    (info "Starting Neo4j data ingest..." ;;;
     create_constraints env self ;;;
     create_indexes env self ;;;
     load_nodes env self ;;;
     load_relationships env self).
Proof. unfold_pipeline. solve_adds. Qed.

Lemma adds_only_absent Q {A} (m : M A) (ev : event) (w : world) :
  adds_only Q m -> Q ev = false ->
  ev ∈ trace (snd (m w)) -> ev ∈ trace w.
Proof.
  intros Hm Hq Hin. destruct (Hm w) as (new & Hnew & Hall). rewrite Hnew in Hin.
  apply elem_of_app in Hin as [Hin|Hin]; [|exact Hin].
  apply list_elem_of_In in Hin.
  rewrite forallb_forall in Hall. rewrite (Hall ev Hin) in Hq. discriminate.
Qed.

(** ** Starting up *)

(** X18: when a credential is missing or empty, when the configuration
    file is missing, or when the driver cannot be built, the run ends with
    exit code 1 after logging the reason, without any driver created or
    closed and without any database interaction. *)
Theorem startup_failures (env : Env) (w : world) :
  (truthy_opt (NEO4J_URI env) && truthy_opt (NEO4J_USERNAME env)
   && truthy_opt (NEO4J_PASSWORD env) = false ->
   main env w
   = (1, World (clock w)
           (RootLogError
              "Ingest process failed: Missing required Neo4j credentials in .env file"
            :: trace w))) /\
  (truthy_opt (NEO4J_URI env) && truthy_opt (NEO4J_USERNAME env)
   && truthy_opt (NEO4J_PASSWORD env) = true ->
   (config_file env = None ->
    main env w
    = (1, World (clock w)
            (RootLogError
               "Ingest process failed: Configuration file ingest_config.yaml not found"
             :: trace w))) /\
   (forall c e,
       config_file env = Some c ->
       driver_ctor env = Some e ->
       main env w
       = (1, World (clock w)
               (RootLogError ("Ingest process failed: Failed to connect to Neo4j: "
                              +:+ exn_text e)
                :: LogInfo "Loaded configuration from ingest_config.yaml"
                :: trace w)))).
Proof.
  split; [|intros H; split].
  - intros H. unfold main, new_ingest, load_environment, bind. now rewrite H.
  - intros Hc. unfold main, new_ingest, load_environment, load_config, bind.
    now rewrite H, Hc.
  - intros c e Hc He.
    unfold main, new_ingest, load_environment, load_config, connect_to_neo4j,
      bind, catch, info, emit, ret.
    now rewrite H, Hc, He.
Qed.

(** ** The exit code *)

Lemma verify_data_session_fails (env : Env) (w : world) (e : exn) :
  verify_session env (clock w) = Some e ->
  verify_data env w
  = (Raise e, World (S (clock w)) (LogInfo "Verifying loaded data..." :: trace w)).
Proof. intros H. unfold verify_data, bind, info, emit, tick. cbn. now rewrite H. Qed.

(** X19: the exit code is 0 or 1, and it is 0 exactly when the object was
    built, every ingest phase returned normally and the verifier acquired
    its session: a failing verification query never changes the exit code,
    a verifier that cannot open its session does. *)
Theorem exit_code (env : Env) (w : world) :
  (fst (main env w) = 0 \/ fst (main env w) = 1) /\
  (fst (main env w) = 0 <->
   exists ing w1 w2,
     new_ingest env w = (Ok ing, w1) /\
     run_ingest env ing w1 = (Ok tt, w2) /\
     verify_session env (clock w2) = None).
Proof.
  unfold main.
  destruct (new_ingest env w) as [[ing|e] w1] eqn:En.
  - unfold bind. destruct (run_ingest env ing w1) as [[[]|e] w2] eqn:Er.
    + destruct (verify_session env (clock w2)) as [e|] eqn:Es.
      * rewrite (verify_data_session_fails env w2 e Es). cbn [fst]. split; [auto|].
        split; [discriminate|].
        intros (ing' & w1' & w2' & [= <- <-] & H & Hs). rewrite Er in H.
        injection H as <-. congruence.
      * destruct (verify_data_spec env w2 Es) as (new & -> & _). cbn [fst].
        split; [auto|]. split; [|reflexivity]. intros _. now exists ing, w1, w2.
    + cbn [fst]. split; [auto|]. split; [discriminate|].
      intros (ing' & w1' & w2' & [= <- <-] & H & _). rewrite Er in H. discriminate.
  - cbn [fst]. split; [auto|]. split; [discriminate|].
    intros (ing' & w1' & w2' & [=] & _).
Qed.

(** ** The driver, from creation to release *)

Lemma new_ingest_creates (env : Env) (w w1 : world) (ing : Neo4jIngest) :
  new_ingest env w = (Ok ing, w1) -> DriverCreated ∈ trace w1.
Proof.
  unfold new_ingest, load_environment, load_config, connect_to_neo4j,
    bind, catch, info, emit, raise, ret.
  destruct (_ && _); [|discriminate].
  destruct (config_file env); [|discriminate].
  destruct (driver_ctor env); [discriminate|].
  destruct (connectivity env); [discriminate|].
  intros [= _ <-]. cbn [trace]. apply list_elem_of_further, list_elem_of_here.
Qed.

(** X20: in a run whose constructor returns, the driver is created, then
    closed exactly once, as the very last event, whatever the phases and
    the verifier did; in a run whose constructor raises it is never
    closed. *)
Theorem driver_is_closed_once_and_last (env : Env) :
  (forall ing w1,
      new_ingest env start = (Ok ing, w1) ->
      exists tr,
        trace (snd (main env start)) = DriverClosed :: tr /\
        (DriverClosed ∉ tr) /\ (DriverCreated ∈ tr)) /\
  (forall e w1,
      new_ingest env start = (Raise e, w1) ->
      DriverClosed ∉ trace (snd (main env start))).
Proof.
  assert (Hnil : DriverClosed ∉ trace start) by (intros H; inversion H).
  split.
  - intros ing w1 Hn.
    pose proof (adds_only_absent not_closing (new_ingest env) DriverClosed start
                  (new_ingest_not_closing env) eq_refl) as H1.
    pose proof (new_ingest_creates env start w1 ing Hn) as Hc.
    rewrite Hn in H1. cbn [snd] in H1.
    pose proof (adds_only_absent not_closing (run_ingest env ing) DriverClosed w1
                  (run_ingest_not_closing env ing) eq_refl) as H2.
    destruct (run_ingest_not_closing env ing w1) as (new2 & Hn2 & _).
    unfold main. rewrite Hn. unfold bind.
    destruct (run_ingest env ing w1) as [[[]|e] w2]; cbn [snd] in H2, Hn2.
    + pose proof (adds_only_absent not_closing (verify_data env) DriverClosed w2
                    (verify_data_not_closing env) eq_refl) as H3.
      destruct (verify_data_not_closing env w2) as (new3 & Hn3 & _).
      assert (Hcr : DriverCreated ∈ trace (snd (verify_data env w2))).
      { rewrite Hn3, Hn2. apply elem_of_app. right. apply elem_of_app. now right. }
      destruct (verify_data env w2) as [[[]|e] w3]; cbn [snd trace clock] in *.
      * eexists. split; [reflexivity|]. split; [|exact Hcr]. intros H. tauto.
      * eexists. split; [reflexivity|]. split.
        -- intros H. apply elem_of_cons in H as [H|H]; [discriminate|]. tauto.
        -- now apply list_elem_of_further.
    + cbn [snd trace clock]. eexists. split; [reflexivity|]. split.
      * intros H. apply elem_of_cons in H as [H|H]; [discriminate|]. tauto.
      * apply list_elem_of_further. rewrite Hn2. apply elem_of_app. now right.
  - intros e w1 Hn.
    pose proof (adds_only_absent not_closing (new_ingest env) DriverClosed start
                  (new_ingest_not_closing env) eq_refl) as H1.
    rewrite Hn in H1. cbn [snd] in H1.
    unfold main. rewrite Hn. cbn [snd trace].
    intros H. apply elem_of_cons in H as [H|H]; [discriminate|]. tauto.
Qed.

(** ** The verifier only reads *)

(** X21: the verifier sends no statement through [run_query]: every
    executed or refused statement in the trace after it was there before;
    and it consumes one tick when its session cannot be acquired, one plus
    the number of its queries otherwise. *)
Theorem verify_data_only_reads (env : Env) (w : world) :
  (forall t q p,
      (Executed t q p ∈ trace (snd (verify_data env w)) -> Executed t q p ∈ trace w) /\
      (Rejected t q p ∈ trace (snd (verify_data env w)) -> Rejected t q p ∈ trace w)) /\
  clock (snd (verify_data env w))
  = match verify_session env (clock w) with
    | Some _ => S (clock w)
    | None => (clock w + S (length verification_queries))%nat
    end.
Proof.
  split.
  - intros t q p. split.
    + apply (adds_only_absent not_writing (verify_data env) (Executed t q p) w
               (verify_data_not_writing env) eq_refl).
    + apply (adds_only_absent not_writing (verify_data env) (Rejected t q p) w
               (verify_data_not_writing env) eq_refl).
  - destruct (verify_session env (clock w)) as [e|] eqn:Es.
    + now rewrite (verify_data_session_fails env w e Es).
    + destruct (verify_data_spec env w Es) as (new & -> & _). reflexivity.
Qed.

(** ** The last line of the ingest *)

(** X22: [run_ingest] ends its part of the log truthfully: the line
    "Data ingest completed successfully!" is added exactly when all four
    phases returned normally, and is then the last line; otherwise the last
    line is the error "Data ingest failed: ..." with the text of the
    exception that is re-raised. *)
Theorem run_ingest_last_line (env : Env) (self : Neo4jIngest) (w : world) :
  exists new,
    trace (snd (run_ingest env self w)) = new ++ trace w /\
    (fst (run_ingest env self w) = Ok tt <-> LogInfo success_line ∈ new) /\
    (fst (run_ingest env self w) = Ok tt ->
     exists rest, new = LogInfo success_line :: rest) /\
    (forall e,
        fst (run_ingest env self w) = Raise e ->
        exists rest, new = LogError ("Data ingest failed: " +:+ exn_text e) :: rest).
Proof.
  pose (phases := info "Starting Neo4j data ingest..." ;;;
                  create_constraints env self ;;;
                  create_indexes env self ;;;
                  load_nodes env self ;;;
                  load_relationships env self).
  destruct (phases_not_success env self w) as (new & Hnew & Hall).
  fold phases in Hnew.
  assert (Hno : LogInfo success_line ∉ new).
  { intros H. apply list_elem_of_In in H. rewrite forallb_forall in Hall.
    specialize (Hall _ H). discriminate. }
  assert (Hrun : run_ingest env self w
                 = catch (phases ;;; info success_line)
                     (fun e => error ("Data ingest failed: " +:+ exn_text e) ;;; raise e)
                     w).
  { unfold phases, run_ingest, catch, bind.
    destruct (info _ w) as [[[]|?] ?]; [|reflexivity].
    destruct (create_constraints _ _ _) as [[[]|?] ?]; [|reflexivity].
    destruct (create_indexes _ _ _) as [[[]|?] ?]; [|reflexivity].
    destruct (load_nodes _ _ _) as [[[]|?] ?]; [|reflexivity].
    destruct (load_relationships _ _ _) as [[[]|?] ?]; reflexivity. }
  rewrite Hrun. clearbody phases. unfold catch, bind.
  destruct (phases w) as [[[]|e] w1]; cbn [snd] in Hnew.
  - unfold info, emit. cbn [fst snd trace]. exists (LogInfo success_line :: new).
    rewrite Hnew. split; [reflexivity|]. split; [|split].
    + split; [intros _; apply list_elem_of_here|reflexivity].
    + intros _. eauto.
    + intros e [=].
  - unfold error, emit, raise. cbn [fst snd trace].
    exists (LogError ("Data ingest failed: " +:+ exn_text e) :: new).
    rewrite Hnew. split; [reflexivity|]. split; [|split].
    + split; [discriminate|]. intros H.
      apply elem_of_cons in H as [H|H]; [discriminate|contradiction].
    + discriminate.
    + intros e' [= <-]. eauto.
Qed.

(** ** A constraints key without a value *)

(** X23: a null [initializing_queries] section or a null [constraints] key
    ends the ingest in its first phase, before any statement is sent (the
    null [indexes] key alone is tolerated); a missing section, a missing
    key or an empty list makes constraint creation log its opening line
    and do nothing else. *)
Theorem constraints_key_without_value (env : Env) (self : Neo4jIngest) (w : world) :
  (initializing_queries (config self) = Null ->
   run_ingest env self w
   = (Raise (no_attribute "get"),
      World (clock w)
        (LogError ("Data ingest failed: " +:+ exn_text (no_attribute "get"))
         :: LogInfo "Creating database constraints..."
         :: LogInfo "Starting Neo4j data ingest..." :: trace w))) /\
  (forall iq,
      initializing_queries (config self) = Present iq ->
      constraints iq = Null ->
      run_ingest env self w
      = (Raise not_iterable,
         World (clock w)
           (LogError ("Data ingest failed: " +:+ exn_text not_iterable)
            :: LogInfo "Creating database constraints..."
            :: LogInfo "Starting Neo4j data ingest..." :: trace w))) /\
  (initializing_queries (config self) = Absent \/
   (exists iq, initializing_queries (config self) = Present iq /\
               (constraints iq = Absent \/ constraints iq = Present [])) ->
   create_constraints env self w
   = (Ok tt, World (clock w) (LogInfo "Creating database constraints..." :: trace w))).
Proof.
  split; [|split].
  - intros H.
    apply (run_ingest_raises_in_constraints env self w
             (World (clock w) (LogInfo "Creating database constraints..."
                               :: LogInfo "Starting Neo4j data ingest..." :: trace w))).
    unfold create_constraints, initializing, bind, info, emit, raise, ingest_started.
    now rewrite H.
  - intros iq H1 H2.
    apply (run_ingest_raises_in_constraints env self w
             (World (clock w) (LogInfo "Creating database constraints..."
                               :: LogInfo "Starting Neo4j data ingest..." :: trace w))).
    unfold create_constraints, initializing, bind, info, emit, raise, ret, ingest_started.
    now rewrite H1, H2.
  - unfold create_constraints, initializing, bind, info, emit, ret.
    intros [H|(iq & H & [H2|H2])]; rewrite H; [reflexivity| |]; now rewrite H2.
Qed.

(** ** Owners first *)

Lemma for_each_skips_case_owner (env : Env) (ns : list (string * entry)) (w : world) :
  for_each ns (load_node_type env) w
  = for_each (List.filter (fun p => negb (String.eqb (fst p) "CaseOwner")) ns)
      (load_node_type env) w.
Proof.
  revert w. induction ns as [|[nt cfg] ns IH]; intros w; [reflexivity|].
  cbn [List.filter fst]. destruct (String.eqb nt "CaseOwner") eqn:E; cbn [negb].
  - cbn [for_each]. unfold bind at 1. unfold load_node_type at 1. rewrite E.
    unfold ret. apply IH.
  - cbn [for_each]. unfold bind.
    destruct (load_node_type env (nt, cfg) w) as [[[]|e] w1]; [apply IH|reflexivity].
Qed.

(** X24: [load_nodes] writes the owners first, in the statement of the
    [CaseOwner] entry, and then goes through the configured node types in
    order leaving that entry out: its source file and field mappings are
    never read. *)
Theorem load_nodes_owners_first
    (env : Env) (self : Neo4jIngest) (w : world)
    (rows : list row) (records : list record)
    (lq : LoadingQueries) (ns : list (string * entry)) (cfg : entry) (q : string) :
  data_dir env "cases.csv" = Some rows ->
  case_owner_records rows = Ok records ->
  loading_queries (config self) = Present lq ->
  nodes lq = Present ns ->
  dict_get "CaseOwner" ns = Some cfg ->
  entry_query cfg = Some q ->
  db_write env (clock w) q (Some records) = RunOk ->
  load_nodes env self w
  = for_each (List.filter (fun p => negb (String.eqb (fst p) "CaseOwner")) ns)
      (load_node_type env)
      (World (S (clock w))
         (LogInfo ("Loaded " +:+ pretty (length records) +:+ " case owners")
          :: SessionClosed (clock w)
          :: Executed (clock w) q (Some records)
          :: SessionOpened (clock w)
          :: LogInfo "Loading case owners..."
          :: LogInfo "Loading nodes..." :: trace w)).
Proof.
  intros Hd Hr Hlq Hns Hc Hq Hw.
  pose proof (load_case_owners_writes env self
                (World (clock w) (LogInfo "Loading nodes..." :: trace w))
                rows records lq ns cfg q Hd Hr Hlq Hns Hc Hq Hw) as H'.
  cbn [clock trace] in H'.
  unfold load_nodes. unfold bind at 1. unfold info at 1, emit at 1.
  unfold bind at 1. rewrite H'. unfold bind at 1. unfold loading.
  rewrite Hlq, Hns. unfold ret. apply for_each_skips_case_owner.
Qed.

(** ** The further properties at work *)

Lemma owner_records_built :
  case_owner_records Scenario.owner_rows = Ok Scenario.owner_records.
Proof. vm_compute. reflexivity. Qed.

Lemma load_case_owners_witness :
  (exists e,
      load_case_owners Scenario.no_files Sample.ingest start
      = (Raise e, World 0 [LogInfo "Loading case owners..."]) /\
      exn_cls e = FileNotFoundError) /\
  load_case_owners Sample.healthy Sample.ingest start
  = (Ok tt,
     World 1 [LogInfo "Loaded 2 case owners"; SessionClosed 0;
              Executed 0 "MERGE owner" (Some Scenario.owner_records);
              SessionOpened 0; LogInfo "Loading case owners..."]).
Proof.
  split.
  - apply (load_case_owners_single_statement Scenario.no_files Sample.ingest start).
    reflexivity.
  - destruct (load_case_owners_single_statement Sample.healthy Sample.ingest start)
      as [_ H].
    edestruct (H Scenario.owner_rows Scenario.owner_records) as [_ H'];
      [reflexivity|exact owner_records_built|reflexivity|reflexivity|].
    apply (H' (Entry None None (Some "MERGE owner")) "MERGE owner");
      reflexivity.
Defined.

Lemma load_csv_data_witness :
  load_csv_data Scenario.no_files "accounts.csv" Scenario.account_mappings start
  = (Raise (Exn FileNotFoundError "CSV file not found: data/accounts.csv"), start) /\
  Forall2 (fun r rec =>
             Forall2 (fun m fv =>
                        fst fv = fst m /\
                        convert_field_value (fst m) (row_get r (snd m)) = Ok (snd fv))
                     Scenario.account_mappings rec)
          [Sample.account_row "A1" "Acme" "100.7"]
          [[("accountId", PStr "A1"); ("name", PStr "Acme"); ("annualRevenue", PInt 100)]].
Proof.
  split.
  - apply (load_csv_data_shape Scenario.no_files "accounts.csv"
             Scenario.account_mappings start). reflexivity.
  - eapply (load_csv_data_shape Sample.healthy "accounts.csv"
              Scenario.account_mappings start).
    + reflexivity.
    + vm_compute. reflexivity.
Defined.

Lemma build_records_fail_witness :
  exists r m text neg,
    r ∈ [Sample.account_row "A1" "Acme" "inf"] /\ m ∈ Scenario.account_mappings /\
    any_keyword numeric_keywords (fst m) = true /\
    row_get r (snd m) = Some text /\
    PyNum.py_float text = Ok (PyNum.FInf neg).
Proof.
  eapply (build_records_fail_on_infinite_cells Scenario.account_mappings
            [Sample.account_row "A1" "Acme" "inf"]).
  vm_compute. reflexivity.
Defined.

Lemma batches_partition_witness :
  replicate 1000 Sample.link
  = take batch_size (drop (1 * batch_size) Sample.links) /\
  (0 < length (replicate 1000 Sample.link) <= batch_size)%nat /\
  (2 < length (batches batch_size Sample.links) ->
   length (replicate 1000 Sample.link) = batch_size)%nat.
Proof.
  apply (batches_partition Sample.links). vm_compute. reflexivity.
Defined.

Lemma accepted_batches_witness :
  (exists new,
      write_node_batches Sample.healthy "MERGE account" Sample.links start
      = (Ok tt, World (0 + length (batches batch_size Sample.links)) (new ++ [])) /\
      written new = Sample.links) /\
  (exists new,
      write_relationship_batches Sample.healthy "HAS_CASE" "MERGE account"
        Sample.links start
      = (Ok tt, World (0 + length (batches batch_size Sample.links)) (new ++ [])) /\
      written new = Sample.links).
Proof.
  apply (accepted_batches_write_every_record Sample.healthy "HAS_CASE" "MERGE account"
           Sample.links start).
  intros i b _. reflexivity.
Defined.

Lemma assigned_to_entry_keys_witness :
  exists e,
    load_relationship_type Sample.healthy
      ("ASSIGNED_TO", Entry None None (Some "MERGE assigned")) start
    = (Raise e, World 0 [LogInfo "Loading ASSIGNED_TO relationships..."]) /\
    exn_cls e = KeyError.
Proof.
  apply (assigned_to_entry_keys Sample.healthy start). left. reflexivity.
Defined.

Lemma relationship_source_missing_witness :
  for_each ([] ++ ("HAS_CASE", Scenario.has_case)
               :: [("ASSIGNED_TO",
                    Entry (Some "cases.csv") (Some []) (Some "MERGE assigned"))])
    (load_relationship_type Scenario.no_files) start
  = (Raise (Exn FileNotFoundError "CSV file not found: data/accounts.csv"),
     World 0 [LogInfo "Loading HAS_CASE relationships..."]).
Proof.
  apply (relationship_source_missing_is_fatal Scenario.no_files "HAS_CASE"
           Scenario.has_case "accounts.csv" Scenario.account_mappings "MERGE has_case"
           [] _ start start); try reflexivity; discriminate.
Defined.

Lemma relationship_count_witness :
  exists new,
    load_relationship_type Scenario.down ("HAS_CASE", Scenario.has_case) start
    = (Ok tt,
       World 1
         (LogInfo "Loaded 1 HAS_CASE relationships"
          :: new
          ++ [LogInfo "Loaded 1 records from data/accounts.csv";
              LogInfo "Loading HAS_CASE relationships..."])) /\
    written new = [].
Proof.
  destruct (relationship_count_is_of_records_read Scenario.down "HAS_CASE"
              Scenario.has_case "accounts.csv" Scenario.account_mappings
              "MERGE has_case" [Sample.account_row "A1" "Acme" "100.7"]
              [[("accountId", PStr "A1"); ("name", PStr "Acme");
                ("annualRevenue", PInt 100)]] start)
    as (new & Hrun & _ & Hnone);
    try reflexivity; try discriminate.
  exists new. split; [exact Hrun|]. apply Hnone. intros i b _. discriminate.
Defined.

Lemma startup_failures_witness :
  main Scenario.no_password start
  = (1, World 0 [RootLogError
                   "Ingest process failed: Missing required Neo4j credentials in .env file"]) /\
  main Scenario.no_config start
  = (1, World 0 [RootLogError
                   "Ingest process failed: Configuration file ingest_config.yaml not found"]) /\
  main Scenario.no_driver start
  = (1, World 0 [RootLogError
                   "Ingest process failed: Failed to connect to Neo4j: URI scheme 'htp' is not supported";
                 LogInfo "Loaded configuration from ingest_config.yaml"]).
Proof.
  split; [|split].
  - apply (proj1 (startup_failures Scenario.no_password start)). reflexivity.
  - apply (proj1 (proj2 (startup_failures Scenario.no_config start) eq_refl)).
    reflexivity.
  - apply (proj2 (proj2 (startup_failures Scenario.no_driver start) eq_refl) Sample.cfg
             (Exn ValueError "URI scheme 'htp' is not supported"));
      reflexivity.
Defined.

Lemma exit_code_witness :
  fst (main Sample.miscounting start) = 0 /\
  fst (main Scenario.no_verify_session start) = 1.
Proof.
  split.
  - apply (exit_code Sample.miscounting start).
    destruct (new_ingest Sample.miscounting start) as [[ing|e] w1] eqn:En;
      [|vm_compute in En; discriminate].
    destruct (run_ingest Sample.miscounting ing w1) as [[[]|e] w2] eqn:Er.
    + exists ing, w1, w2. split; [reflexivity|]. split; [exact Er|reflexivity].
    + vm_compute in En. injection En as <- <-. vm_compute in Er. discriminate.
  - destruct (exit_code Scenario.no_verify_session start) as [[H|H] [Hz _]];
      [|exact H].
    destruct (Hz H) as (ing & w1 & w2 & _ & _ & Hs). discriminate.
Defined.

Lemma driver_is_closed_once_witness :
  (exists tr,
      trace (snd (main Sample.refused start)) = DriverClosed :: tr /\
      (DriverClosed ∉ tr) /\ (DriverCreated ∈ tr)) /\
  DriverClosed ∉ trace (snd (main Sample.unreachable start)).
Proof.
  split.
  - destruct (new_ingest Sample.refused start) as [[ing|e] w1] eqn:En;
      [|vm_compute in En; discriminate].
    apply (proj1 (driver_is_closed_once_and_last Sample.refused) ing w1 En).
  - destruct (new_ingest Sample.unreachable start) as [[ing|e] w1] eqn:En;
      [vm_compute in En; discriminate|].
    apply (proj2 (driver_is_closed_once_and_last Sample.unreachable) e w1 En).
Defined.

Lemma verify_data_only_reads_witness :
  Executed 0 "MERGE owner" None ∈ [Executed 0 "MERGE owner" None] /\
  clock (snd (verify_data Sample.healthy start)) = 12%nat.
Proof.
  destruct (verify_data_only_reads Sample.healthy
              (World 1 [Executed 0 "MERGE owner" None])) as [H _].
  destruct (verify_data_only_reads Sample.healthy start) as [_ Hc].
  split.
  - apply (H 0%nat "MERGE owner" None).
    destruct (verify_data_not_writing Sample.healthy
                (World 1 [Executed 0 "MERGE owner" None])) as (new & -> & _).
    apply elem_of_app. right. apply list_elem_of_here.
  - exact Hc.
Defined.

Lemma run_ingest_last_line_witness :
  exists new rest,
    trace (snd (run_ingest Sample.healthy Sample.ingest start)) = new ++ [] /\
    new = LogInfo success_line :: rest.
Proof.
  assert (Hr : fst (run_ingest Sample.healthy Sample.ingest start) = Ok tt)
    by (vm_compute; reflexivity).
  destruct (run_ingest_last_line Sample.healthy Sample.ingest start)
    as (new & Hnew & _ & Hok & _).
  destruct (Hok Hr) as [rest Hrest].
  exists new, rest. split; [exact Hnew|exact Hrest].
Defined.

Lemma constraints_key_witness :
  fst (run_ingest Sample.healthy Scenario.null_constraints start) = Raise not_iterable /\
  create_constraints Sample.healthy Sample.reserved_only start
  = (Ok tt, World 0 [LogInfo "Creating database constraints..."]).
Proof.
  destruct (constraints_key_without_value Sample.healthy Scenario.null_constraints start)
    as (_ & H2 & _).
  destruct (constraints_key_without_value Sample.healthy Sample.reserved_only start)
    as (_ & _ & H3).
  split.
  - erewrite H2; reflexivity.
  - apply H3. left. reflexivity.
Defined.

Lemma load_nodes_owners_first_witness :
  load_nodes Sample.healthy Sample.ingest start
  = for_each [("Account",
               Entry (Some "accounts.csv")
                     (Some [("accountId", "Account_ID"); ("name", "Account_Name");
                            ("annualRevenue", "Annual_Revenue")])
                     (Some "MERGE account"))]
      (load_node_type Sample.healthy)
      (World 1 [LogInfo "Loaded 2 case owners"; SessionClosed 0;
                Executed 0 "MERGE owner" (Some Scenario.owner_records);
                SessionOpened 0; LogInfo "Loading case owners...";
                LogInfo "Loading nodes..."]).
Proof.
  pose (ns := [("Account",
                Entry (Some "accounts.csv")
                      (Some [("accountId", "Account_ID"); ("name", "Account_Name");
                             ("annualRevenue", "Annual_Revenue")])
                      (Some "MERGE account"));
               ("CaseOwner", Entry None None (Some "MERGE owner"))]).
  apply (load_nodes_owners_first Sample.healthy Sample.ingest start
           Scenario.owner_rows Scenario.owner_records
           {| nodes := Present ns;
              relationships := Present
                [ ("CONVERTED_TO_OPPORTUNITY", Entry None None None);
                  ("ASSIGNED_TO",
                   Entry (Some "cases.csv") (Some []) (Some "MERGE assigned")) ] |}
           ns (Entry None None (Some "MERGE owner")) "MERGE owner");
    [reflexivity|exact owner_records_built|reflexivity|reflexivity|reflexivity
    |reflexivity|reflexivity].
Defined.
